(** * js-toolkit: the 2D geometry kernel and the numeric range

    A shallow embedding of the TypeScript sources
    - [packages/cg-point]  (class [CGPoint]),
    - the size class [CGSize],
    - [packages/cg-rect] and its two sibling variants ([CGRect], [Rect]),
    - [packages/cg-line]  (classes [Line] / [CGLine]),
    - [packages/cf-numeric-range] (class [CFNumericRange]),
    - [packages/js-assertion] (the assertions on numbers).

    A JavaScript [number] is an IEEE-754 binary64 value.  It is modelled by
    the standard library's executable specification of binary floating point
    ([spec_float], precision 53, maximal exponent 1024), so that every
    arithmetic operator of the sources is the correctly rounded
    (round-to-nearest, ties-to-even) operation, and NaN, the infinities and
    the two zeros are first-class values.

    Conventions of the embedding:
    - a method that assigns to the fields of [this] and returns [this] is a
      function from the old fields to the new ones; where a method receives
      another instance by reference ([CGPoint.subtract]) the instances live
      in a store and the method transforms the store;
    - an optional field or argument is an [option]; [null] is [None];
    - a loop whose termination depends on the data ([countDecimals], the
      iterator) takes fuel, and a call that throws returns [Throws];
    - [precision] is a number like any other; [10 ** d] is fixed by ECMA-262
      for a [d] that is NaN, a zero or infinite, it is the double nearest to
      the power of ten for an integer [d], and for every other [d] it is
      implementation-approximated: there the engine's function is an
      argument of the definitions that reach it; [x ** 2] is [x * x];
    - the built-ins the sources call ([Math.round], [Math.max], [Math.min],
      [parseFloat], [Number.prototype.toString], [Number.prototype.toFixed],
      [String.prototype.replace] with the class [[^\w.-]]) are defined after
      ECMA-262. *)

From Stdlib Require Import ZArith Bool List Lia String Ascii DecimalString.
From Stdlib Require Import Floats.SpecFloat.
From stdpp Require Import base option gmap.

Local Open Scope Z_scope.

(* ===================================================================== *)
(** ** The platform: JavaScript numbers                                    *)
(* ===================================================================== *)

Module JS.

Definition prec : Z := 53.
Definition emax : Z := 1024.

(** A JavaScript number.  The values a program can hold are the ones that
    satisfy [is_double]. *)
Definition number : Type := spec_float.

Definition is_double (x : number) : bool := valid_binary prec emax x.

Definition NaN : number := S754_nan.
Definition Infinity : number := S754_infinity false.

(** An integer literal. *)
Definition of_Z (z : Z) : number := binary_normalize prec emax z 0 false.

(** The arithmetic operators [+ - * /] and unary minus. *)
Definition add : number -> number -> number := SFadd prec emax.
Definition sub : number -> number -> number := SFsub prec emax.
Definition mul : number -> number -> number := SFmul prec emax.
Definition div : number -> number -> number := SFdiv prec emax.
Definition neg : number -> number := SFopp.

(** The comparison operators [< > <= >= === !==]. *)
Definition lt (a b : number) : bool := SFltb a b.
Definition gt (a b : number) : bool := SFltb b a.
Definition le (a b : number) : bool := SFleb a b.
Definition ge (a b : number) : bool := SFleb b a.
Definition strict_eq (a b : number) : bool := SFeqb a b.
Definition strict_ne (a b : number) : bool := negb (SFeqb a b).

(** [Number.isNaN] and the truthiness of a number (ToBoolean): a number is
    falsy exactly when it is [+0], [-0] or [NaN]. *)
Definition isNaN (x : number) : bool :=
  match x with S754_nan => true | _ => false end.

Definition truthy (x : number) : bool :=
  match x with
  | S754_nan | S754_zero _ => false
  | _ => true
  end.

(** Two numbers are the same value when they are [===] or both NaN (the
    two zeros are the same value). *)
Definition same_value_zero (a b : number) : bool :=
  strict_eq a b || (isNaN a && isNaN b).

(** [Math.abs], [Math.sqrt]. *)
Definition Math_abs : number -> number := SFabs.
Definition Math_sqrt : number -> number := SFsqrt prec emax.

(** [Math.max(a, b)] and [Math.min(a, b)]: NaN when an argument is NaN; the
    comparison is [<] except that [+0] is larger than [-0]. *)
Definition Math_max (a b : number) : number :=
  if isNaN a || isNaN b then NaN
  else if lt a b then b
  else if lt b a then a
  else match a with S754_zero true => b | _ => a end.

Definition Math_min (a b : number) : number :=
  if isNaN a || isNaN b then NaN
  else if lt a b then a
  else if lt b a then b
  else match a with S754_zero true => a | _ => b end.

(** [Math.max(...values)] and [Math.min(...values)] with an array spread
    into the arguments: the running result starts at [-Infinity], resp.
    [+Infinity], and takes each argument in turn. *)
Definition Math_max_list (values : list number) : number :=
  fold_left Math_max values (S754_infinity true).

Definition Math_min_list (values : list number) : number :=
  fold_left Math_min values Infinity.

(** [Array.prototype.indexOf] on an array of numbers: the first index whose
    element is [===] the searched one; [None] is the result [-1]. *)
Fixpoint indexOf (values : list number) (searched : number) : option nat :=
  match values with
  | [] => None
  | v :: rest =>
      if strict_eq v searched then Some O
      else option_map S (indexOf rest searched)
  end.

(** [Math.round(x)]: [x] itself when [x] is NaN, infinite, a zero or
    already integral; otherwise the integer closest to [x], the one closer
    to +Infinity on a tie; a result of magnitude zero keeps the sign of
    [x].  A finite double [m * 2^e] with [e >= 0] is integral; for
    [e = -k < 0] the integer is [floor (m / 2^k + 1/2)] for a positive [x]
    and [- ceil (m / 2^k - 1/2)] for a negative one. *)
Definition round_magnitude (s : bool) (m k : positive) : Z :=
  if s then (Zpos m + 2 ^ (Zpos k - 1) - 1) / 2 ^ Zpos k
  else (Zpos m + 2 ^ (Zpos k - 1)) / 2 ^ Zpos k.

Definition Math_round (x : number) : number :=
  match x with
  | S754_finite s m (Zneg k) =>
      match round_magnitude s m k with
      | Zpos q => binary_round prec emax s q 0
      | _ => S754_zero s
      end
  | _ => x
  end.

(** [Number.isFinite]. *)
Definition isFinite (x : number) : bool :=
  match x with S754_zero _ | S754_finite _ _ _ => true | _ => false end.

(** *** Pixel coordinates

    The integer part of a finite number, towards zero. *)
Definition to_int (v : number) : Z :=
  match v with
  | S754_finite s m e =>
      cond_Zopp s (if (e <? 0)%Z then Zpos m / 2 ^ (- e) else Zpos m * 2 ^ e)
  | _ => 0
  end.

(** Identity of representation (unlike [===], it tells the two zeros apart
    and equates NaN with itself). *)
Definition same_bits (a b : number) : bool :=
  match a, b with
  | S754_zero s, S754_zero t => Bool.eqb s t
  | S754_infinity s, S754_infinity t => Bool.eqb s t
  | S754_nan, S754_nan => true
  | S754_finite s m e, S754_finite t n f =>
      Bool.eqb s t && (m =? n)%positive && (e =? f)%Z
  | _, _ => false
  end.

(** [v] is an integer of magnitude below 2^52: a zero, or the double of
    such an integer. *)
Definition small_integer (v : number) : bool :=
  match v with
  | S754_zero _ => true
  | S754_finite _ _ _ =>
      (Z.abs (to_int v) <? 2 ^ 52)%Z && same_bits v (of_Z (to_int v))
  | _ => false
  end.

(** The condition under which re-aligning one axis of a rectangle changes
    nothing, on the near coordinate ([x] or [y]) and the far edge
    ([x + width] or [y + height]): the near coordinate is NaN or infinite,
    or it rounds to a small integer and the far edge is NaN, infinite or
    rounds to a small integer. *)
Definition edge_ok (near far : number) : bool :=
  negb (isFinite near)
  || (small_integer (Math_round near)
      && (negb (isFinite far) || small_integer (Math_round far))).

End JS.

Declare Scope js_scope.
Delimit Scope js_scope with js.
Infix "+" := JS.add : js_scope.
Infix "-" := JS.sub : js_scope.
Infix "*" := JS.mul : js_scope.
Infix "/" := JS.div : js_scope.
Notation "- x" := (JS.neg x) : js_scope.
Infix "<" := JS.lt : js_scope.
Infix ">" := JS.gt : js_scope.
Infix "<=" := JS.le : js_scope.
Infix ">=" := JS.ge : js_scope.
Infix "===" := JS.strict_eq (at level 70, no associativity) : js_scope.
Infix "!==" := JS.strict_ne (at level 70, no associativity) : js_scope.
Notation "# z" := (JS.of_Z z) (at level 1, format "# z") : js_scope.


Local Open Scope js_scope.

(* ===================================================================== *)
(** ** [CGPoint] (packages/cg-point/src/index.ts)                          *)
(* ===================================================================== *)

Module CGPoint.

(** [CGPointValue = { x: number, y: number }]; an instance of the class
    carries the same two fields. *)
Record CGPointValue : Type := mk { x : JS.number; y : JS.number }.

Definition zero : CGPointValue := {| x := #0; y := #0 |}.

(** *** Methods, as transformers of the receiver's fields

    Every "operation" method assigns to the fields of [this] and returns
    [this]; on a receiver that nobody else references this is a function
    on the record. *)

Definition set (point : CGPointValue) (this : CGPointValue) : CGPointValue :=
  {| x := x point; y := y point |}.

Definition negate (this : CGPointValue) : CGPointValue :=
  {| x := - x this; y := - y this |}.

(** [add(...points)] with arguments that are not the receiver itself
    (object literals, other instances). *)
Definition add (points : list CGPointValue) (this : CGPointValue) : CGPointValue :=
  fold_left (fun acc point => {| x := x acc + x point; y := y acc + y point |})
            points this.

Definition multiply (value : JS.number) (this : CGPointValue) : CGPointValue :=
  {| x := x this * value; y := y this * value |}.

Definition divide (value : JS.number) (this : CGPointValue) : CGPointValue :=
  {| x := x this / value; y := y this / value |}.

Definition pixelAlign (this : CGPointValue) : CGPointValue :=
  {| x := JS.Math_round (x this); y := JS.Math_round (y this) |}.

Definition isEqual (a b : CGPointValue) : bool :=
  (x a === x b) && (y a === y b).

Definition distance (a b : CGPointValue) : JS.number :=
  let deltaX := JS.Math_abs (x a - x b) in
  let deltaY := JS.Math_abs (y a - y b) in
  JS.Math_sqrt (deltaX * deltaX + deltaY * deltaY).

Definition center (a b : CGPointValue) : CGPointValue :=
  {| x := (x a + x b) / #2; y := (y a + y b) / #2 |}.

(** [closest(...points)(pointToCheck)]; [None] is [undefined], what
    [points[index]] is when [indexOf] found nothing. *)
Definition closest (points : list CGPointValue) (pointToCheck : CGPointValue)
  : option CGPointValue :=
  let distances := map (fun point => distance point pointToCheck) points in
  let closestDistance := JS.Math_min_list distances in
  match JS.indexOf distances closestDistance with
  | Some index => points !! index
  | None => None
  end.

(** *** Instances as shared, mutable objects

    Instances are heap objects: a reference is a location, and the store
    maps each live location to the current fields.  A method that receives
    another instance receives a reference, which may be the receiver
    itself. *)
Abbreviation ref := positive.
Abbreviation store := (gmap positive CGPointValue).

(** [this.x = -this.x; this.y = -this.y; return this]. *)
Definition negate_at (this : ref) (h : store) : option (ref * store) :=
  p ← h !! this;
  let h1 := <[this := {| x := - x p; y := y p |}]> h in
  p1 ← h1 !! this;
  Some (this, <[this := {| x := x p1; y := - y p1 |}]> h1).

(** One round of the [forEach] callback of [add]:
    [this.x += point.x; this.y += point.y], each statement reading the
    store as the previous one left it. *)
Definition add_step (this : ref) (h : store) (point : ref) : option store :=
  a ← h !! this;
  p ← h !! point;
  let h1 := <[this := {| x := x a + x p; y := y a |}]> h in
  a1 ← h1 !! this;
  p1 ← h1 !! point;
  Some (<[this := {| x := x a1; y := y a1 + y p1 |}]> h1).

Fixpoint add_at (this : ref) (points : list ref) (h : store) : option (ref * store) :=
  match points with
  | [] => Some (this, h)
  | point :: rest => h1 ← add_step this h point; add_at this rest h1
  end.

(** [subtract = (point) => this.add(point.negate())]: the argument is
    negated first, in place, and the reference it returns is what [add]
    reads. *)
Definition subtract (this : ref) (point : ref) (h : store) : option (ref * store) :=
  '(negated, h1) ← negate_at point h;
  add_at this [negated] h1.

End CGPoint.

(* ===================================================================== *)
(** ** [CGSize]                                                            *)
(* ===================================================================== *)

Module CGSize.

Record CGSizeValue : Type := mk { width : JS.number; height : JS.number }.

(** [Partial<CGSizeValue>]: each field may be absent. *)
Record PartialSize : Type :=
  partial { p_width : option JS.number; p_height : option JS.number }.

Definition zero : CGSizeValue := {| width := #0; height := #0 |}.

Definition aspectRatio (this : CGSizeValue) : JS.number :=
  width this / height this.

Definition longestSide (this : CGSizeValue) : JS.number :=
  JS.Math_max (width this) (height this).

Definition shortestSide (this : CGSizeValue) : JS.number :=
  JS.Math_min (width this) (height this).

Definition isEmpty (this : CGSizeValue) : bool :=
  (width this === #0) && (height this === #0).

Definition flip (this : CGSizeValue) : CGSizeValue :=
  {| width := height this; height := width this |}.

(** [set(size, lockAspectRatio = false)].  [size.width != null] is
    "the field is supplied". *)
Definition set (size : PartialSize) (lockAspectRatio : bool)
               (this : CGSizeValue) : CGSizeValue :=
  let width0 := match p_width size with Some w => w | None => width this end in
  let height0 := match p_height size with Some h => h | None => height this end in
  let width1 :=
    if lockAspectRatio then
      match p_width size, p_height size with
      | None, Some h => h * aspectRatio this
      | _, _ => width0
      end
    else width0 in
  let height1 :=
    if lockAspectRatio then
      match p_width size, p_height size with
      | Some w, None =>
          if JS.truthy (aspectRatio this) then w / aspectRatio this else height0
      | _, _ => height0
      end
    else height0 in
  {| width := width1; height := height1 |}.

Definition isEqual (size1 size2 : CGSizeValue) : bool :=
  (width size1 === width size2) && (height size1 === height size2).

End CGSize.

(* ===================================================================== *)
(** ** [CGRect] (packages/cg-rect/src/index.ts and its sibling copy that
       adds [overlaps])                                                    *)
(* ===================================================================== *)

Module CGRect.

(** A rectangle owns one point (its origin) and one size, both created by
    its constructor and never handed out for mutation by the methods
    below. *)
Record CGRect : Type :=
  mk { origin : CGPoint.CGPointValue; size : CGSize.CGSizeValue }.

(** [new CGRect({x, y, width, height})] and [CGRect.create]. *)
Definition create (x y width height : JS.number) : CGRect :=
  {| origin := {| CGPoint.x := x; CGPoint.y := y |};
     size := {| CGSize.width := width; CGSize.height := height |} |}.

(** The getters. *)
Definition x (this : CGRect) : JS.number := CGPoint.x (origin this).
Definition y (this : CGRect) : JS.number := CGPoint.y (origin this).
Definition width (this : CGRect) : JS.number := CGSize.width (size this).
Definition height (this : CGRect) : JS.number := CGSize.height (size this).

Definition minX (this : CGRect) : JS.number := x this.
Definition midX (this : CGRect) : JS.number := x this + width this / #2.
Definition maxX (this : CGRect) : JS.number := x this + width this.
Definition minY (this : CGRect) : JS.number := y this.
Definition midY (this : CGRect) : JS.number := y this + height this / #2.
Definition maxY (this : CGRect) : JS.number := y this + height this.

Definition isEmpty (this : CGRect) : bool := CGSize.isEmpty (size this).

(** [inflate(delta)]:
    [this.origin.add({ x: delta, y: delta })] and then
    [this.size.set({ width: this.width - 1 * delta, height: this.height - 1 * delta })]. *)
Definition inflate (delta : JS.number) (this : CGRect) : CGRect :=
  let this1 :=
    {| origin := CGPoint.add [ {| CGPoint.x := delta; CGPoint.y := delta |} ] (origin this);
       size := size this |} in
  {| origin := origin this1;
     size := CGSize.set
               (CGSize.partial (Some (width this1 - #1 * delta))
                               (Some (height this1 - #1 * delta)))
               false (size this1) |}.

(** [pixelAlign()]. *)
Definition pixelAlign (this : CGRect) : CGRect :=
  let x' := JS.Math_round (x this) in
  let y' := JS.Math_round (y this) in
  let rectMaxX := JS.Math_round (x this + width this) in
  let rectMaxY := JS.Math_round (y this + height this) in
  let width' := JS.Math_max (rectMaxX - x') #0 in
  let height' := JS.Math_max (rectMaxY - y') #0 in
  {| origin := CGPoint.set {| CGPoint.x := x'; CGPoint.y := y' |} (origin this);
     size := CGSize.set (CGSize.partial (Some width') (Some height')) false (size this) |}.

(** [containsPoint(point)]: six guards in the order of the source. *)
Definition containsPoint (point : CGPoint.CGPointValue) (this : CGRect) : bool :=
  if CGPoint.x point < minX this then false
  else if CGPoint.x point > maxX this then false
  else if CGPoint.y point < minY this then false
  else if CGPoint.y point > maxY this then false
  else if JS.isNaN (x this) then false
  else if JS.isNaN (y this) then false
  else true.

(** [intersects]: the static method of the package and the instance method
    of the sibling copy are the same expression. *)
Definition intersects (rectA rectB : CGRect) : bool :=
  (x rectA < maxX rectB) && (y rectA < maxY rectB)
  && (maxX rectA > x rectB) && (maxY rectA > y rectB).

Definition overlapsHorizontally (rectA rectB : CGRect) : bool :=
  let aMax := maxX rectA in
  let bMax := maxX rectB in
  (aMax > x rectB) && (bMax > x rectA).

Definition overlapsVertically (rectA rectB : CGRect) : bool :=
  let aMax := maxY rectA in
  let bMax := maxY rectB in
  (aMax > y rectB) && (bMax > y rectA).

Definition overlaps (rectA rectB : CGRect) : bool :=
  overlapsHorizontally rectA rectB || overlapsVertically rectA rectB.

Definition intersection (rect1 rect2 : CGRect) : CGRect :=
  let x' := JS.Math_max (x rect1) (x rect2) in
  let x2 := JS.Math_min (x rect1 + width rect1) (x rect2 + width rect2) in
  let y' := JS.Math_max (y rect1) (y rect2) in
  let y2 := JS.Math_min (y rect1 + height rect1) (y rect2 + height rect2) in
  create x' y' (x2 - x') (y2 - y').

(** [CGRect.fromPoints(...points)]. *)
Definition fromPoints (points : list CGPoint.CGPointValue) : CGRect :=
  let xValues := map CGPoint.x points in
  let yValues := map CGPoint.y points in
  let x' := JS.Math_min_list xValues in
  let y' := JS.Math_min_list yValues in
  let width' := JS.Math_max_list xValues - x' in
  let height' := JS.Math_max_list yValues - y' in
  create x' y' width' height'.

(** [cornerPoints]: top left, top right, bottom right, bottom left. *)
Definition cornerPoints (this : CGRect) : list CGPoint.CGPointValue :=
  [ {| CGPoint.x := minX this; CGPoint.y := minY this |};
    {| CGPoint.x := maxX this; CGPoint.y := minY this |};
    {| CGPoint.x := maxX this; CGPoint.y := maxY this |};
    {| CGPoint.x := minX this; CGPoint.y := maxY this |} ].

(** [containsRect(rect)]: the loop returns [false] at the first corner
    that is not contained. *)
Definition containsRect (rect : CGRect) (this : CGRect) : bool :=
  forallb (fun point => containsPoint point this) (cornerPoints rect).

(** [CGRect.isEqual(a, b)]; [None] is [undefined]. *)
Definition isEqual (a b : option CGRect) : bool :=
  match a, b with
  | Some a, Some b =>
      CGPoint.isEqual (origin a) (origin b) && CGSize.isEqual (size a) (size b)
  | _, _ => false
  end.

(** [CGRect.merge(...rects)]. *)
Definition merge (rects : list CGRect) : CGRect :=
  let min := {| CGPoint.x := JS.Math_min_list (map minX rects);
                CGPoint.y := JS.Math_min_list (map minY rects) |} in
  let max := {| CGPoint.x := JS.Math_max_list (map maxX rects);
                CGPoint.y := JS.Math_max_list (map maxY rects) |} in
  fromPoints [min; max].

(** [distanceFromPoint(point)]. *)
Definition distanceFromPoint (point : CGPoint.CGPointValue) (this : CGRect)
  : JS.number :=
  let x' :=
    if CGPoint.x point < x this then x this - CGPoint.x point
    else if CGPoint.x point > maxX this then CGPoint.x point - maxX this
    else #0 in
  let y' :=
    if CGPoint.y point < y this then y this - CGPoint.y point
    else if CGPoint.y point > maxY this then CGPoint.y point - maxY this
    else #0 in
  let to := {| CGPoint.x := x'; CGPoint.y := y' |} in
  CGPoint.distance to CGPoint.zero.

End CGRect.

(* ===================================================================== *)
(** ** [Rect]: the flat variant of the rectangle class                     *)
(* ===================================================================== *)

Module Rect.

Record Rect : Type :=
  mk { x : JS.number; y : JS.number; width : JS.number; height : JS.number }.

Definition minX (this : Rect) : JS.number := x this.
Definition maxX (this : Rect) : JS.number := x this + width this.
Definition minY (this : Rect) : JS.number := y this.
Definition maxY (this : Rect) : JS.number := y this + height this.

(** [inflate(value)]: returns early on [value === 0], otherwise assigns all
    four fields from the old ones. *)
Definition inflate (value : JS.number) (this : Rect) : Rect :=
  if value === #0 then this
  else
    let doubleValue := #2 * value in
    {| x := x this - value;
       y := y this - value;
       width := width this + doubleValue;
       height := height this + doubleValue |}.

Definition pixelAlign (this : Rect) : Rect :=
  let x' := JS.Math_round (x this) in
  let y' := JS.Math_round (y this) in
  let rectMaxX := JS.Math_round (x this + width this) in
  let rectMaxY := JS.Math_round (y this + height this) in
  let width' := JS.Math_max (rectMaxX - x') #0 in
  let height' := JS.Math_max (rectMaxY - y') #0 in
  {| x := x'; y := y'; width := width'; height := height' |}.

Definition containsPoint (point : CGPoint.CGPointValue) (this : Rect) : bool :=
  if CGPoint.x point < minX this then false
  else if CGPoint.x point > maxX this then false
  else if CGPoint.y point < minY this then false
  else if CGPoint.y point > maxY this then false
  else if JS.isNaN (x this) then false
  else if JS.isNaN (y this) then false
  else true.

Definition intersects (this rect : Rect) : bool :=
  (x this < maxX rect) && (y this < maxY rect)
  && (maxX this > x rect) && (maxY this > y rect).

(** [inset(factor)] returns a plain object with the four fields. *)
Definition inset (factor : JS.number) (this : Rect) : Rect :=
  {| x := x this + factor;
     y := y this + factor;
     width := JS.Math_max #0 (width this - #2 * factor);
     height := JS.Math_max #0 (height this - #2 * factor) |}.

Definition distanceFromPoint (point : CGPoint.CGPointValue) (this : Rect)
  : JS.number :=
  let x' :=
    if CGPoint.x point < x this then x this - CGPoint.x point
    else if CGPoint.x point > maxX this then CGPoint.x point - maxX this
    else #0 in
  let y' :=
    if CGPoint.y point < y this then y this - CGPoint.y point
    else if CGPoint.y point > maxY this then CGPoint.y point - maxY this
    else #0 in
  let to := {| CGPoint.x := x'; CGPoint.y := y' |} in
  CGPoint.distance to CGPoint.zero.

End Rect.

(* ===================================================================== *)
(** ** [Line] (packages/cg-line/src/index.ts) and [CGLine]                 *)
(* ===================================================================== *)

Module Line.

Record Line : Type :=
  mk { start : CGPoint.CGPointValue; end_ : CGPoint.CGPointValue }.

(** [Line.intersection(lineA, lineB)]; [None] is the [null] result. *)
Definition intersection (lineA lineB : Line) : option CGPoint.CGPointValue :=
  let a := start lineA in
  let b := end_ lineA in
  let c := start lineB in
  let d := end_ lineB in
  let ax := CGPoint.x a in let ay := CGPoint.y a in
  let bx := CGPoint.x b in let by_ := CGPoint.y b in
  let cx := CGPoint.x c in let cy := CGPoint.y c in
  let dx := CGPoint.x d in let dy := CGPoint.y d in
  let u := (bx - ax) * (dy - cy) - (by_ - ay) * (dx - cx) in
  if u === #0 then None
  else
    let x := ((ax * ax + ay * ay) * (dy - cy) - (ay * ay + ax * ax) * (dx - cx)) / u in
    let y := ((bx * bx + by_ * by_) * (ay - cy) - (by_ * by_ + bx * bx) * (ax - cx)) / u in
    Some {| CGPoint.x := x; CGPoint.y := y |}.

(** The determinant the method tests. *)
Definition determinant (lineA lineB : Line) : JS.number :=
  let a := start lineA in
  let b := end_ lineA in
  let c := start lineB in
  let d := end_ lineB in
  (CGPoint.x b - CGPoint.x a) * (CGPoint.y d - CGPoint.y c)
  - (CGPoint.y b - CGPoint.y a) * (CGPoint.x d - CGPoint.x c).

Definition perpendicularLine (point : CGPoint.CGPointValue) (this : Line) : Line :=
  let dx := CGPoint.x (start this) - CGPoint.x (end_ this) in
  let dy := CGPoint.y (start this) - CGPoint.y (end_ this) in
  let pointB := {| CGPoint.x := CGPoint.x point - dy; CGPoint.y := CGPoint.y point + dx |} in
  {| start := pointB; end_ := point |}.

Definition project (point : CGPoint.CGPointValue) (this : Line) : option CGPoint.CGPointValue :=
  intersection this (perpendicularLine point this).

(** [length]; the same getter is on [CGLine]. *)
Definition length (this : Line) : JS.number :=
  CGPoint.distance (start this) (end_ this).

(** A point [p] lies on the infinite line through [start] and [end] when
    the direction vector and [p - start] are parallel: their cross product
    is zero. *)
Definition cross (this : Line) (p : CGPoint.CGPointValue) : JS.number :=
  (CGPoint.x (end_ this) - CGPoint.x (start this)) * (CGPoint.y p - CGPoint.y (start this))
  - (CGPoint.y (end_ this) - CGPoint.y (start this)) * (CGPoint.x p - CGPoint.x (start this)).

Definition on_line (this : Line) (p : CGPoint.CGPointValue) : bool :=
  cross this p === #0.

End Line.

Module CGLine.

(** [x ** 2]: the square, as the product [x * x]. *)
Definition sq (v : JS.number) : JS.number := v * v.

(** [CGLine.intersection]: the text of [Line.intersection] with every
    product [v * v] written [v ** 2]. *)
Definition intersection (lineA lineB : Line.Line) : option CGPoint.CGPointValue :=
  let a := Line.start lineA in
  let b := Line.end_ lineA in
  let c := Line.start lineB in
  let d := Line.end_ lineB in
  let ax := CGPoint.x a in let ay := CGPoint.y a in
  let bx := CGPoint.x b in let by_ := CGPoint.y b in
  let cx := CGPoint.x c in let cy := CGPoint.y c in
  let dx := CGPoint.x d in let dy := CGPoint.y d in
  let u := (bx - ax) * (dy - cy) - (by_ - ay) * (dx - cx) in
  if u === #0 then None
  else
    let x := ((sq ax + sq ay) * (dy - cy) - (sq ay + sq ax) * (dx - cx)) / u in
    let y := ((sq bx + sq by_) * (ay - cy) - (sq by_ + sq bx) * (ax - cx)) / u in
    Some {| CGPoint.x := x; CGPoint.y := y |}.

(** *** Instances

    A [CGLine] holds its two end points by reference: the constructor
    stores the [CGPoint] instances it is given. *)
Record CGLine : Type := mk { start : CGPoint.ref; end_ : CGPoint.ref }.

(** [clone = () => new CGLine(this.start, this.end)]. *)
Definition clone (this : CGLine) : CGLine :=
  {| start := start this; end_ := end_ this |}.

(** [this.p.x += dx; this.p.y += dy], each statement reading the store as
    the previous one left it. *)
Definition shift_point (p : CGPoint.ref) (dx dy : JS.number) (h : CGPoint.store)
  : option CGPoint.store :=
  a ← h !! p;
  let h1 := <[p := {| CGPoint.x := CGPoint.x a + dx; CGPoint.y := CGPoint.y a |}]> h in
  a1 ← h1 !! p;
  Some (<[p := {| CGPoint.x := CGPoint.x a1; CGPoint.y := CGPoint.y a1 + dy |}]> h1).

(** [shift(offset)]: the start point, then the end point. *)
Definition shift (dx dy : JS.number) (this : CGLine) (h : CGPoint.store)
  : option (CGLine * CGPoint.store) :=
  h1 ← shift_point (start this) dx dy h;
  h2 ← shift_point (end_ this) dx dy h1;
  Some (this, h2).

End CGLine.

(* ===================================================================== *)
(** ** The platform: numbers to and from text                              *)
(* ===================================================================== *)

(** [Number.prototype.toString] (radix 10), [Number.prototype.toFixed],
    [parseFloat] and the exponent operator [10 ** n], each after its
    definition in ECMA-262.  Strings are sequences of 8-bit characters. *)
Module JSText.

Import JS.
Local Open Scope string_scope.

(** The decimal digits of a natural number. *)
Definition digits (n : N) : string := NilZero.string_of_uint (N.to_uint n).

Fixpoint zeros (k : nat) : string :=
  match k with
  | O => EmptyString
  | S k' => String "0" (zeros k')
  end.

(** The double nearest to [(-1)^s * d * 10^e] (ties to even). *)
Definition of_decimal (s : bool) (d : N) (e : Z) : number :=
  match d with
  | N0 => S754_zero s
  | Npos p =>
      if (0 <=? e)%Z
      then binary_round prec emax s (p * Z.to_pos (10 ^ e)) 0
      else SFdiv prec emax (S754_finite s p 0)
                            (S754_finite false (Z.to_pos (10 ^ (- e))) 0)
  end.

(** [10 ** n] for an integer [n]. *)
Definition pow10 (n : Z) : number := of_decimal false 1 n.

(** [Number.isInteger]. *)
Definition is_integer (d : number) : bool :=
  match d with
  | S754_zero _ => true
  | S754_finite _ m e => (0 <=? e)%Z || (Zpos m mod 2 ^ (- e) =? 0)%Z
  | _ => false
  end.

(** [10 ** d] (Number::exponentiate with the base 10): NaN for NaN, 1 for
    a zero, [+Infinity] for [+Infinity], [+0] for [-Infinity]; for a
    finite [d] that is not an integer the value is
    implementation-approximated, and [approx] is the engine's function. *)
Definition exponentiate10 (approx : number -> number) (d : number) : number :=
  match d with
  | S754_nan => NaN
  | S754_zero _ => of_Z 1
  | S754_infinity false => Infinity
  | S754_infinity true => S754_zero false
  | S754_finite _ _ _ => if is_integer d then pow10 (to_int d) else approx d
  end.

(** *** [Number::toString]

    A positive finite double is the rational [num / den].  [n] is its
    decimal exponent ([10^(n-1) <= num/den < 10^n]); for [k = 1, 2, ...]
    digits the two [k]-digit decimals around it are tried, and the first
    [k] for which one of them reads back as the double gives the digits
    (the closer one, the even one on a tie). *)
Definition lt_pow10 (num den n : Z) : bool :=
  if (0 <=? n)%Z then (num <? den * 10 ^ n)%Z else (num * 10 ^ (- n) <? den)%Z.

Fixpoint adjust_up (fuel : nat) (num den n : Z) : Z :=
  match fuel with
  | O => n
  | S f => if lt_pow10 num den n then n else adjust_up f num den (n + 1)
  end.

Fixpoint adjust_down (fuel : nat) (num den n : Z) : Z :=
  match fuel with
  | O => n
  | S f => if lt_pow10 num den (n - 1) then adjust_down f num den (n - 1) else n
  end.

Definition decimal_exponent (num den : Z) : Z :=
  let guess := ((Z.log2 num - Z.log2 den) * 30103 / 100000)%Z in
  adjust_down 8 num den (adjust_up 8 num den guess).

(** The [k]-digit candidates: [Some (s, n)] stands for [s * 10^(n-k)]. *)
Definition candidate (x : number) (num den n : Z) (k : Z) (force : bool)
  : option (Z * Z) :=
  let scale := (n - k)%Z in
  let unit_ := if (0 <=? scale)%Z then (den * 10 ^ scale)%Z else den in
  let scaled := if (0 <=? scale)%Z then num else (num * 10 ^ (- scale))%Z in
  let lo := (scaled / unit_)%Z in
  let hi := (lo + 1)%Z in
  let rest := (scaled - lo * unit_)%Z in
  let reads s := SFeqb (of_decimal false (Z.to_N s) scale) x in
  let lo_closer :=
    match (2 * rest ?= unit_)%Z with
    | Lt => true
    | Gt => false
    | Eq => Z.even lo
    end in
  let norm s := if (s =? 10 ^ k)%Z then (10 ^ (k - 1), n + 1)%Z else (s, n) in
  match reads lo, reads hi with
  | true, true => Some (norm (if lo_closer then lo else hi))
  | true, false => Some (norm lo)
  | false, true => Some (norm hi)
  | false, false => if force then Some (norm (if lo_closer then lo else hi)) else None
  end.

Fixpoint shortest (fuel : nat) (x : number) (num den n k : Z) : Z * Z * Z :=
  match fuel with
  | O => match candidate x num den n k true with
         | Some (s, n') => (s, n', k)
         | None => (0, n, k)%Z
         end
  | S f => match candidate x num den n k false with
           | Some (s, n') => (s, n', k)
           | None => shortest f x num den n (k + 1)
           end
  end.

Definition format_digits (ds : string) (k n : Z) : string :=
  if ((k <=? n) && (n <=? 21))%Z then
    ds ++ zeros (Z.to_nat (n - k))
  else if ((0 <? n) && (n <=? 21))%Z then
    substring 0 (Z.to_nat n) ds ++ "." ++ substring (Z.to_nat n) (Z.to_nat (k - n)) ds
  else if ((-6 <? n) && (n <=? 0))%Z then
    "0." ++ zeros (Z.to_nat (- n)) ++ ds
  else
    let e := (n - 1)%Z in
    let exponent := (if (e <? 0)%Z then "-" else "+") ++ digits (Z.abs_N e) in
    if (k =? 1)%Z then ds ++ "e" ++ exponent
    else substring 0 1 ds ++ "." ++ substring 1 (Z.to_nat (k - 1)) ds ++ "e" ++ exponent.

Definition toString_pos (m : positive) (e : Z) : string :=
  let num := if (0 <=? e)%Z then (Zpos m * 2 ^ e)%Z else Zpos m in
  let den := if (0 <=? e)%Z then 1%Z else (2 ^ (- e))%Z in
  let n := decimal_exponent num den in
  let '(s, n', k) := shortest 16 (S754_finite false m e) num den n 1 in
  format_digits (digits (Z.to_N s)) k n'.

Definition toString (x : number) : string :=
  match x with
  | S754_nan => "NaN"
  | S754_zero _ => "0"
  | S754_infinity false => "Infinity"
  | S754_infinity true => "-Infinity"
  | S754_finite false m e => toString_pos m e
  | S754_finite true m e => "-" ++ toString_pos m e
  end.

(** *** [Number.prototype.toFixed(f)] for [0 <= f <= 100] (outside that
    interval the method throws a RangeError, which is the caller's to
    model). *)
Definition fixed_digits (n : Z) (f : Z) : string :=
  let ds := digits (Z.to_N n) in
  if (f =? 0)%Z then ds
  else
    let k := String.length ds in
    let ds := if (Z.of_nat k <=? f)%Z then zeros (Z.to_nat (f + 1) - k) ++ ds else ds in
    let k := String.length ds in
    substring 0 (k - Z.to_nat f) ds ++ "." ++ substring (k - Z.to_nat f) (Z.to_nat f) ds.

(** The integer [n] for which [n / 10^f] is closest to [m * 2^e], the
    larger one on a tie. *)
Definition fixed_integer (m : positive) (e : Z) (f : Z) : Z :=
  let num := if (0 <=? e)%Z then (Zpos m * 2 ^ e)%Z else Zpos m in
  let den := if (0 <=? e)%Z then 1%Z else (2 ^ (- e))%Z in
  ((2 * num * 10 ^ f + den) / (2 * den))%Z.

Definition toFixed (x : number) (f : Z) : string :=
  match x with
  | S754_finite s m e =>
      if SFleb (pow10 21) (S754_finite false m e) then toString x
      else (if s then "-" else "") ++ fixed_digits (fixed_integer m e f) f
  | S754_zero _ => fixed_digits 0 f
  | _ => toString x
  end.

(** *** [parseFloat] *)
Definition is_digit (c : ascii) : bool :=
  let n := nat_of_ascii c in (48 <=? n)%nat && (n <=? 57)%nat.

Definition digit_value (c : ascii) : N := N.of_nat (nat_of_ascii c - 48).

Definition is_space (c : ascii) : bool :=
  let n := nat_of_ascii c in
  ((9 <=? n)%nat && (n <=? 13)%nat) || (n =? 32)%nat.

Fixpoint trim_start (s : string) : string :=
  match s with
  | String c rest => if is_space c then trim_start rest else s
  | EmptyString => s
  end.

(** Reads a run of digits: its value, its length and what follows. *)
Fixpoint read_digits (s : string) (acc : N) (len : nat) : N * nat * string :=
  match s with
  | String c rest =>
      if is_digit c then read_digits rest (acc * 10 + digit_value c)%N (S len)
      else (acc, len, s)
  | EmptyString => (acc, len, s)
  end.

Definition read_sign (s : string) : bool * string :=
  match s with
  | String "-" rest => (true, rest)
  | String "+" rest => (false, rest)
  | _ => (false, s)
  end.

Definition read_exponent (s : string) : Z :=
  match s with
  | String c rest =>
      if (Ascii.eqb c "e" || Ascii.eqb c "E")%bool then
        let '(neg, rest') := read_sign rest in
        let '(v, len, _) := read_digits rest' 0%N 0%nat in
        match len with
        | O => 0%Z
        | _ => if neg then (- Z.of_N v)%Z else Z.of_N v
        end
      else 0%Z
  | EmptyString => 0%Z
  end.

Definition parseFloat (input : string) : number :=
  let '(neg, s) := read_sign (trim_start input) in
  if String.prefix "Infinity" s then S754_infinity neg
  else
    let '(int_part, int_len, s1) := read_digits s 0%N 0%nat in
    let '(mantissa, frac_len, s2) :=
      match s1 with
      | String "." rest =>
          let '(v, len, rest') := read_digits rest int_part 0%nat in
          match int_len, len with
          | O, O => (0%N, 0%nat, s1)
          | _, _ => (v, len, rest')
          end
      | _ => (int_part, 0%nat, s1)
      end in
    match int_len, frac_len with
    | O, O => NaN
    | _, _ => of_decimal neg mantissa (read_exponent s2 - Z.of_nat frac_len)
    end.

(** [str.replace(/[^\w.-]+/g, EMPTY)]: every character that is not a word
    character, a dot or a hyphen is dropped. *)
Definition is_word (c : ascii) : bool :=
  let n := nat_of_ascii c in
  (((48 <=? n) && (n <=? 57)) || ((65 <=? n) && (n <=? 90))
   || ((97 <=? n) && (n <=? 122)) || (n =? 95))%nat.

Fixpoint strip (s : string) : string :=
  match s with
  | String c rest =>
      if (is_word c || Ascii.eqb c "." || Ascii.eqb c "-")%bool
      then String c (strip rest) else strip rest
  | EmptyString => EmptyString
  end.

End JSText.

(* ===================================================================== *)
(** ** [CFNumericRange] (packages/cf-numeric-range/src/index.ts)           *)
(* ===================================================================== *)

Module CFNumericRange.

Import JS.

(** [value: string | number]. *)
Inductive value_t : Type :=
  | Num (n : number)
  | Str (s : string).

(** [precision?: number] is the exponent of [10 ** precision] and the
    argument of [Number.prototype.toFixed]. *)
Record CFNumericRangeOptions : Type := mkOptions {
  o_min : option number;
  o_max : option number;
  o_precision : option number;
  o_step : option number;
  o_value : option value_t
}.

Record CFNumericRange : Type := mk {
  options : CFNumericRangeOptions;
  min : number;
  max : number;
  precision : option number;
  step : number;
  stepPrecision : number;
  value : value_t
}.

Inductive error : Type :=
  | RangeError (message : string).

(** What a call does: it returns, it throws, or it is still running when
    the fuel of its loops is spent. *)
Inductive outcome (A : Type) : Type :=
  | Returns (a : A)
  | Throws (e : error)
  | Unfinished.
Arguments Returns {A} a.
Arguments Throws {A} e.
Arguments Unfinished {A}.

(** [isNumeric(value)] on a number: the first disjunct,
    [typeof value === "number"], holds. *)
Definition isNumeric (v : number) : bool :=
  true || negb (isNaN v) || isFinite v.

(** [countDecimals(value)]: the [while] loop, one round per unit of fuel. *)
Fixpoint countDecimals_loop (fuel : nat) (v e p : number) : option number :=
  match fuel with
  | O => None
  | S fuel' =>
      if Math_round (v * e) / e !== v
      then countDecimals_loop fuel' v (e * #10) (p + #1)
      else Some p
  end.

Definition countDecimals (fuel : nat) (v : number) : option number :=
  if negb (isNumeric v) then Some #0
  else countDecimals_loop fuel v #1 #0.

(** [new CFNumericRange(options)]. *)
Definition constructor (fuel : nat) (opts : CFNumericRangeOptions)
  : outcome CFNumericRange :=
  let min_ := default #0 (o_min opts) in
  let max_ := default #100 (o_max opts) in
  let precision_ := o_precision opts in
  let step_ := default #1 (o_step opts) in
  let value_ := default (Num #0) (o_value opts) in
  if max_ < min_ then
    Throws (RangeError "clamp: max cannot be less than min")
  else
    match countDecimals fuel step_ with
    | Some p =>
        Returns {| options := opts; min := min_; max := max_;
                   precision := precision_; step := step_;
                   stepPrecision := p; value := value_ |}
    | None => Unfinished
    end.

(** [static parse] and [valueOf]. *)
Definition to_text (v : value_t) : string :=
  match v with
  | Num n => JSText.toString n
  | Str s => s
  end.

Definition parse (v : value_t) : number :=
  JSText.parseFloat (JSText.strip (to_text v)).

Definition valueOf (this : CFNumericRange) : number := parse (value this).

(** [x.toFixed(fractionDigits)] (Number.prototype.toFixed): the digits
    are [f = ToIntegerOrInfinity(fractionDigits)], that is 0 for NaN and
    the integer part towards zero for a finite number; the method throws a
    RangeError when [f] is infinite, below 0 or above 100. *)
Definition Number_toFixed (x : number) (fractionDigits : number) : outcome string :=
  match fractionDigits with
  | S754_infinity _ =>
      Throws (RangeError "toFixed() digits argument must be between 0 and 100")
  | _ =>
      let f := to_int fractionDigits in
      if ((f <? 0) || (100 <? f))%Z
      then Throws (RangeError "toFixed() digits argument must be between 0 and 100")
      else Returns (JSText.toFixed x f)
  end.

(** The module's own [toFixed(value, decimals?)].  [decimals ?? 10] is 10
    only for [undefined]; [decimals ? ... : ...] takes the second branch
    for [undefined], NaN and the zeros.  [approx] is the engine's
    [10 ** d] on the finite numbers [d] that are not integers. *)
Definition toFixed (approx : number -> number) (v : number)
    (decimals : option number) : outcome string :=
  let v := JSText.parseFloat (JSText.toString v) in
  let v := if isNumeric v then v else #0 in
  let scaleFactor := JSText.exponentiate10 approx (default #10 decimals) in
  let nextValue := Math_round (v * scaleFactor) / scaleFactor in
  match decimals with
  | Some d =>
      if truthy d then Number_toFixed nextValue d
      else Returns (JSText.toString nextValue)
  | None => Returns (JSText.toString nextValue)
  end.

Definition setValue (v : value_t) (this : CFNumericRange) : CFNumericRange :=
  {| options := options this; min := min this; max := max this;
     precision := precision this; step := step this;
     stepPrecision := stepPrecision this; value := v |}.

(** The number [clamp] computes before formatting it. *)
Definition clipped (this : CFNumericRange) : number :=
  Math_min (Math_max (valueOf this) (min this)) (max this).

(** [clamp()]; [approx] is the engine's [10 ** d] on the finite numbers
    [d] that are not integers. *)
Definition clamp (approx : number -> number) (this : CFNumericRange)
  : outcome CFNumericRange :=
  let v := valueOf this in
  let v := Math_min (Math_max v (min this)) (max this) in
  match toFixed approx v (precision this) with
  | Returns s => Returns (setValue (Str s) this)
  | Throws e => Throws e
  | Unfinished => Unfinished
  end.

(** [increment(step = this.step)]. *)
Definition increment (step_ : option number) (this : CFNumericRange) : CFNumericRange :=
  let s := default (step this) step_ in
  match value this with
  | Str EmptyString => setValue (Num (parse (Num s))) this
  | _ => setValue (Num (valueOf this + s)) this
  end.

(** [decrement(step = this.step)]. *)
Definition decrement (step_ : option number) (this : CFNumericRange) : CFNumericRange :=
  let s := default (step this) step_ in
  match value this with
  | Str EmptyString => setValue (Num (parse (Num (- s)))) this
  | _ => setValue (Num (valueOf this - s)) this
  end.

Definition setStep (step_ : number) (this : CFNumericRange) : CFNumericRange :=
  {| options := options this; min := min this; max := max this;
     precision := precision this; step := step_;
     stepPrecision := stepPrecision this; value := value this |}.

Definition setToMin (this : CFNumericRange) : CFNumericRange :=
  setValue (Str (JSText.toString (min this))) this.

Definition setToMax (this : CFNumericRange) : CFNumericRange :=
  setValue (Str (JSText.toString (max this))) this.

(** [reset()]: the five fields are assigned again from the options the
    instance was constructed with. *)
Definition reset (this : CFNumericRange) : CFNumericRange :=
  let opts := options this in
  {| options := opts;
     min := default #0 (o_min opts);
     max := default #100 (o_max opts);
     precision := o_precision opts;
     step := default #1 (o_step opts);
     stepPrecision := stepPrecision this;
     value := default (Num #0) (o_value opts) |}.

(** The getter [isInRange]. *)
Definition isInRange (this : CFNumericRange) : bool :=
  match value this with
  | Str EmptyString => true
  | _ =>
      let num := valueOf this in
      (num <= max this) && (num >= min this)
  end.

(** [fromTuple]. *)
Definition fromTuple (fuel : nat) (tuple : number * number)
  : outcome CFNumericRange :=
  let '(min_, max_) := tuple in
  constructor fuel {| o_min := Some min_; o_max := Some max_;
                      o_precision := None; o_step := None; o_value := None |}.

(** [transform(inputTuple, outputTuple)]: the two ranges are constructed
    first; the result is the mapping function. *)
Definition transform (fuel : nat) (inputTuple outputTuple : number * number)
  : outcome (number -> number) :=
  match fromTuple fuel inputTuple with
  | Returns input =>
      match fromTuple fuel outputTuple with
      | Returns output =>
          Returns (fun value_ =>
            if (min input === max input) || (min output === max output)
            then min output
            else
              let ratio := (max output - min output) / (max input - min input) in
              min output + ratio * (value_ - min input))
      | Throws e => Throws e
      | Unfinished => Unfinished
      end
  | Throws e => Throws e
  | Unfinished => Unfinished
  end.

(** A key of the object literal passed as [Partial<CFNumericRangeOptions>]:
    the object has no such own key, or the key holds [undefined], or it
    holds a value. *)
Inductive key (A : Type) : Type :=
  | no_key
  | holds_undefined
  | holds (a : A).
Arguments no_key {A}.
Arguments holds_undefined {A}.
Arguments holds {A} a.

Record PartialOptions : Type := mkPartial {
  k_min : key number;
  k_max : key number;
  k_precision : key number;
  k_step : key number;
  k_value : key value_t
}.

(** One key of [{ ...a, ...b }]: every own key of [b] is copied over that
    of [a], also one that holds [undefined]; reading [undefined] is
    [None], whether the key is missing or holds it. *)
Definition spread_key {A : Type} (a : option A) (b : key A) : option A :=
  match b with
  | no_key => a
  | holds_undefined => None
  | holds v => Some v
  end.

Definition spread_options (a : CFNumericRangeOptions) (b : PartialOptions)
  : CFNumericRangeOptions :=
  {| o_min := spread_key (o_min a) (k_min b);
     o_max := spread_key (o_max a) (k_max b);
     o_precision := spread_key (o_precision a) (k_precision b);
     o_step := spread_key (o_step a) (k_step b);
     o_value := spread_key (o_value a) (k_value b) |}.

(** [withOptions(options)]. *)
Definition withOptions (fuel : nat) (options_ : PartialOptions)
    (this : CFNumericRange) : outcome CFNumericRange :=
  constructor fuel (spread_options (options this) options_).

(** [fromValues({ values, min, max })]: the first [map] builds the triples
    [[values[i - 1] ?? min, values[i + 1] ?? max, value]], the second one
    constructs the ranges in order and stops at the first constructor that
    does not return. *)
Definition fromValues_triples (values : list number) (min_ max_ : number)
  : list (number * number * number) :=
  imap (fun i value_ =>
          (match i with
           | O => min_
           | S j => default min_ (values !! j)
           end,
           default max_ (values !! S i),
           value_))
       values.

Fixpoint construct_all (fuel : nat) (triples : list (number * number * number))
  : outcome (list CFNumericRange) :=
  match triples with
  | [] => Returns []
  | (min_, max_, value_) :: rest =>
      match constructor fuel {| o_min := Some min_; o_max := Some max_;
                                o_precision := None; o_step := None;
                                o_value := Some (Num value_) |} with
      | Returns r =>
          match construct_all fuel rest with
          | Returns rs => Returns (r :: rs)
          | Throws e => Throws e
          | Unfinished => Unfinished
          end
      | Throws e => Throws e
      | Unfinished => Unfinished
      end
  end.

Definition fromValues (fuel : nat) (values : list number) (min_ max_ : number)
  : outcome (list CFNumericRange) :=
  construct_all fuel (fromValues_triples values min_ max_).

(** *** The iterator

    [*[Symbol.iterator]()] returns a new generator object on every call;
    the generator owns its local [current], and [next()] runs the body up
    to the following [yield] or to the end. *)
Inductive generator : Type :=
  | Start
  | Suspended (current : number)
  | Completed.

Definition Symbol_iterator (this : CFNumericRange) : generator := Start.

(** [next()]: the value yielded ([None] once the generator is done) and
    the generator's new state. *)
Definition next (this : CFNumericRange) (g : generator) : option number * generator :=
  match g with
  | Start =>
      let current := min this in
      if current <= max this then (Some current, Suspended current)
      else (None, Completed)
  | Suspended current =>
      let current := current + step this in
      if current <= max this then (Some current, Suspended current)
      else (None, Completed)
  | Completed => (None, Completed)
  end.

(** [[...range]]: calls [next()] until the generator is done; [None] when
    [fuel] calls did not reach the end. *)
Fixpoint drain (fuel : nat) (this : CFNumericRange) (g : generator)
  : option (list number) :=
  match fuel with
  | O => None
  | S fuel' =>
      match next this g with
      | (Some v, g') =>
          match drain fuel' this g' with
          | Some rest => Some (v :: rest)
          | None => None
          end
      | (None, _) => Some []
      end
  end.

Definition spread (fuel : nat) (this : CFNumericRange) : option (list number) :=
  drain fuel this (Symbol_iterator this).

(** The [k]-th value of the loop variable [current]. *)
Fixpoint current_at (this : CFNumericRange) (k : nat) : number :=
  match k with
  | O => min this
  | S k' => current_at this k' + step this
  end.

End CFNumericRange.

(* ===================================================================== *)
(** ** The assertions on numbers (packages/js-assertion/src/number.ts)     *)
(* ===================================================================== *)

Module Assertion.

Import JS.

(** A value of type [unknown], as far as the assertions look at it: a
    number, a string, or a value of another type ([undefined], [null], a
    boolean, an object, ...). *)
Inductive unknown : Type :=
  | a_number (n : number)
  | a_string (s : string)
  | another.

(** [Number.isNaN] and [Number.isFinite] are [false] of everything that is
    not a number. *)
Definition Number_isNaN (value : unknown) : bool :=
  match value with a_number n => isNaN n | _ => false end.

Definition Number_isFinite (value : unknown) : bool :=
  match value with a_number n => isFinite n | _ => false end.

Definition isNumber (value : unknown) : bool :=
  match value with a_number _ => true | _ => false end.

Definition isNumeric (value : unknown) : bool :=
  isNumber value || negb (Number_isNaN value) || Number_isFinite value.

End Assertion.

(* ===================================================================== *)
(** * Properties                                                           *)
(* ===================================================================== *)

(** Closed statements about concrete inputs are settled by evaluating the
    definitions. *)
Ltac by_evaluation :=
  intros;
  repeat (match goal with |- _ /\ _ => split end);
  vm_compute; reflexivity.

(** ** Facts about numbers *)

Module JSFacts.

Import JS.

(** Swapping the operands of a comparison mirrors its result; a comparison
    with NaN has none. *)
Lemma compare_swap (a b : number) :
  SFcompare b a = option_map CompOpp (SFcompare a b).
Proof.
  destruct a as [sa|sa| |sa ma ea], b as [sb|sb| |sb mb eb]; simpl;
    try reflexivity; try (destruct sa; reflexivity); try (destruct sb; reflexivity);
    try (destruct sa, sb; reflexivity).
  destruct sa, sb; simpl; try reflexivity;
    rewrite (Z.compare_antisym ea eb); destruct (ea ?= eb)%Z eqn:E; simpl;
    try reflexivity;
    rewrite !Pos.compare_cont_spec, (Pos.compare_antisym ma mb);
    destruct (ma ?= mb)%positive; reflexivity.
Qed.

Lemma compare_refl (a : number) :
  isNaN a = false -> SFcompare a a = Some Eq.
Proof.
  destruct a as [s|s| |s m e]; simpl; try discriminate; intros _;
    try (destruct s; reflexivity).
  destruct s; rewrite Z.compare_refl, Pos.compare_cont_refl; reflexivity.
Qed.

Lemma le_refl (a : number) : isNaN a = false -> (a <= a) = true.
Proof. intros H. unfold le, SFleb. now rewrite compare_refl. Qed.

Lemma lt_le (a b : number) : (a < b) = true -> (a <= b) = true.
Proof. unfold lt, le, SFltb, SFleb. destruct (SFcompare a b) as [[]|]; easy. Qed.

(** [a <= b] and [b < a] exclude each other. *)
Lemma le_not_gt (a b : number) : (a <= b) = true -> (b < a) = false.
Proof.
  unfold lt, le, SFltb, SFleb. rewrite (compare_swap a b).
  destruct (SFcompare a b) as [[]|]; easy.
Qed.

Lemma le_not_nan (a b : number) :
  (a <= b) = true -> isNaN a = false /\ isNaN b = false.
Proof.
  unfold le, SFleb.
  destruct a as [?|?| |? ? ?], b as [?|?| |? ? ?]; simpl; try discriminate; auto.
Qed.

(** On numbers that are not NaN the order is total. *)
Lemma not_lt_ge (a b : number) :
  isNaN a = false -> isNaN b = false -> (a < b) = false -> (b <= a) = true.
Proof.
  unfold lt, le, SFltb, SFleb. intros Ha Hb. rewrite (compare_swap a b).
  destruct a as [?|?| |? ? ?], b as [?|?| |? ? ?]; try discriminate;
    destruct (SFcompare _ _) as [[]|] eqn:E; simpl; try easy;
    simpl in E; discriminate.
Qed.

(** Every comparison with NaN is false. *)
Lemma lt_nan_l (b : number) : (NaN < b) = false.
Proof. reflexivity. Qed.

Lemma lt_nan_r (a : number) : (a < NaN) = false.
Proof. unfold lt, SFltb. now destruct a. Qed.

Lemma gt_nan_l (b : number) : (NaN > b) = false.
Proof. apply lt_nan_r. Qed.

(** [a + (-b)] is [a - b], bit for bit. *)
Lemma add_neg (a b : number) : a + - b = a - b.
Proof.
  destruct a as [sa|sa| |sa ma ea], b as [sb|sb| |sb mb eb]; simpl;
    try reflexivity; destruct sa, sb; reflexivity.
Qed.

(** [Math.max] and [Math.min] return one of their arguments, and bound
    them, when neither is NaN. *)
Lemma Math_max_ge_r (a b : number) :
  isNaN a = false -> isNaN b = false -> (b <= Math_max a b) = true.
Proof.
  intros Ha Hb. unfold Math_max. rewrite Ha, Hb. simpl.
  destruct (a < b) eqn:E1; [now apply le_refl|].
  destruct (b < a) eqn:E2; [now apply lt_le|].
  destruct a as [[]| | |]; try (now apply le_refl); now apply not_lt_ge.
Qed.

Lemma Math_max_not_nan (a b : number) :
  isNaN a = false -> isNaN b = false -> isNaN (Math_max a b) = false.
Proof.
  intros Ha Hb. unfold Math_max. rewrite Ha, Hb. simpl.
  destruct (a < b); [assumption|]. destruct (b < a); [assumption|].
  destruct a as [[]| | |]; assumption.
Qed.

Lemma Math_min_le_r (a b : number) :
  isNaN a = false -> isNaN b = false -> (Math_min a b <= b) = true.
Proof.
  intros Ha Hb. unfold Math_min. rewrite Ha, Hb. simpl.
  destruct (a < b) eqn:E1; [now apply lt_le|].
  destruct (b < a) eqn:E2; [now apply le_refl|].
  destruct a as [[]| | |]; try (now apply le_refl); now apply not_lt_ge.
Qed.

Lemma Math_min_ge (lo a b : number) :
  isNaN a = false -> isNaN b = false ->
  (lo <= a) = true -> (lo <= b) = true -> (lo <= Math_min a b) = true.
Proof.
  intros Ha Hb La Lb. unfold Math_min. rewrite Ha, Hb. simpl.
  destruct (a < b); [assumption|]. destruct (b < a); [assumption|].
  destruct a as [[]| | |]; assumption.
Qed.

End JSFacts.


(** ** Integers among the doubles

    Every integer of magnitude below 2^53 is a double, sums and differences
    of such integers are computed exactly, and [Math.round] returns such an
    integer unchanged. *)

Module DoubleFacts.

Import JS.
Local Open Scope Z_scope.

(** *** Binary digits

    [digits2_pos p] is the number of binary digits of [p]. *)
Lemma digits_bounds (p : positive) :
  2 ^ (Zpos (digits2_pos p) - 1) <= Zpos p < 2 ^ Zpos (digits2_pos p).
Proof.
  induction p as [p IH|p IH|]; simpl digits2_pos.
  - rewrite Pos2Z.inj_succ.
    replace (Z.succ (Zpos (digits2_pos p)) - 1)
      with (Z.succ (Zpos (digits2_pos p) - 1)) by lia.
    rewrite !Z.pow_succ_r by lia. lia.
  - rewrite Pos2Z.inj_succ.
    replace (Z.succ (Zpos (digits2_pos p)) - 1)
      with (Z.succ (Zpos (digits2_pos p) - 1)) by lia.
    rewrite !Z.pow_succ_r by lia. lia.
  - simpl. lia.
Qed.

Lemma digits_unique (p : positive) (k : Z) :
  2 ^ (k - 1) <= Zpos p < 2 ^ k -> Zpos (digits2_pos p) = k.
Proof.
  intros [Hlo Hhi]. pose proof (digits_bounds p) as [Dlo Dhi].
  assert (Hk : 0 < k).
  { destruct (Z_lt_le_dec 0 k) as [|Hk]; [assumption|].
    assert (2 ^ k <= 2 ^ 0).
    { destruct (Z_lt_le_dec k 0).
      - rewrite Z.pow_neg_r by lia. simpl. lia.
      - apply Z.pow_le_mono_r; lia. }
    simpl in *. lia. }
  destruct (Z_lt_le_dec (Zpos (digits2_pos p)) k) as [Hlt|Hge].
  - assert (2 ^ Zpos (digits2_pos p) <= 2 ^ (k - 1)) by (apply Z.pow_le_mono_r; lia).
    lia.
  - destruct (Z_lt_le_dec k (Zpos (digits2_pos p))) as [Hlt|Hle]; [|lia].
    assert (2 ^ k <= 2 ^ (Zpos (digits2_pos p) - 1)) by (apply Z.pow_le_mono_r; lia).
    lia.
Qed.

Lemma digits_le_53 (n : positive) :
  Zpos n < 2 ^ 53 -> Zpos (digits2_pos n) <= 53.
Proof.
  intros Hn. pose proof (digits_bounds n) as [Dlo Dhi].
  destruct (Z_lt_le_dec 53 (Zpos (digits2_pos n))) as [H|H]; [|assumption].
  assert (2 ^ 53 <= 2 ^ (Zpos (digits2_pos n) - 1)) by (apply Z.pow_le_mono_r; lia).
  lia.
Qed.

(** Shifting a mantissa left by [d] bits multiplies it by [2^d] and adds
    [d] digits. *)
Lemma iter_xO (d m : positive) : Zpos (Pos.iter xO m d) = Zpos m * 2 ^ Zpos d.
Proof.
  induction d as [|d IH] using Pos.peano_ind.
  - simpl. lia.
  - rewrite Pos.iter_succ, Pos2Z.inj_succ, Z.pow_succ_r by lia.
    rewrite Pos2Z.inj_xO, IH. lia.
Qed.

Lemma digits_shift (m : positive) (n : Z) (q : positive) :
  0 <= n -> Zpos q = Zpos m * 2 ^ n ->
  Zpos (digits2_pos q) = Zpos (digits2_pos m) + n.
Proof.
  intros Hn Hq. apply digits_unique. pose proof (digits_bounds m) as [Dlo Dhi].
  rewrite Hq. replace (Zpos (digits2_pos m) + n - 1) with ((Zpos (digits2_pos m) - 1) + n) by lia.
  rewrite !Z.pow_add_r by lia.
  assert (0 < 2 ^ n) by (apply Z.pow_pos_nonneg; lia).
  split; nia.
Qed.

(** Shifting right by [n] bits a mantissa that ends in [n] zero bits loses
    nothing: no round bit, no sticky bit. *)
Lemma iter_pos_eq {A} (f : A -> A) (p : positive) (x : A) :
  SpecFloat.iter_pos f p x = Pos.iter f x p.
Proof.
  revert x. induction p as [p IH|p IH|]; intros x; simpl.
  - rewrite !IH. rewrite 2!Pos.iter_swap. reflexivity.
  - now rewrite !IH.
  - reflexivity.
Qed.

Lemma shr_exact (n : positive) (m : positive) :
  SpecFloat.iter_pos shr_1 n (Build_shr_record (Zpos m * 2 ^ Zpos n) false false)
  = Build_shr_record (Zpos m) false false.
Proof.
  rewrite iter_pos_eq. revert m.
  induction n as [|n IH] using Pos.peano_ind; intros m.
  - change (2 ^ 1) with 2. replace (Zpos m * 2) with (Zpos m~0) by lia. reflexivity.
  - rewrite Pos.iter_succ, Pos2Z.inj_succ, Z.pow_succ_r by lia.
    replace (Zpos m * (2 * 2 ^ Zpos n)) with (Zpos m~0 * 2 ^ Zpos n) by lia.
    rewrite IH. reflexivity.
Qed.

(** *** Rounding a representable value

    The exponent of the double with [z] digits before the binary point. *)
Definition fexp64 (z : Z) : Z := Z.max (z - 53) (-1074).

Lemma fexp_eq (z : Z) : fexp prec emax z = fexp64 z.
Proof. reflexivity. Qed.

(** A mantissa and exponent that already are in canonical position come
    out of the rounding unchanged. *)
Lemma round_aux_canonical (s : bool) (m : positive) (e : Z) :
  fexp64 (Zpos (digits2_pos m) + e) = e -> e <= 971 ->
  binary_round_aux prec emax s (Zpos m) e loc_Exact = S754_finite s m e.
Proof.
  intros Hc He. unfold binary_round_aux, shr_fexp. simpl Zdigits2.
  rewrite fexp_eq, Hc, Z.sub_diag. simpl.
  rewrite fexp_eq, Hc, Z.sub_diag. simpl.
  change (emax - prec) with 971.
  destruct (e <=? 971) eqn:E; [reflexivity|]. apply Z.leb_gt in E. lia.
Qed.

(** [binary_round] on a mantissa with too few digits: it is shifted left
    into canonical position. *)
Lemma round_left (s : bool) (m : positive) (e e' : Z) (q : positive) :
  fexp64 (Zpos (digits2_pos m) + e) = e' ->
  e' <= e -> e' <= 971 -> Zpos q = Zpos m * 2 ^ (e - e') ->
  binary_round prec emax s m e = S754_finite s q e'.
Proof.
  intros He' Hle Hmax Hq. unfold binary_round, shl_align. rewrite fexp_eq, He'.
  destruct (e' - e) as [|d|d] eqn:Ed; try lia.
  - assert (Hee : e' = e) by lia.
    assert (Hqm : Zpos q = Zpos m).
    { rewrite Hq. replace (e - e') with 0 by lia. simpl. lia. }
    injection Hqm as ->. rewrite Hee in *.
    apply round_aux_canonical; assumption.
  - assert (Hd : e - e' = Zpos d) by lia. rewrite Hd in Hq.
    rewrite <- iter_xO in Hq. injection Hq as ->.
    apply round_aux_canonical; [|assumption].
    rewrite (digits_shift m (Zpos d) (Pos.iter xO m d)) by (try lia; apply iter_xO).
    replace (Zpos (digits2_pos m) + Zpos d + e') with (Zpos (digits2_pos m) + e) by lia.
    assumption.
Qed.

(** [binary_round] on a mantissa with too many digits, the excess ones all
    zero: it is shifted right into canonical position, exactly. *)
Lemma round_right (s : bool) (m : positive) (e e' : Z) (q : positive) :
  fexp64 (Zpos (digits2_pos m) + e) = e' ->
  e < e' -> e' <= 971 -> Zpos m = Zpos q * 2 ^ (e' - e) ->
  binary_round prec emax s m e = S754_finite s q e'.
Proof.
  intros He' Hlt Hmax Hq. unfold binary_round, shl_align. rewrite fexp_eq, He'.
  destruct (e' - e) as [|d|d] eqn:Ed; try lia.
  unfold binary_round_aux, shr_fexp. simpl Zdigits2. rewrite fexp_eq, He'.
  rewrite Ed. unfold shr, shr_record_of_loc.
  rewrite Hq, shr_exact.
  cbn [shr_m loc_of_shr_record round_nearest_even Zdigits2].
  assert (Hdig : Zpos (digits2_pos m) = Zpos (digits2_pos q) + Zpos d).
  { apply (digits_shift q (Zpos d) m); lia. }
  replace (fexp prec emax (Zpos (digits2_pos q) + (e + Zpos d))) with e'
    by (rewrite fexp_eq, <- He'; f_equal; lia).
  replace (e' - (e + Z.pos d)) with 0 by lia.
  cbn [shr shr_m].
  change (emax - prec) with 971.
  destruct (e + Z.pos d <=? 971) eqn:E.
  - f_equal. lia.
  - apply Z.leb_gt in E. lia.
Qed.

(** *** Integers and [Math.round]

    The double of a positive integer below 2^53, explicitly. *)
Lemma int_double_canonical (s : bool) (n : positive) :
  Zpos n < 2 ^ 53 ->
  exists q : positive,
    Zpos q = Zpos n * 2 ^ (53 - Zpos (digits2_pos n))
    /\ binary_round prec emax s n 0 = S754_finite s q (Zpos (digits2_pos n) - 53).
Proof.
  intros Hn. pose proof (digits_bounds n) as [Dlo Dhi].
  pose proof (digits_le_53 n Hn) as Hd.
  assert (Hpos : 0 < Zpos n * 2 ^ (53 - Zpos (digits2_pos n))).
  { apply Z.mul_pos_pos; [lia|]. apply Z.pow_pos_nonneg; lia. }
  exists (Z.to_pos (Zpos n * 2 ^ (53 - Zpos (digits2_pos n)))).
  assert (Hq : Zpos (Z.to_pos (Zpos n * 2 ^ (53 - Zpos (digits2_pos n))))
               = Zpos n * 2 ^ (53 - Zpos (digits2_pos n))) by (apply Z2Pos.id; exact Hpos).
  split; [exact Hq|].
  apply round_left.
  - unfold fexp64. lia.
  - lia.
  - lia.
  - rewrite Hq. f_equal. f_equal. lia.
Qed.

(** A double [m * 2^e] with [e < 0] has a mantissa below 2^53. *)
Lemma valid_mantissa (m : positive) (e : Z) :
  bounded prec emax m e = true -> Zpos (digits2_pos m) <= 53.
Proof.
  unfold bounded, canonical_mantissa. rewrite fexp_eq. unfold fexp64.
  intros H. apply andb_true_iff in H as [H _]. apply Z.eqb_eq in H. lia.
Qed.

(** The magnitude [Math.round] computes is at most the mantissa. *)
Lemma round_magnitude_bounds (s : bool) (m k : positive) :
  0 <= round_magnitude s m k <= Zpos m.
Proof.
  assert (Hk : 2 ^ Zpos k = 2 * 2 ^ (Zpos k - 1)).
  { rewrite <- Z.pow_succ_r by lia. f_equal. lia. }
  assert (Hp : 0 < 2 ^ (Zpos k - 1)) by (apply Z.pow_pos_nonneg; lia).
  unfold round_magnitude. destruct s; split.
  - apply Z.div_pos; lia.
  - apply Z.div_le_upper_bound; [lia|]. nia.
  - apply Z.div_pos; lia.
  - apply Z.div_le_upper_bound; [lia|]. nia.
Qed.

(** On an integer it is that integer. *)
Lemma round_magnitude_int (s : bool) (p q j : positive) :
  Zpos q = Zpos p * 2 ^ Zpos j -> round_magnitude s q j = Zpos p.
Proof.
  intros Hq.
  assert (Hk : 2 ^ Zpos j = 2 * 2 ^ (Zpos j - 1)).
  { rewrite <- Z.pow_succ_r by lia. f_equal. lia. }
  assert (Hp : 0 < 2 ^ (Zpos j - 1)) by (apply Z.pow_pos_nonneg; lia).
  unfold round_magnitude. rewrite Hq.
  destruct s.
  - replace (Zpos p * 2 ^ Zpos j + 2 ^ (Zpos j - 1) - 1)
      with (Zpos p * 2 ^ Zpos j + (2 ^ (Zpos j - 1) - 1)) by lia.
    rewrite Z.div_add_l by lia. rewrite Z.div_small by lia. lia.
  - rewrite Z.div_add_l by lia. rewrite Z.div_small by lia. lia.
Qed.

(** [Math.round] leaves the double of an integer below 2^53 alone. *)
Lemma Math_round_int (s : bool) (n : positive) :
  Zpos n < 2 ^ 53 ->
  Math_round (binary_round prec emax s n 0) = binary_round prec emax s n 0.
Proof.
  intros Hn. destruct (int_double_canonical s n Hn) as [q [Hq Hr]].
  rewrite Hr. destruct (Zpos (digits2_pos n) - 53) as [|j|j] eqn:Ej; try reflexivity.
  unfold Math_round.
  rewrite (round_magnitude_int s n q j) by (rewrite Hq; f_equal; f_equal; lia).
  exact Hr.
Qed.

(** [Math.round] is idempotent on doubles. *)
Lemma Math_round_idempotent (x : number) :
  is_double x = true -> Math_round (Math_round x) = Math_round x.
Proof.
  destruct x as [s|s| |s m [|e|k]]; try reflexivity.
  intros Hv. unfold is_double, valid_binary in Hv.
  pose proof (valid_mantissa _ _ Hv) as Hd.
  pose proof (digits_bounds m) as [_ Dhi].
  assert (Hm : Zpos m < 2 ^ 53).
  { assert (2 ^ Zpos (digits2_pos m) <= 2 ^ 53) by (apply Z.pow_le_mono_r; lia). lia. }
  pose proof (round_magnitude_bounds s m k) as [Hlo Hhi].
  unfold Math_round at 2. unfold Math_round at 2.
  destruct (round_magnitude s m k) as [|q|q] eqn:Eq; try reflexivity.
  apply Math_round_int. lia.
Qed.

(** *** Exact sums and differences

    An integer below 2^53 given with a scaled mantissa rounds to its
    double. *)
Lemma round_scaled (s : bool) (n mm : positive) (J : Z) :
  0 <= J -> Zpos n < 2 ^ 53 -> Zpos mm = Zpos n * 2 ^ J ->
  binary_round prec emax s mm (- J) = binary_round prec emax s n 0.
Proof.
  intros HJ Hn Hmm. destruct (int_double_canonical s n Hn) as [q [Hq Hr]].
  rewrite Hr. pose proof (digits_bounds n) as [Dlo Dhi].
  pose proof (digits_le_53 n Hn) as Hd.
  pose proof (digits_shift n J mm HJ Hmm) as Hdm.
  assert (He' : fexp64 (Zpos (digits2_pos mm) + - J) = Zpos (digits2_pos n) - 53)
    by (unfold fexp64; lia).
  destruct (Z_le_gt_dec (Zpos (digits2_pos n) - 53) (- J)) as [Hle|Hgt].
  - apply round_left; try assumption; [lia|].
    rewrite Hq, Hmm, <- Z.mul_assoc, <- Z.pow_add_r by lia. f_equal. f_equal. lia.
  - apply round_right; try assumption; [lia|lia|].
    rewrite Hq, Hmm, <- Z.mul_assoc, <- Z.pow_add_r by lia. f_equal. f_equal. lia.
Qed.

Lemma normalize_scaled (z J : Z) :
  0 <= J -> Z.abs z < 2 ^ 53 ->
  binary_normalize prec emax (z * 2 ^ J) (- J) false = of_Z z.
Proof.
  intros HJ Hz. assert (Hp : 0 < 2 ^ J) by (apply Z.pow_pos_nonneg; lia).
  unfold of_Z. destruct z as [|n|n].
  - reflexivity.
  - destruct (Zpos n * 2 ^ J) as [|mm|mm] eqn:E; try lia.
    simpl. apply round_scaled; try assumption; lia.
  - destruct (Zneg n * 2 ^ J) as [|mm|mm] eqn:E; try lia.
    simpl. apply round_scaled; try assumption; lia.
Qed.

Lemma shl_align_fst (m : positive) (e e' : Z) :
  e' <= e -> Zpos (fst (shl_align m e e')) = Zpos m * 2 ^ (e - e').
Proof.
  intros H. unfold shl_align. destruct (e' - e) as [|d|d] eqn:E; try lia; simpl.
  - replace (e - e') with 0 by lia. simpl. lia.
  - rewrite iter_xO. f_equal. f_equal. lia.
Qed.

(** The double of a nonzero integer below 2^53, explicitly. *)
Lemma of_Z_canonical (z : Z) :
  z <> 0 -> Z.abs z < 2 ^ 53 ->
  exists (q : positive) (e : Z),
    -52 <= e <= 0 /\ Zpos q = Z.abs z * 2 ^ (- e)
    /\ of_Z z = S754_finite (z <? 0) q e.
Proof.
  intros Hz Hb. destruct z as [|n|n]; [lia| |].
  - destruct (int_double_canonical false n Hb) as [q [Hq Hr]].
    pose proof (digits_bounds n) as [Dlo Dhi].
    pose proof (digits_le_53 n Hb) as Hd.
    exists q, (Zpos (digits2_pos n) - 53). split; [lia|]. split; [|exact Hr].
    rewrite Hq. simpl Z.abs. f_equal. f_equal. lia.
  - destruct (int_double_canonical true n Hb) as [q [Hq Hr]].
    pose proof (digits_bounds n) as [Dlo Dhi].
    pose proof (digits_le_53 n Hb) as Hd.
    exists q, (Zpos (digits2_pos n) - 53). split; [lia|]. split; [|exact Hr].
    rewrite Hq. simpl Z.abs. f_equal. f_equal. lia.
Qed.

Lemma cond_Zopp_abs (z : Z) : cond_Zopp (z <? 0) (Z.abs z) = z.
Proof. destruct z; reflexivity. Qed.

(** Sums and differences of integers are exact as long as they stay below
    2^53. *)
Lemma add_of_Z (a b : Z) :
  a <> 0 -> b <> 0 ->
  Z.abs a < 2 ^ 53 -> Z.abs b < 2 ^ 53 -> Z.abs (a + b) < 2 ^ 53 ->
  add (of_Z a) (of_Z b) = of_Z (a + b).
Proof.
  intros Ha Hb Ba Bb Bab.
  destruct (of_Z_canonical a Ha Ba) as [qa [ea [Hea [Hqa ->]]]].
  destruct (of_Z_canonical b Hb Bb) as [qb [eb [Heb [Hqb ->]]]].
  unfold add, SFadd.
  rewrite !shl_align_fst by lia.
  rewrite Hqa, Hqb, <- !Z.mul_assoc, <- !Z.pow_add_r by lia.
  set (J := - Z.min ea eb).
  replace (- ea + (ea - Z.min ea eb)) with J by lia.
  replace (- eb + (eb - Z.min ea eb)) with J by lia.
  replace (Z.min ea eb) with (- J) by lia.
  replace (cond_Zopp (a <? 0) (Z.abs a * 2 ^ J) + cond_Zopp (b <? 0) (Z.abs b * 2 ^ J))
    with ((a + b) * 2 ^ J).
  - apply normalize_scaled; lia.
  - rewrite <- (cond_Zopp_abs a) at 1. rewrite <- (cond_Zopp_abs b) at 1.
    destruct (a <? 0), (b <? 0); simpl; lia.
Qed.

Lemma sub_of_Z (a b : Z) :
  a <> 0 -> b <> 0 ->
  Z.abs a < 2 ^ 53 -> Z.abs b < 2 ^ 53 -> Z.abs (a - b) < 2 ^ 53 ->
  sub (of_Z a) (of_Z b) = of_Z (a - b).
Proof.
  intros Ha Hb Ba Bb Bab.
  destruct (of_Z_canonical a Ha Ba) as [qa [ea [Hea [Hqa ->]]]].
  destruct (of_Z_canonical b Hb Bb) as [qb [eb [Heb [Hqb ->]]]].
  unfold sub, SFsub.
  rewrite !shl_align_fst by lia.
  rewrite Hqa, Hqb, <- !Z.mul_assoc, <- !Z.pow_add_r by lia.
  set (J := - Z.min ea eb).
  replace (- ea + (ea - Z.min ea eb)) with J by lia.
  replace (- eb + (eb - Z.min ea eb)) with J by lia.
  replace (Z.min ea eb) with (- J) by lia.
  replace (cond_Zopp (a <? 0) (Z.abs a * 2 ^ J) - cond_Zopp (b <? 0) (Z.abs b * 2 ^ J))
    with ((a - b) * 2 ^ J).
  - apply normalize_scaled; lia.
  - rewrite <- (cond_Zopp_abs a) at 1. rewrite <- (cond_Zopp_abs b) at 1.
    destruct (a <? 0), (b <? 0); simpl; lia.
Qed.

Lemma same_bits_eq (a b : number) : same_bits a b = true -> a = b.
Proof.
  destruct a as [s|s| |s m e], b as [t|t| |t n f]; simpl; try discriminate; intros H.
  - apply Bool.eqb_prop in H. now subst.
  - apply Bool.eqb_prop in H. now subst.
  - reflexivity.
  - apply andb_true_iff in H as [H He]. apply andb_true_iff in H as [Hs Hm].
    apply Bool.eqb_prop in Hs. apply Pos.eqb_eq in Hm. apply Z.eqb_eq in He. now subst.
Qed.

(** [repr v z]: the number [v] is the integer [z], a zero of either sign
    when [z = 0]. *)
Definition repr (v : number) (z : Z) : Prop :=
  (z <> 0 /\ v = of_Z z) \/ (z = 0 /\ exists s, v = S754_zero s).

Lemma small_integer_repr (v : number) :
  small_integer v = true -> exists z, Z.abs z < 2 ^ 52 /\ repr v z.
Proof.
  destruct v as [s|s| |s m e]; unfold small_integer; try discriminate.
  - intros _. exists 0. split; [reflexivity|]. right. split; [reflexivity|]. now exists s.
  - intros H. apply andb_true_iff in H as [Hb He]. apply Z.ltb_lt in Hb.
    apply same_bits_eq in He. set (z := to_int (S754_finite s m e)) in *.
    exists z. split; [exact Hb|]. left. split; [|exact He].
    intros Hz. rewrite Hz in He. discriminate He.
Qed.

Lemma repr_of_Z (z : Z) : repr (of_Z z) z.
Proof.
  destruct (Z.eq_dec z 0) as [->|Hz].
  - right. split; [reflexivity|]. now exists false.
  - left. now split.
Qed.

Lemma repr_round (v : number) (z : Z) :
  repr v z -> Z.abs z < 2 ^ 53 -> Math_round v = v.
Proof.
  intros [[Hz ->]|[_ [s ->]]] Hb; [|reflexivity].
  unfold of_Z. destruct z as [|n|n]; [lia| |]; simpl; apply Math_round_int; lia.
Qed.

Lemma binary_round_sign (n : positive) :
  Zpos n < 2 ^ 53 ->
  binary_round prec emax true n 0 = SFopp (binary_round prec emax false n 0).
Proof.
  intros Hn.
  destruct (int_double_canonical true n Hn) as [q1 [Hq1 ->]].
  destruct (int_double_canonical false n Hn) as [q2 [Hq2 ->]].
  simpl. f_equal. lia.
Qed.

Lemma neg_of_Z (z : Z) :
  z <> 0 -> Z.abs z < 2 ^ 53 -> neg (of_Z z) = of_Z (- z).
Proof.
  intros Hz Hb. unfold neg, of_Z. destruct z as [|n|n]; [lia| |]; simpl.
  - now rewrite binary_round_sign by lia.
  - rewrite binary_round_sign by lia. now destruct (binary_round prec emax false n 0) as [[]|[]| |[] ? ?].
Qed.

(** A nonzero integer below 2^53 is a finite, nonzero double whose sign is
    the integer's. *)
Lemma of_Z_finite (z : Z) :
  z <> 0 -> Z.abs z < 2 ^ 53 ->
  exists q e, of_Z z = S754_finite (z <? 0) q e.
Proof.
  intros Hz Hb. destruct (of_Z_canonical z Hz Hb) as [q [e [_ [_ H]]]]. now exists q, e.
Qed.

Lemma repr_sub (x y : number) (a b : Z) :
  repr x a -> repr y b -> Z.abs a < 2 ^ 52 -> Z.abs b < 2 ^ 52 ->
  repr (x - y)%js (a - b).
Proof.
  intros [[Ha ->]|[-> [sa ->]]] [[Hb ->]|[-> [sb ->]]] Ba Bb.
  - rewrite sub_of_Z by (simpl in *; lia). apply repr_of_Z.
  - destruct (of_Z_finite a Ha) as [q [e Hq]]; [simpl in *; lia|].
    replace (a - 0) with a by lia. left. split; [assumption|].
    rewrite Hq. reflexivity.
  - destruct (of_Z_finite b Hb) as [q [e Hq]]; [simpl in *; lia|].
    left. split; [lia|]. replace (0 - b) with (- b) by lia.
    rewrite <- neg_of_Z by (simpl in *; lia). rewrite Hq. reflexivity.
  - right. split; [reflexivity|]. destruct sa, sb; eexists; reflexivity.
Qed.

Lemma pow_52_53 : 2 ^ 52 < 2 ^ 53.
Proof. reflexivity. Qed.

Lemma repr_add (x y : number) (a b : Z) :
  repr x a -> repr y b ->
  Z.abs a < 2 ^ 53 -> Z.abs b < 2 ^ 53 -> Z.abs (a + b) < 2 ^ 53 ->
  repr (x + y)%js (a + b).
Proof.
  intros [[Ha ->]|[-> [sa ->]]] [[Hb ->]|[-> [sb ->]]] Ba Bb Bab.
  - rewrite add_of_Z by assumption. apply repr_of_Z.
  - destruct (of_Z_finite a Ha Ba) as [q [e Hq]].
    replace (a + 0) with a by lia. left. split; [assumption|].
    rewrite Hq. reflexivity.
  - destruct (of_Z_finite b Hb Bb) as [q [e Hq]].
    replace (0 + b) with b by lia. left. split; [assumption|].
    rewrite Hq. reflexivity.
  - right. split; [reflexivity|]. destruct sa, sb; eexists; reflexivity.
Qed.

Lemma repr_max_zero (v : number) (z : Z) :
  repr v z -> Z.abs z < 2 ^ 53 -> Math_max v (of_Z 0) = of_Z (Z.max z 0).
Proof.
  intros [[Hz Hv]|[-> [s ->]]] Bz.
  - destruct (of_Z_finite z Hz Bz) as [q [e Hq]]. rewrite Hv, Hq.
    destruct (Z.ltb_spec z 0) as [Hneg|Hpos].
    + replace (Z.max z 0) with 0 by lia. reflexivity.
    + replace (Z.max z 0) with z by lia. rewrite Hq.
      destruct (Z.ltb_spec z 0); [lia|]. reflexivity.
  - destruct s; reflexivity.
Qed.

(** Re-aligning an edge pair that is already aligned: the origin [X] is the
    integer [a], the width the integer [D >= 0]. *)
Lemma realign_small (X : number) (a D : Z) :
  repr X a -> Z.abs a < 2 ^ 52 -> 0 <= D -> Z.abs (a + D) < 2 ^ 52 ->
  Math_max (Math_round (X + of_Z D) - Math_round X)%js (of_Z 0) = of_Z D.
Proof.
  intros HX Ba HD Bad. pose proof pow_52_53 as P.
  assert (Hsum : repr (X + of_Z D)%js (a + D)) by (apply repr_add; [assumption|apply repr_of_Z|lia..]).
  rewrite (repr_round _ _ Hsum) by lia.
  rewrite (repr_round _ _ HX) by lia.
  assert (Hdiff : repr (X + of_Z D - X)%js (a + D - a)) by (apply repr_sub; assumption).
  rewrite (repr_max_zero _ _ Hdiff) by lia.
  f_equal. lia.
Qed.

Lemma align_axis_small (X M : number) (a b : Z) :
  repr X a -> repr M b -> Z.abs a < 2 ^ 52 -> Z.abs b < 2 ^ 52 ->
  Math_round X = X
  /\ Math_max (Math_round (X + Math_max (M - X) (of_Z 0)) - Math_round X)%js (of_Z 0)
     = Math_max (M - X)%js (of_Z 0).
Proof.
  intros HX HM Ba Bb. pose proof pow_52_53 as P.
  split; [apply (repr_round X a); [assumption|lia]|].
  assert (Hdiff : repr (M - X)%js (b - a)) by (apply repr_sub; assumption).
  rewrite (repr_max_zero _ _ Hdiff) by lia.
  apply (realign_small X a); try assumption; lia.
Qed.

Lemma repr_cases (v : number) (z : Z) :
  repr v z -> Z.abs z < 2 ^ 53 ->
  (exists s, v = S754_zero s) \/ (exists s q e, v = S754_finite s q e).
Proof.
  intros [[Hz ->]|[_ [s ->]]] Bz.
  - right. destruct (of_Z_finite z Hz Bz) as [q [e H]]. eauto.
  - left. eauto.
Qed.

(** An origin that is NaN or infinite. *)
Lemma align_axis_nonfinite (x w : number) :
  isFinite x = false ->
  Math_round (Math_round x) = Math_round x
  /\ Math_max (Math_round (Math_round x
                            + Math_max (Math_round (x + w) - Math_round x) (of_Z 0))
               - Math_round (Math_round x))%js (of_Z 0)
     = Math_max (Math_round (x + w) - Math_round x)%js (of_Z 0).
Proof.
  destruct x as [s|s| |s m e]; try discriminate; intros _.
  - destruct w as [sw|sw| |sw mw ew]; destruct s; try destruct sw; split; reflexivity.
  - split; reflexivity.
Qed.

(** An aligned origin that is a small integer, a far edge that is NaN or
    infinite. *)
Lemma align_axis_far_nonfinite (X far : number) (a : Z) :
  repr X a -> Z.abs a < 2 ^ 52 -> isFinite far = false ->
  Math_max (Math_round (X + Math_max (Math_round far - X) (of_Z 0)) - Math_round X)%js (of_Z 0)
  = Math_max (Math_round far - X)%js (of_Z 0).
Proof.
  intros HX Ba Hfar. pose proof pow_52_53 as P.
  destruct far as [s|[|]| |s m e]; try discriminate.
  - (* -Infinity: the width is clamped to 0 *)
    assert (HW : Math_max (Math_round (S754_infinity true) - X)%js (of_Z 0) = of_Z 0).
    { destruct (repr_cases X a HX) as [[s ->]|[s [q [e ->]]]]; [lia| |]; reflexivity. }
    rewrite HW. apply (realign_small X a 0); try assumption; lia.
  - (* +Infinity *)
    rewrite (repr_round X a HX) by lia.
    destruct (repr_cases X a HX) as [[s ->]|[s [q [e ->]]]]; [lia| |]; reflexivity.
  - (* NaN *)
    rewrite (repr_round X a HX) by lia.
    destruct (repr_cases X a HX) as [[s ->]|[s [q [e ->]]]]; [lia| |]; reflexivity.
Qed.

(** One axis of [pixelAlign]: after a first alignment of the near
    coordinate [x] and the extent [w], a second alignment finds the same
    near coordinate and the same extent. *)
Lemma align_axis (x w : number) :
  edge_ok x (x + w)%js = true ->
  Math_round (Math_round x) = Math_round x
  /\ Math_max (Math_round (Math_round x
                            + Math_max (Math_round (x + w) - Math_round x) (of_Z 0))
               - Math_round (Math_round x))%js (of_Z 0)
     = Math_max (Math_round (x + w) - Math_round x)%js (of_Z 0).
Proof.
  unfold edge_ok. intros H. apply orb_true_iff in H as [H|H].
  - apply align_axis_nonfinite. now apply negb_true_iff.
  - apply andb_true_iff in H as [HX H].
    destruct (small_integer_repr _ HX) as [a [Ba Ra]].
    apply orb_true_iff in H as [H|H].
    + apply negb_true_iff in H. pose proof pow_52_53 as P. split.
      * apply (repr_round _ a); [assumption|lia].
      * now apply (align_axis_far_nonfinite (Math_round x) (x + w)%js a).
    + destruct (small_integer_repr _ H) as [b [Bb Rb]].
      now apply (align_axis_small (Math_round x) (Math_round (x + w)%js) a b).
Qed.


(** *** Order *)

(** Comparing the canonical doubles of two positive integers. *)
Lemma compare_magnitudes (n1 n2 q1 q2 : positive) :
  Zpos n1 < 2 ^ 53 -> Zpos n2 < 2 ^ 53 ->
  Zpos q1 = Zpos n1 * 2 ^ (53 - Zpos (digits2_pos n1)) ->
  Zpos q2 = Zpos n2 * 2 ^ (53 - Zpos (digits2_pos n2)) ->
  match (Zpos (digits2_pos n1) - 53 ?= Zpos (digits2_pos n2) - 53) with
  | Lt => Lt
  | Gt => Gt
  | Eq => Pos.compare_cont Eq q1 q2
  end = (Zpos n1 ?= Zpos n2).
Proof.
  intros H1 H2 Hq1 Hq2.
  pose proof (digits_bounds n1) as [L1 U1]. pose proof (digits_bounds n2) as [L2 U2].
  pose proof (digits_le_53 n1 H1) as D1. pose proof (digits_le_53 n2 H2) as D2.
  destruct (Z.compare_spec (Zpos (digits2_pos n1) - 53) (Zpos (digits2_pos n2) - 53)) as [E|E|E].
  - assert (Ed : Zpos (digits2_pos n1) = Zpos (digits2_pos n2)) by lia.
    assert (P : 0 < 2 ^ (53 - Zpos (digits2_pos n2))) by (apply Z.pow_pos_nonneg; lia).
    assert (Hc : (Zpos q1 ?= Zpos q2) = (Zpos n1 ?= Zpos n2)).
    { rewrite Hq1, Hq2, Ed.
      destruct (Z.compare_spec (Zpos n1) (Zpos n2)) as [C|C|C].
      - apply Z.compare_eq_iff. now rewrite C.
      - apply Z.compare_lt_iff. nia.
      - apply Z.compare_gt_iff. nia. }
    rewrite <- Hc, Pos.compare_cont_spec. simpl.
    destruct (q1 ?= q2)%positive; reflexivity.
  - symmetry. apply Z.compare_lt_iff.
    assert (2 ^ Zpos (digits2_pos n1) <= 2 ^ (Zpos (digits2_pos n2) - 1))
      by (apply Z.pow_le_mono_r; lia). lia.
  - symmetry. apply Z.compare_gt_iff.
    assert (2 ^ Zpos (digits2_pos n2) <= 2 ^ (Zpos (digits2_pos n1) - 1))
      by (apply Z.pow_le_mono_r; lia). lia.
Qed.

Lemma compare_of_Z (u v : Z) :
  Z.abs u < 2 ^ 53 -> Z.abs v < 2 ^ 53 ->
  SFcompare (of_Z u) (of_Z v) = Some (u ?= v).
Proof.
  intros Bu Bv. unfold of_Z.
  destruct u as [|n1|n1], v as [|n2|n2]; simpl binary_normalize;
    try (destruct (int_double_canonical false n1 Bu) as [q1 [Hq1 ->]]);
    try (destruct (int_double_canonical true n1 Bu) as [q1 [Hq1 ->]]);
    try (destruct (int_double_canonical false n2 Bv) as [q2 [Hq2 ->]]);
    try (destruct (int_double_canonical true n2 Bv) as [q2 [Hq2 ->]]);
    try reflexivity.
  - cbn [SFcompare]. f_equal. now apply compare_magnitudes.
  - cbn [SFcompare]. f_equal.
    change (Z.neg n1 ?= Z.neg n2) with (CompOpp (Zpos n1 ?= Zpos n2)).
    rewrite <- (compare_magnitudes n1 n2 q1 q2 Bu Bv Hq1 Hq2).
    destruct (_ ?= _); reflexivity.
Qed.

Lemma le_of_Z (u v : Z) :
  Z.abs u < 2 ^ 53 -> Z.abs v < 2 ^ 53 ->
  le (of_Z u) (of_Z v) = (u <=? v).
Proof.
  intros Bu Bv. unfold le, SFleb. rewrite compare_of_Z by assumption.
  unfold Z.leb. destruct (u ?= v); reflexivity.
Qed.

End DoubleFacts.

(** ** Rectangles *)

Module RectProps.

Import JS JSFacts.

(** A point both of whose coordinates are NaN. *)
Definition nan_point : CGPoint.CGPointValue :=
  {| CGPoint.x := NaN; CGPoint.y := NaN |}.

(** The empty rectangle at the origin, in both variants. *)
Definition empty_cgrect : CGRect.CGRect := CGRect.create #0 #0 #0 #0.
Definition empty_rect : Rect.Rect := Rect.mk #0 #0 #0 #0.

Lemma isNaN_eq (v : number) : isNaN v = true -> v = NaN.
Proof. destruct v; simpl; intros H; try discriminate H; reflexivity. Qed.

(** C9.  For every rectangle whose own [x] and [y] are not NaN, whatever
    its width, height and position (an empty rectangle included),
    [containsPoint] answers [true] for a point both of whose coordinates
    are NaN: each of the four bound comparisons is a comparison with NaN,
    hence false, the two [Number.isNaN] guards look at the rectangle only,
    and the method falls through to [return true].  This holds for the
    [CGRect] class and for the flat [Rect] variant. *)
Theorem containsPoint_nan_point (point : CGPoint.CGPointValue) :
  isNaN (CGPoint.x point) = true ->
  isNaN (CGPoint.y point) = true ->
  (forall rect : CGRect.CGRect,
      isNaN (CGRect.x rect) = false -> isNaN (CGRect.y rect) = false ->
      CGRect.containsPoint point rect = true)
  /\ (forall rect : Rect.Rect,
         isNaN (Rect.x rect) = false -> isNaN (Rect.y rect) = false ->
         Rect.containsPoint point rect = true).
Proof.
  intros Hx Hy. apply isNaN_eq in Hx. apply isNaN_eq in Hy.
  split; intros rect Rx Ry.
  - unfold CGRect.containsPoint. rewrite Hx, Hy.
    rewrite lt_nan_l, gt_nan_l, lt_nan_l, gt_nan_l, Rx, Ry. reflexivity.
  - unfold Rect.containsPoint. rewrite Hx, Hy.
    rewrite lt_nan_l, gt_nan_l, lt_nan_l, gt_nan_l, Rx, Ry. reflexivity.
Qed.

Lemma containsPoint_nan_point_witness :
  CGRect.containsPoint nan_point empty_cgrect = true
  /\ Rect.containsPoint nan_point empty_rect = true.
Proof.
  destruct (containsPoint_nan_point nan_point eq_refl eq_refl) as [HC HR].
  split; [apply HC | apply HR]; reflexivity.
Defined.

(** The guard on the rectangle is what rejects: with a NaN origin the
    answer is [false] for every point. *)
Lemma containsPoint_nan_rect (point : CGPoint.CGPointValue) (rect : CGRect.CGRect) :
  isNaN (CGRect.x rect) = true -> CGRect.containsPoint point rect = false.
Proof.
  intros H. unfold CGRect.containsPoint. rewrite H.
  destruct (CGPoint.x point < CGRect.minX rect), (CGPoint.x point > CGRect.maxX rect),
    (CGPoint.y point < CGRect.minY rect), (CGPoint.y point > CGRect.maxY rect);
    reflexivity.
Qed.

(** Two rectangles that share the x range [5, 10] and are 10 apart in y,
    and two that share the y range [5, 10] and are 10 apart in x. *)
Definition left_box : CGRect.CGRect := CGRect.create #0 #0 #10 #10.
Definition below_box : CGRect.CGRect := CGRect.create #5 #20 #10 #10.
Definition beside_box : CGRect.CGRect := CGRect.create #20 #5 #10 #10.

(** The repository's own test of [intersection] and [intersects]. *)
Example intersection_test :
  let rectA := CGRect.create #0 #0 #80 #100 in
  let rectB := CGRect.create #60 #20 #50 #45 in
  CGRect.intersection rectA rectB = CGRect.create #60 #20 #20 #45
  /\ CGRect.intersects rectA rectB = true.
Proof. by_evaluation. Qed.

End RectProps.

(** ** [inflate] *)

Module InflateProps.

Import JS JSFacts.

Lemma same_value_zero_refl (v : number) : same_value_zero v v = true.
Proof.
  unfold same_value_zero, strict_eq, SFeqb.
  destruct (isNaN v) eqn:E; [now rewrite orb_true_r|].
  now rewrite compare_refl.
Qed.

(** Subtracting a zero leaves the value. *)
Lemma sub_zero (v z : number) :
  (z === #0) = true -> same_value_zero v (v - z) = true.
Proof.
  destruct z as [sz|sz| |sz mz ez];
    [ | destruct sz; discriminate | discriminate | destruct sz; discriminate ].
  intros _. destruct v as [sv|sv| |sv mv ev]; try reflexivity.
  - destruct sv, sz; reflexivity.
  - apply (same_value_zero_refl (S754_infinity sv)).
  - apply (same_value_zero_refl (S754_finite sv mv ev)).
Qed.

(** The flat [Rect] variant moves its origin by [(-value, -value)]: after
    [inflate(value)], [x] is the old [x] minus [value] and [y] the old [y]
    minus [value] (on the early return for [value === 0] nothing is
    assigned, and [x - 0] is [x]). *)
Lemma Rect_inflate_origin (value : number) (this : Rect.Rect) :
  same_value_zero (Rect.x (Rect.inflate value this)) (Rect.x this - value) = true
  /\ same_value_zero (Rect.y (Rect.inflate value this)) (Rect.y this - value) = true.
Proof.
  unfold Rect.inflate. destruct (value === #0) eqn:E; simpl.
  - split; now apply sub_zero.
  - split; apply same_value_zero_refl.
Qed.

(** The [CGRect] class adds [delta] to both coordinates of its origin. *)
Lemma CGRect_inflate_origin (delta : number) (this : CGRect.CGRect) :
  CGRect.x (CGRect.inflate delta this) = CGRect.x this + delta
  /\ CGRect.y (CGRect.inflate delta this) = CGRect.y this + delta.
Proof. split; reflexivity. Qed.

(** C4, at the input [CGRect.create(0, 0, 10, 10).inflate(1)].  Moving
    the origin by [(-delta, -delta)] would put it at [(-1, -1)]; the
    [CGRect] class leaves it at [(1, 1)] with size [9 x 9], while the flat
    [Rect] variant, on the same rectangle, gives [(-1, -1)] with size
    [12 x 12]. *)
Theorem CGRect_inflate_moves_origin_inward :
  CGRect.inflate #1 (CGRect.create #0 #0 #10 #10) = CGRect.create #1 #1 #9 #9
  /\ (CGRect.x (CGRect.inflate #1 (CGRect.create #0 #0 #10 #10)) === #0 - #1) = false
  /\ Rect.inflate #1 (Rect.mk #0 #0 #10 #10) = Rect.mk #(-1) #(-1) #12 #12.
Proof. by_evaluation. Qed.

End InflateProps.

(** ** [CGSize.set] *)

Module SizeProps.

Import JS.

(** Width alone supplied, ratio locked, current aspect ratio falsy: the
    guard [&& this.aspectRatio] skips the derivation, the width is stored
    and the height keeps its current value. *)
Lemma set_width_locked_falsy (w : number) (this : CGSize.CGSizeValue) :
  truthy (CGSize.aspectRatio this) = false ->
  CGSize.set (CGSize.partial (Some w) None) true this
  = {| CGSize.width := w; CGSize.height := CGSize.height this |}.
Proof. intros H. unfold CGSize.set. simpl. now rewrite H. Qed.

(** Height alone supplied, ratio locked: the width is derived from the
    current aspect ratio whatever that ratio is; this branch has no
    guard. *)
Lemma set_height_locked (h : number) (this : CGSize.CGSizeValue) :
  CGSize.set (CGSize.partial None (Some h)) true this
  = {| CGSize.width := h * CGSize.aspectRatio this; CGSize.height := h |}.
Proof. reflexivity. Qed.

(** C3, at the input [CGSize.zero] (0 x 0, aspect ratio [0 / 0 = NaN],
    falsy).  [set({ width: 5 }, true)] stores the width and keeps the
    height; [set({ height: 5 }, true)] stores the height and overwrites
    the width with [5 * NaN = NaN] instead of keeping its current value
    [0]. *)
Theorem set_height_locked_derives_nan :
  truthy (CGSize.aspectRatio CGSize.zero) = false
  /\ CGSize.set (CGSize.partial (Some #5) None) true CGSize.zero
     = {| CGSize.width := #5; CGSize.height := #0 |}
  /\ CGSize.set (CGSize.partial None (Some #5)) true CGSize.zero
     = {| CGSize.width := NaN; CGSize.height := #5 |}.
Proof. by_evaluation. Qed.

(** The repository's tests of [set]. *)
Example set_test :
  CGSize.set (CGSize.partial (Some #20) (Some #10)) false (CGSize.mk #10 #5)
  = CGSize.mk #20 #10
  /\ CGSize.set (CGSize.partial (Some #20) None) true (CGSize.mk #10 #5)
     = CGSize.mk #20 #10.
Proof. by_evaluation. Qed.

End SizeProps.

(** ** Line intersection *)

Module LineProps.

Import JS.

(** Both classes return [null] exactly when the determinant is [=== 0]. *)
Lemma intersection_null_iff (lineA lineB : Line.Line) :
  (Line.intersection lineA lineB = None
   <-> (Line.determinant lineA lineB === #0) = true)
  /\ (CGLine.intersection lineA lineB = None
      <-> (Line.determinant lineA lineB === #0) = true).
Proof.
  unfold Line.intersection, CGLine.intersection, Line.determinant.
  split; destruct (_ === #0); split; intros H; try reflexivity; discriminate.
Qed.

(** The horizontal segment from (0,0) to (2,0) and the vertical one from
    (1,-1) to (1,1); they cross at (1,0). *)
Definition horizontal : Line.Line :=
  Line.mk (CGPoint.mk #0 #0) (CGPoint.mk #2 #0).
Definition vertical : Line.Line :=
  Line.mk (CGPoint.mk #1 #(-1)) (CGPoint.mk #1 #1).

(** C1, at the input [horizontal], [vertical].  The determinant is 4, the
    method returns the point (0, 2) in both classes; that point lies on
    neither line, and the crossing point (1, 0) lies on both. *)
Theorem intersection_is_not_the_crossing_point :
  Line.determinant horizontal vertical = #4
  /\ Line.intersection horizontal vertical = Some (CGPoint.mk #0 #2)
  /\ CGLine.intersection horizontal vertical = Some (CGPoint.mk #0 #2)
  /\ Line.on_line horizontal (CGPoint.mk #0 #2) = false
  /\ Line.on_line vertical (CGPoint.mk #0 #2) = false
  /\ Line.on_line horizontal (CGPoint.mk #1 #0) = true
  /\ Line.on_line vertical (CGPoint.mk #1 #0) = true.
Proof. by_evaluation. Qed.

(** [project] relies on [intersection]: the projection of (1, 1) on
    [horizontal] is (1, 0), the method answers (0, 2). *)
Example project_example :
  Line.project (CGPoint.mk #1 #1) horizontal = Some (CGPoint.mk #0 #2).
Proof. vm_compute; reflexivity. Qed.

End LineProps.

(** ** [CGPoint.subtract] *)

Module PointProps.

Import JS JSFacts.
Import CGPoint.

(** [negate] on a live instance: both fields change sign, nothing else
    changes, and the reference returned is the receiver. *)
Lemma negate_at_spec (h : store) (this : ref) (p : CGPointValue) :
  h !! this = Some p ->
  negate_at this h = Some (this, <[this := negate p]> h).
Proof.
  intros H. unfold negate_at. rewrite H. simpl.
  rewrite lookup_insert_eq. simpl. now rewrite insert_insert_eq.
Qed.

(** One round of [add] with an argument that is another instance. *)
Lemma add_step_distinct (h : store) (this point : ref) (a p : CGPointValue) :
  this <> point ->
  h !! this = Some a -> h !! point = Some p ->
  add_step this h point
  = Some (<[this := {| x := x a + x p; y := y a + y p |}]> h).
Proof.
  intros Hne Ha Hp. unfold add_step. rewrite Ha, Hp. simpl.
  rewrite lookup_insert_eq. simpl.
  rewrite lookup_insert_ne by assumption. rewrite Hp. simpl.
  now rewrite insert_insert_eq.
Qed.

(** One round of [add] whose argument is the receiver itself: each field
    is doubled. *)
Lemma add_step_self (h : store) (this : ref) (a : CGPointValue) :
  h !! this = Some a ->
  add_step this h this
  = Some (<[this := {| x := x a + x a; y := y a + y a |}]> h).
Proof.
  intros Ha. unfold add_step. rewrite Ha. simpl.
  rewrite lookup_insert_eq. simpl. now rewrite insert_insert_eq.
Qed.

(** C10, amended.  For two distinct instances [a] and [b],
    [a.subtract(b)] returns [a] and leaves a store in which [b] has been
    negated in place ([b.x] and [b.y] are the negations of their old
    values), [a] holds the old [a] minus the old [b], field by field, and
    every other instance is untouched. *)
Theorem subtract_distinct (h : store) (a b : ref) (pa pb : CGPointValue) :
  a <> b ->
  h !! a = Some pa ->
  h !! b = Some pb ->
  exists h' : store,
    subtract a b h = Some (a, h')
    /\ h' !! b = Some {| x := - x pb; y := - y pb |}
    /\ h' !! a = Some {| x := x pa - x pb; y := y pa - y pb |}
    /\ (forall c : ref, c <> a -> c <> b -> h' !! c = h !! c).
Proof.
  intros Hne Ha Hb.
  exists (<[a := {| x := x pa - x pb; y := y pa - y pb |}]> (<[b := negate pb]> h)).
  split; [|split; [|split]].
  - unfold subtract. rewrite (negate_at_spec h b pb Hb). simpl.
    rewrite (add_step_distinct _ a b pa (negate pb)); simpl.
    + now rewrite !add_neg.
    + assumption.
    + now rewrite lookup_insert_ne by congruence.
    + apply lookup_insert_eq.
  - rewrite lookup_insert_ne by assumption. apply lookup_insert_eq.
  - apply lookup_insert_eq.
  - intros c Hca Hcb. now rewrite !lookup_insert_ne by congruence.
Qed.

(** A store with the two points (5, 7) and (2, 3). *)
Definition two_points : store :=
  <[1%positive := {| x := #5; y := #7 |}]> (<[2%positive := {| x := #2; y := #3 |}]> ∅).

Lemma subtract_distinct_witness :
  exists h' : store,
    subtract 1%positive 2%positive two_points = Some (1%positive, h')
    /\ h' !! 2%positive = Some {| x := - #2; y := - #3 |}
    /\ h' !! 1%positive = Some {| x := #5 - #2; y := #7 - #3 |}
    /\ (forall c : ref, c <> 1%positive -> c <> 2%positive -> h' !! c = two_points !! c).
Proof.
  apply (subtract_distinct two_points 1%positive 2%positive
           {| x := #5; y := #7 |} {| x := #2; y := #3 |}).
  - discriminate.
  - reflexivity.
  - reflexivity.
Defined.

(** [p.subtract(p)]: the argument is the receiver.  It is negated and then
    added to itself, so it ends at minus twice its old value. *)
Lemma subtract_self (h : store) (a : ref) (pa : CGPointValue) :
  h !! a = Some pa ->
  subtract a a h = Some (a, <[a := {| x := - x pa + - x pa; y := - y pa + - y pa |}]> h).
Proof.
  intros Ha. unfold subtract. rewrite (negate_at_spec h a pa Ha). simpl.
  rewrite (add_step_self _ a (negate pa)) by apply lookup_insert_eq.
  simpl. now rewrite insert_insert_eq.
Qed.

(** A store with the single point (1, 2). *)
Definition one_point : store := <[1%positive := {| x := #1; y := #2 |}]> ∅.

(** C10 as stated fails when the argument is the receiver: after
    [p.subtract(p)] with [p = (1, 2)], [p] is (-2, -4); it is neither the
    negation (-1, -2) of its old value nor the difference (0, 0) of the
    old receiver and the old argument. *)
Lemma subtract_aliased_counterexample :
  exists h' : store,
    subtract 1%positive 1%positive one_point = Some (1%positive, h')
    /\ h' !! 1%positive = Some {| x := #(-2); y := #(-4) |}
    /\ negate {| x := #1; y := #2 |} = {| x := #(-1); y := #(-2) |}
    /\ {| x := #1 - #1; y := #2 - #2 |} = {| x := #0; y := #0 |}
    /\ (#(-2) === #(-1)) = false
    /\ (#(-2) === #0) = false.
Proof.
  eexists. split.
  - apply (subtract_self one_point 1%positive {| x := #1; y := #2 |}). reflexivity.
  - rewrite lookup_insert_eq. by_evaluation.
Qed.

(** The repository's tests of [pixelAlign] (10.56 is the literal's
    double) and [add]. *)
Example pixelAlign_test :
  pixelAlign {| x := JSText.parseFloat "10.56"; y := #60 |} = {| x := #11; y := #60 |}.
Proof. vm_compute; reflexivity. Qed.

Example add_test :
  add [ {| x := #10; y := #0 |}; {| x := #20; y := #0 |} ] zero = {| x := #30; y := #0 |}.
Proof. vm_compute; reflexivity. Qed.

End PointProps.

(** ** [CFNumericRange] *)

Module RangeProps.

Import JS JSFacts DoubleFacts.
Import CFNumericRange.

(** *** Construction *)

(** With the default step 1 the loop of [countDecimals] stops at its first
    test. *)
Lemma countDecimals_default_step (fuel : nat) :
  countDecimals (S fuel) #1 = Some #0.
Proof. reflexivity. Qed.

(** C7.  With the defaults [min = 0] and [max = 100] filled in: when
    [max < min] the constructor throws the range error and the call yields
    no instance, whatever the other options and however long it is allowed
    to run; when [min <= max] the constructor does not throw, whatever the
    other options: it goes on to [countDecimals(step)] and, once that
    returns, yields the instance holding the given [min] and [max]; with
    the default step it does return. *)
Theorem constructor_range_check (fuel : nat) (opts : CFNumericRangeOptions) :
  let min_ := default #0 (o_min opts) in
  let max_ := default #100 (o_max opts) in
  ((max_ < min_) = true ->
   constructor fuel opts = Throws (RangeError "clamp: max cannot be less than min"))
  /\ ((min_ <= max_) = true ->
      (forall e : error, constructor fuel opts <> Throws e)
      /\ constructor fuel opts
         = match countDecimals fuel (default #1 (o_step opts)) with
           | Some p =>
               Returns {| options := opts; min := min_; max := max_;
                          precision := o_precision opts;
                          step := default #1 (o_step opts);
                          stepPrecision := p;
                          value := default (Num #0) (o_value opts) |}
           | None => Unfinished
           end
      /\ (o_step opts = None ->
          constructor (S fuel) opts
          = Returns {| options := opts; min := min_; max := max_;
                       precision := o_precision opts;
                       step := #1; stepPrecision := #0;
                       value := default (Num #0) (o_value opts) |})).
Proof.
  intros min_ max_. split; intros H; unfold constructor; fold min_; fold max_.
  - now rewrite H.
  - rewrite (le_not_gt _ _ H).
    split; [|split; [reflexivity|]].
    + intros e. destruct (countDecimals fuel _); discriminate.
    + intros Hstep. rewrite Hstep. unfold default.
      now rewrite countDecimals_default_step.
Qed.

(** [new CFNumericRange({ min: 6, max: 2 })] and
    [new CFNumericRange({ min: 0, max: 10 })]. *)
Definition options_6_2 : CFNumericRangeOptions :=
  mkOptions (Some #6) (Some #2) None None None.
Definition options_0_10 : CFNumericRangeOptions :=
  mkOptions (Some #0) (Some #10) None None None.

Lemma constructor_range_check_witness :
  constructor 1 options_6_2 = Throws (RangeError "clamp: max cannot be less than min")
  /\ constructor 1 options_0_10
     = Returns {| options := options_0_10; min := #0; max := #10; precision := None;
                  step := #1; stepPrecision := #0; value := Num #0 |}.
Proof.
  split.
  - apply (proj1 (constructor_range_check 1 options_6_2)). reflexivity.
  - apply (proj2 (proj2 (proj2 (constructor_range_check 0 options_0_10) eq_refl)) eq_refl).
Defined.

(** The default step 1 has no decimals: one test of the loop condition
    suffices, so a construction with the default step always returns when
    [max < min] fails. *)
Example countDecimals_examples :
  countDecimals 1 #1 = Some #0
  /\ countDecimals 2 (JSText.parseFloat "0.5") = Some #1
  /\ countDecimals 4 (JSText.parseFloat "0.125") = Some #3.
Proof. by_evaluation. Qed.

(** With [step = NaN] the loop condition [... !== value] is always true:
    the constructor neither throws nor returns. *)
Lemma countDecimals_nan (fuel : nat) (e p : number) :
  countDecimals_loop fuel NaN e p = None.
Proof.
  revert e p. induction fuel as [|n IH]; intros e p; [reflexivity|].
  simpl. unfold strict_ne, mul. simpl.
  replace (SFeqb (Math_round S754_nan / e) S754_nan) with false.
  - apply IH.
  - unfold SFeqb, SFcompare. now destruct (Math_round S754_nan / e).
Qed.

(** *** Iteration *)

(** Draining a generator that is suspended at the [k]-th value of
    [current], when the loop test holds for the next [d] values and fails
    after them. *)
Lemma drain_suspended (this : CFNumericRange) (d : nat) :
  forall (k fuel : nat),
    (forall j : nat, (S k <= j < S k + d)%nat ->
                     (current_at this j <= max this) = true) ->
    (current_at this (S k + d) <= max this) = false ->
    (d < fuel)%nat ->
    drain fuel this (Suspended (current_at this k))
    = Some (map (current_at this) (seq (S k) d)).
Proof.
  induction d as [|d IH]; intros k fuel Hin Hout Hfuel;
    destruct fuel as [|fuel]; try lia; simpl.
  - replace (S k + 0)%nat with (S k) in Hout by lia. simpl in Hout.
    now rewrite Hout.
  - assert (H0 : (current_at this (S k) <= max this) = true) by (apply Hin; lia).
    simpl in H0. rewrite H0.
    change (current_at this k + step this) with (current_at this (S k)).
    rewrite (IH (S k) fuel); [reflexivity| | |lia].
    + intros j Hj. apply Hin. lia.
    + now replace (S (S k) + d)%nat with (S k + S d)%nat by lia.
Qed.

Lemma spread_finite (this : CFNumericRange) (n fuel : nat) :
  (forall k : nat, (k < n)%nat -> (current_at this k <= max this) = true) ->
  (current_at this n <= max this) = false ->
  (n < fuel)%nat ->
  spread fuel this = Some (map (current_at this) (seq 0 n)).
Proof.
  intros Hin Hout Hfuel. unfold spread, Symbol_iterator.
  destruct fuel as [|fuel]; [lia|]. destruct n as [|n]; simpl.
  - simpl in Hout. now rewrite Hout.
  - assert (H0 : (current_at this 0 <= max this) = true) by (apply Hin; lia).
    simpl in H0. rewrite H0.
    change (min this) with (current_at this 0) at 1.
    rewrite (drain_suspended this n 0 fuel); [reflexivity| | |lia].
    + intros j Hj. apply Hin. lia.
    + exact Hout.
Qed.

Lemma drain_forever (this : CFNumericRange) :
  (forall k : nat, (current_at this k <= max this) = true) ->
  forall (fuel k : nat), drain fuel this (Suspended (current_at this k)) = None.
Proof.
  intros Hall. induction fuel as [|fuel IH]; intros k; [reflexivity|].
  simpl. pose proof (Hall (S k)) as H. simpl in H. rewrite H.
  change (current_at this k + step this) with (current_at this (S k)).
  now rewrite IH.
Qed.

Lemma spread_forever (this : CFNumericRange) (fuel : nat) :
  (forall k : nat, (current_at this k <= max this) = true) ->
  spread fuel this = None.
Proof.
  intros Hall. unfold spread, Symbol_iterator.
  destruct fuel as [|fuel]; [reflexivity|]. simpl.
  pose proof (Hall 0%nat) as H. simpl in H. rewrite H.
  change (min this) with (current_at this 0) at 1.
  now rewrite drain_forever.
Qed.

(** *** Integer ranges

    When [min <= max] and [step >= 1] are integers of magnitude below 2^52,
    every addition in the loop is exact and the traversal is the arithmetic
    progression cut at [max]. *)

Local Open Scope Z_scope.

Lemma add_of_Z_step (u c : Z) :
  c <> 0 -> Z.abs u < 2 ^ 53 -> Z.abs c < 2 ^ 53 -> Z.abs (u + c) < 2 ^ 53 ->
  add (of_Z u) (of_Z c) = of_Z (u + c).
Proof.
  intros Hc Bu Bc Buc. destruct (Z.eq_dec u 0) as [->|Hu].
  - destruct (of_Z_finite c Hc Bc) as [q [e Hq]].
    replace (0 + c) with c by lia. rewrite Hq. reflexivity.
  - now apply add_of_Z.
Qed.

Lemma current_at_integers (this : CFNumericRange) (a b c : Z) (k : nat) :
  min this = of_Z a -> step this = of_Z c ->
  Z.abs a < 2 ^ 52 -> Z.abs b < 2 ^ 52 -> 1 <= c < 2 ^ 52 ->
  a + Z.of_nat k * c <= b + c ->
  current_at this k = of_Z (a + Z.of_nat k * c).
Proof.
  intros Hmin Hstep Ba Bb Bc. pose proof pow_52_53 as P.
  assert (P2 : 2 ^ 53 = 2 * 2 ^ 52) by reflexivity.
  induction k as [|k IH]; intros Hk.
  - simpl. rewrite Hmin. f_equal. lia.
  - simpl current_at. rewrite IH by lia. rewrite Hstep.
    rewrite add_of_Z_step by lia. f_equal. lia.
Qed.

Lemma spread_integers (this : CFNumericRange) (a b c : Z) (fuel : nat) :
  min this = of_Z a -> max this = of_Z b -> step this = of_Z c ->
  Z.abs a < 2 ^ 52 -> Z.abs b < 2 ^ 52 -> 1 <= c < 2 ^ 52 -> a <= b ->
  (Z.to_nat ((b - a) / c + 1) < fuel)%nat ->
  spread fuel this
  = Some (map (fun k => of_Z (a + Z.of_nat k * c)) (seq 0 (Z.to_nat ((b - a) / c + 1)))).
Proof.
  intros Hmin Hmax Hstep Ba Bb Bc Hab Hfuel. pose proof pow_52_53 as P.
  assert (P2 : 2 ^ 53 = 2 * 2 ^ 52) by reflexivity.
  set (n := Z.to_nat ((b - a) / c + 1)) in *.
  assert (Hq : 0 <= (b - a) / c) by (apply Z.div_pos; lia).
  assert (Hn : Z.of_nat n = (b - a) / c + 1) by (unfold n; lia).
  assert (Hlow : c * ((b - a) / c) <= b - a) by (apply Z.mul_div_le; lia).
  assert (Hhigh : b - a < c * ((b - a) / c + 1)).
  { pose proof (Z.mul_succ_div_gt (b - a) c ltac:(lia)). lia. }
  rewrite (spread_finite this n fuel).
  - f_equal. apply List.map_ext_in. intros k Hk. apply List.in_seq in Hk.
    apply (current_at_integers this a b c k); try assumption. nia.
  - intros k Hk.
    rewrite (current_at_integers this a b c k) by (try assumption; nia).
    rewrite Hmax, le_of_Z by nia. apply Z.leb_le. nia.
  - rewrite (current_at_integers this a b c n) by (try assumption; nia).
    rewrite Hmax, le_of_Z by nia. apply Z.leb_gt. nia.
  - exact Hfuel.
Qed.

Lemma last_of_seq (f : nat -> number) (m : nat) :
  List.last (map f (seq 0 (S m))) NaN = f m.
Proof.
  rewrite List.seq_S, List.map_app. simpl. apply List.last_last.
Qed.

Local Open Scope js_scope.

(** The instance [new CFNumericRange({ min, max, step })] of a terminating
    construction, with the default value 0. *)
Definition range (min_ max_ step_ p : number) : CFNumericRange :=
  {| options := mkOptions (Some min_) (Some max_) None (Some step_) None;
     min := min_; max := max_; precision := None; step := step_;
     stepPrecision := p; value := Num #0 |}.

Definition range_0_10 : CFNumericRange := range #0 #10 #1 #0.
Definition range_0_10_by_3 : CFNumericRange := range #0 #10 #3 #0.
Definition range_0_10_by_0 : CFNumericRange := range #0 #10 #0 #0.
Definition range_0_1_by_tenth : CFNumericRange :=
  range #0 #1 (JSText.parseFloat "0.1") #1.

Example ranges_constructed :
  constructor 1 (options range_0_10) = Returns range_0_10
  /\ constructor 1 (options range_0_10_by_3) = Returns range_0_10_by_3
  /\ constructor 1 (options range_0_10_by_0) = Returns range_0_10_by_0
  /\ constructor 2 (options range_0_1_by_tenth) = Returns range_0_1_by_tenth.
Proof. by_evaluation. Qed.

(** C5, amended.  Every iteration request creates a new generator, which
    starts from [min]; the [k]-th element is [min] with [step] added [k]
    times ([current_at]), and the traversal goes on exactly as long as
    that value is [<= max]:
    - if the first [n] values pass the test and the next one fails it, the
      traversal is finite and yields exactly those [n] values (each is
      [<= max]; the last one is [max] only if the additions reach [max]
      exactly);
    - if every value passes the test (a zero or negative step, for
      instance), the traversal never ends;
    - when [min <= max] and [step >= 1] are integers of magnitude below
      2^52, the traversal is finite: it yields the
      [floor ((max - min) / step) + 1] elements [min], [min + step], ...,
      the last of which is [max - (max - min) mod step], that is [max]
      exactly when [step] divides [max - min];
    - [min = 0], [max = 10], [step = 1] yields exactly the eleven elements
      0, 1, ..., 10, on every traversal;
    - a generator that has run to its end stays done, and every new request
      starts afresh. *)
Theorem iteration_sequence :
  (forall (this : CFNumericRange) (n fuel : nat),
      (forall k : nat, (k < n)%nat -> (current_at this k <= max this) = true) ->
      (current_at this n <= max this) = false ->
      (n < fuel)%nat ->
      spread fuel this = Some (map (current_at this) (seq 0 n))
      /\ Forall (fun v => (v <= max this) = true) (map (current_at this) (seq 0 n))
      /\ current_at this 0 = min this
      /\ (forall k : nat, current_at this (S k) = current_at this k + step this))
  /\ (forall (this : CFNumericRange) (fuel : nat),
         (forall k : nat, (current_at this k <= max this) = true) ->
         spread fuel this = None)
  /\ (forall (this : CFNumericRange) (a b c : Z) (fuel : nat),
         min this = #a -> max this = #b -> step this = #c ->
         (Z.abs a < 2 ^ 52)%Z -> (Z.abs b < 2 ^ 52)%Z -> (1 <= c < 2 ^ 52)%Z ->
         (a <= b)%Z ->
         (Z.to_nat ((b - a) / c + 1) < fuel)%nat ->
         exists l : list number,
           spread fuel this = Some l
           /\ l = map (fun k => #(a + Z.of_nat k * c)) (seq 0 (Z.to_nat ((b - a) / c + 1)))
           /\ List.last l NaN = #(b - (b - a) mod c))
  /\ (forall fuel : nat, (11 < fuel)%nat ->
         spread fuel range_0_10
         = Some [ #0; #1; #2; #3; #4; #5; #6; #7; #8; #9; #10 ])
  /\ (forall this : CFNumericRange,
         Symbol_iterator this = Start
         /\ next this Completed = (None, Completed)).
Proof.
  split; [|split; [|split; [|split; [|split; reflexivity]]]].
  - intros this n fuel Hin Hout Hfuel. split; [|split; [|split]].
    + now apply spread_finite.
    + apply List.Forall_forall. intros v Hv.
      apply List.in_map_iff in Hv as [k [<- Hk]].
      apply List.in_seq in Hk. apply Hin. lia.
    + reflexivity.
    + reflexivity.
  - intros this fuel Hall. now apply spread_forever.
  - intros this a b c fuel Hmin Hmax Hstep Ba Bb Bc Hab Hfuel.
    eexists. split; [now apply (spread_integers this a b c fuel)|].
    split; [reflexivity|].
    assert (Hq : (0 <= (b - a) / c)%Z) by (apply Z.div_pos; lia).
    replace (Z.to_nat ((b - a) / c + 1)) with (S (Z.to_nat ((b - a) / c))) by lia.
    rewrite (last_of_seq (fun k => #(a + Z.of_nat k * c))). f_equal.
    pose proof (Z.div_mod (b - a) c ltac:(lia)). lia.
  - intros fuel Hfuel.
    rewrite (spread_finite range_0_10 11 fuel); [reflexivity| |reflexivity|exact Hfuel].
    intros k Hk. do 11 (destruct k as [|k]; [reflexivity|]). lia.
Qed.

Lemma iteration_sequence_witness :
  spread 12 range_0_10 = Some [ #0; #1; #2; #3; #4; #5; #6; #7; #8; #9; #10 ]
  /\ spread 5 range_0_10_by_3 = Some (map (current_at range_0_10_by_3) (seq 0 4))
  /\ (exists l : list number,
         spread 5 range_0_10_by_3 = Some l
         /\ l = map (fun k => #(0 + Z.of_nat k * 3)) (seq 0 (Z.to_nat ((10 - 0) / 3 + 1)))
         /\ List.last l NaN = #(10 - (10 - 0) mod 3)).
Proof.
  destruct iteration_sequence as [Hfinite [_ [Hint [Hconcrete _]]]].
  split; [|split].
  - apply (Hconcrete 12%nat). lia.
  - apply (Hfinite range_0_10_by_3 4%nat 5%nat).
    + intros k Hk. do 4 (destruct k as [|k]; [reflexivity|]). lia.
    + reflexivity.
    + lia.
  - apply (Hint range_0_10_by_3 0%Z 10%Z 3%Z 5%nat).
    + reflexivity.
    + reflexivity.
    + reflexivity.
    + reflexivity.
    + reflexivity.
    + split; [lia | reflexivity].
    + lia.
    + vm_compute. lia.
Defined.

Lemma current_at_zero_step (k : nat) : current_at range_0_10_by_0 k = #0.
Proof. induction k as [|k IH]; [reflexivity|]. simpl. now rewrite IH. Qed.

(** C5 as stated fails: with [step = 3] the sequence 0, 3, 6, 9 ends
    before [max = 10]; with [step = 0.1] on [0, 1] it ends at
    0.9999999999999999; with [step = 0] no amount of [next()] calls ends
    it. *)
Lemma iteration_counterexample :
  spread 5 range_0_10_by_3 = Some [ #0; #3; #6; #9 ]
  /\ (#9 === max range_0_10_by_3) = false
  /\ option_map (fun l => List.last l NaN) (spread 12 range_0_1_by_tenth)
     = Some (JSText.parseFloat "0.9999999999999999")
  /\ (forall fuel : nat, spread fuel range_0_10_by_0 = None).
Proof.
  split; [vm_compute; reflexivity|]. split; [vm_compute; reflexivity|].
  split; [vm_compute; reflexivity|].
  intros fuel. apply spread_forever. intros k.
  now rewrite current_at_zero_step.
Qed.

(** *** [clamp] *)

(** Clipping a number that is not NaN into [[min, max]], [min <= max]. *)
Lemma clip_bounds (v lo hi : number) :
  (lo <= hi) = true -> isNaN v = false ->
  (lo <= Math_min (Math_max v lo) hi) = true
  /\ (Math_min (Math_max v lo) hi <= hi) = true.
Proof.
  intros Hle Hv. destruct (le_not_nan _ _ Hle) as [Hlo Hhi].
  pose proof (Math_max_not_nan v lo Hv Hlo) as Hm.
  split.
  - apply Math_min_ge; try assumption. now apply Math_max_ge_r.
  - now apply Math_min_le_r.
Qed.

(** The repository's test: [{ min: 6, max: 10, value: 5 }]. *)
Definition range_6_10_at_5 : CFNumericRange :=
  {| options := mkOptions (Some #6) (Some #10) None None (Some (Num #5));
     min := #6; max := #10; precision := None; step := #1;
     stepPrecision := #0; value := Num #5 |}.

Example clamp_test (approx : number -> number) :
  constructor 1 (options range_6_10_at_5) = Returns range_6_10_at_5
  /\ clamp approx range_6_10_at_5 = Returns (setValue (Str "6") range_6_10_at_5)
  /\ valueOf (setValue (Str "6") range_6_10_at_5) = #6.
Proof. by_evaluation. Qed.

(** [{ min: 0, max: 10, value: 8, step: 4 }]: two [increment()]s and a
    [clamp()], as in the repository's test. *)
Definition range_0_10_at_8 : CFNumericRange :=
  {| options := mkOptions (Some #0) (Some #10) None (Some #4) (Some (Num #8));
     min := #0; max := #10; precision := None; step := #4;
     stepPrecision := #0; value := Num #8 |}.

Example increment_clamp_test (approx : number -> number) :
  valueOf (increment None range_0_10_at_8) = #12
  /\ clamp approx (increment None (increment None range_0_10_at_8))
     = Returns (setValue (Str "10") (increment None (increment None range_0_10_at_8)))
  /\ valueOf (setValue (Str "10") range_0_10_at_8) = #10.
Proof. by_evaluation. Qed.

(** The precision is a number like any other: a fractional one is cut to
    its integer part by [Number.prototype.toFixed] (-0.5 and 100.5 do not
    throw), one beyond 0..100 or infinite throws, and NaN, like 0, takes
    the [toString] branch. *)
Example toFixed_precisions (approx : number -> number) :
  (exists s, toFixed approx #5 (Some (JSText.parseFloat "-0.5")) = Returns s)
  /\ (exists s, toFixed approx #5 (Some (JSText.parseFloat "100.5")) = Returns s)
  /\ toFixed approx #5 (Some #101)
     = Throws (RangeError "toFixed() digits argument must be between 0 and 100")
  /\ toFixed approx #5 (Some (- #1))
     = Throws (RangeError "toFixed() digits argument must be between 0 and 100")
  /\ toFixed approx #5 (Some Infinity)
     = Throws (RangeError "toFixed() digits argument must be between 0 and 100")
  /\ toFixed approx #5 (Some NaN) = Returns "NaN"%string
  /\ toFixed approx #5 (Some #2) = Returns "5.00"%string
  /\ toFixed approx #5 None = Returns "5"%string.
Proof.
  split; [eexists; reflexivity|]. split; [eexists; reflexivity|].
  by_evaluation.
Qed.

(** Bounds finer than the precision,
    [{ min: 0.44, max: 0.46, precision: 1 }] with the default value 0; a
    fractional upper bound with whole-number precision,
    [{ min: 0, max: 2.5, precision: 0, value: 7 }]; and a value that is no
    number, [{ min: 0, max: 10, value: "abc" }]. *)
Definition range_fine_bounds : CFNumericRange :=
  {| options := mkOptions (Some (JSText.parseFloat "0.44")) (Some (JSText.parseFloat "0.46"))
                          (Some #1) None None;
     min := JSText.parseFloat "0.44"; max := JSText.parseFloat "0.46";
     precision := Some #1; step := #1;
     stepPrecision := #0; value := Num #0 |}.

Definition range_half_max : CFNumericRange :=
  {| options := mkOptions (Some #0) (Some (JSText.parseFloat "2.5"))
                          (Some #0) None (Some (Num #7));
     min := #0; max := JSText.parseFloat "2.5";
     precision := Some #0; step := #1;
     stepPrecision := #0; value := Num #7 |}.

Definition range_0_10_at_abc : CFNumericRange :=
  {| options := mkOptions (Some #0) (Some #10) None None (Some (Str "abc"));
     min := #0; max := #10; precision := None; step := #1;
     stepPrecision := #0; value := Str "abc" |}.

(** C2.  [clamp()] ("Ensures the value is within the range") does not
    keep [valueOf()] within [[min, max]].  The clipping is right: for
    every range with [min <= max] whose [valueOf()] is a number, the
    clipped number lies in [[min, max]].  But the method stores that
    number reformatted by [toFixed], which rounds it after the clipping:
    - with [min = 0.44], [max = 0.46] and precision 1, the value 0 is
      clipped to 0.44 and stored as ["0.4"]; [valueOf()] is then 0.4,
      below [min];
    - with [min = 0], [max = 2.5] and precision 0, the value 7 is clipped
      to 2.5 and stored as ["3"]; [valueOf()] is then 3, above [max];
    - with [min = 0], [max = 10] and the stored string ["abc"],
      [valueOf()] is NaN before the call and NaN after it (["NaN"] is
      stored).
    Each of the three instances is what the constructor returns for its
    options, and none of the calls depends on the engine's
    approximation of [10 ** d]. *)
Theorem clamp_leaves_the_range (approx : number -> number) :
  (forall this : CFNumericRange,
      (min this <= max this) = true -> isNaN (valueOf this) = false ->
      (min this <= clipped this) = true /\ (clipped this <= max this) = true)
  /\ (constructor 1 (options range_fine_bounds) = Returns range_fine_bounds
      /\ (min range_fine_bounds <= max range_fine_bounds) = true
      /\ valueOf range_fine_bounds = #0
      /\ clipped range_fine_bounds = JSText.parseFloat "0.44"
      /\ clamp approx range_fine_bounds
         = Returns (setValue (Str "0.4") range_fine_bounds)
      /\ valueOf (setValue (Str "0.4") range_fine_bounds) = JSText.parseFloat "0.4"
      /\ (min range_fine_bounds <= valueOf (setValue (Str "0.4") range_fine_bounds))
         = false)
  /\ (constructor 1 (options range_half_max) = Returns range_half_max
      /\ (min range_half_max <= max range_half_max) = true
      /\ valueOf range_half_max = #7
      /\ clipped range_half_max = JSText.parseFloat "2.5"
      /\ clamp approx range_half_max = Returns (setValue (Str "3") range_half_max)
      /\ valueOf (setValue (Str "3") range_half_max) = #3
      /\ (valueOf (setValue (Str "3") range_half_max) <= max range_half_max) = false)
  /\ (constructor 1 (options range_0_10_at_abc) = Returns range_0_10_at_abc
      /\ (min range_0_10_at_abc <= max range_0_10_at_abc) = true
      /\ clamp approx range_0_10_at_abc
         = Returns (setValue (Str "NaN") range_0_10_at_abc)
      /\ valueOf (setValue (Str "NaN") range_0_10_at_abc) = NaN
      /\ (min range_0_10_at_abc <= valueOf (setValue (Str "NaN") range_0_10_at_abc))
         = false).
Proof.
  split.
  - intros this Hle Hv. unfold clipped. now apply clip_bounds.
  - by_evaluation.
Qed.

End RangeProps.

(** ** [pixelAlign] *)

Module PixelAlignProps.

Import JS DoubleFacts.

(** C8, amended.  [pixelAlign] is idempotent
    - for every point whose coordinates are doubles, and
    - for every rectangle, of the [CGRect] class and of the flat [Rect]
      variant, in which on each axis the near coordinate is NaN or infinite,
      or else rounds to an integer of magnitude below 2^52 while the far
      edge ([x + width], [y + height]) is NaN, infinite or rounds to an
      integer of magnitude below 2^52 ([edge_ok]):
    a second [pixelAlign] leaves [x], [y], [width] and [height] as the first
    one set them. *)
Theorem pixelAlign_idempotent :
  (forall p : CGPoint.CGPointValue,
      is_double (CGPoint.x p) = true -> is_double (CGPoint.y p) = true ->
      CGPoint.pixelAlign (CGPoint.pixelAlign p) = CGPoint.pixelAlign p)
  /\ (forall r : CGRect.CGRect,
         edge_ok (CGRect.x r) (CGRect.x r + CGRect.width r) = true ->
         edge_ok (CGRect.y r) (CGRect.y r + CGRect.height r) = true ->
         CGRect.pixelAlign (CGRect.pixelAlign r) = CGRect.pixelAlign r)
  /\ (forall r : Rect.Rect,
         edge_ok (Rect.x r) (Rect.x r + Rect.width r) = true ->
         edge_ok (Rect.y r) (Rect.y r + Rect.height r) = true ->
         Rect.pixelAlign (Rect.pixelAlign r) = Rect.pixelAlign r).
Proof.
  split; [|split].
  - intros p Hx Hy. unfold CGPoint.pixelAlign. simpl.
    now rewrite !Math_round_idempotent.
  - intros [[x y] [w h]] Hx Hy.
    unfold CGRect.x, CGRect.y, CGRect.width, CGRect.height in Hx, Hy. simpl in Hx, Hy.
    destruct (align_axis x w Hx) as [Hx1 Hx2].
    destruct (align_axis y h Hy) as [Hy1 Hy2].
    unfold CGRect.pixelAlign, CGRect.x, CGRect.y, CGRect.width, CGRect.height,
      CGPoint.set, CGSize.set. simpl.
    change (S754_zero false) with #0.
    now rewrite Hx2, Hy2, Hx1, Hy1.
  - intros [x y w h] Hx Hy. simpl in Hx, Hy.
    destruct (align_axis x w Hx) as [Hx1 Hx2].
    destruct (align_axis y h Hy) as [Hy1 Hy2].
    unfold Rect.pixelAlign. simpl.
    change (S754_zero false) with #0.
    now rewrite Hx2, Hy2, Hx1, Hy1.
Qed.

(** The point (10.56, 60) of the repository's test, a rectangle with
    fractional edges, and a rectangle with a NaN origin. *)
Definition test_point : CGPoint.CGPointValue :=
  {| CGPoint.x := JSText.parseFloat "10.56"; CGPoint.y := #60 |}.

Definition fractional_rect : CGRect.CGRect :=
  CGRect.create (JSText.parseFloat "-0.5") (JSText.parseFloat "2.5")
                (JSText.parseFloat "1.25") (JSText.parseFloat "100.75").

Definition nan_rect : Rect.Rect := Rect.mk NaN #3 #4 Infinity.

Lemma pixelAlign_idempotent_witness :
  CGPoint.pixelAlign (CGPoint.pixelAlign test_point) = CGPoint.pixelAlign test_point
  /\ CGRect.pixelAlign (CGRect.pixelAlign fractional_rect) = CGRect.pixelAlign fractional_rect
  /\ Rect.pixelAlign (Rect.pixelAlign nan_rect) = Rect.pixelAlign nan_rect.
Proof.
  destruct pixelAlign_idempotent as [HP [HC HR]].
  split; [|split].
  - apply HP; vm_compute; reflexivity.
  - apply HC; vm_compute; reflexivity.
  - apply HR; vm_compute; reflexivity.
Defined.

Example pixelAlign_examples :
  CGRect.pixelAlign fractional_rect = CGRect.create (- #0) #3 #1 #100
  /\ Rect.pixelAlign nan_rect = Rect.mk NaN #3 NaN Infinity.
Proof. by_evaluation. Qed.

(** A rectangle whose far edge lies beyond 2^53:
    x = 0.6, width = 2^53 + 2. *)
Definition wide_rect : CGRect.CGRect :=
  CGRect.create (JSText.parseFloat "0.6") #0 #9007199254740994 #0.

Definition wide_flat_rect : Rect.Rect :=
  Rect.mk (JSText.parseFloat "0.6") #0 #9007199254740994 #0.

(** C8 as stated fails for rectangles.  [wide_rect] consists of doubles;
    its first alignment rounds the origin to 1 and the far edge to
    2^53 + 2, whose difference 2^53 + 1 is not a double and becomes 2^53;
    the second alignment finds the far edge [1 + 2^53], which is the double
    2^53, and sets the width to 2^53 - 1. *)
Lemma pixelAlign_counterexample :
  (is_double (CGRect.x wide_rect) && is_double (CGRect.width wide_rect)) = true
  /\ CGRect.pixelAlign wide_rect = CGRect.create #1 #0 #9007199254740992 #0
  /\ CGRect.pixelAlign (CGRect.pixelAlign wide_rect)
     = CGRect.create #1 #0 #9007199254740991 #0
  /\ (CGRect.width (CGRect.pixelAlign (CGRect.pixelAlign wide_rect))
      === CGRect.width (CGRect.pixelAlign wide_rect)) = false
  /\ Rect.pixelAlign wide_flat_rect = Rect.mk #1 #0 #9007199254740992 #0
  /\ Rect.pixelAlign (Rect.pixelAlign wide_flat_rect)
     = Rect.mk #1 #0 #9007199254740991 #0.
Proof. by_evaluation. Qed.

End PixelAlignProps.

(* ===================================================================== *)
(** * Further properties                                                   *)
(* ===================================================================== *)

(** ** The order on numbers *)

Module OrderFacts.

Import JS JSFacts.

(** Two numbers that compare equal are either identical or the two
    zeros. *)
Lemma compare_eq_cases (a b : number) :
  SFcompare a b = Some Eq ->
  a = b \/ (exists s t, a = S754_zero s /\ b = S754_zero t).
Proof.
  destruct a as [sa|sa| |sa ma ea], b as [sb|sb| |sb mb eb]; simpl;
    try discriminate; try (destruct sa; discriminate);
    try (destruct sb; discriminate).
  - intros _. right. eauto.
  - destruct sa, sb; try discriminate; intros _; now left.
  - destruct sa, sb; try discriminate;
      destruct (Z.compare_spec ea eb) as [->|?|?]; try discriminate;
      intros H; left; f_equal;
      apply Pos.compare_eq; unfold Pos.compare;
      destruct (Pos.compare_cont Eq ma mb); simpl in H; congruence.
Qed.

(** They are interchangeable in every comparison. *)
Lemma compare_eq_l (a b x : number) :
  SFcompare a b = Some Eq -> SFcompare a x = SFcompare b x.
Proof.
  intros H. destruct (compare_eq_cases a b H) as [->|[s [t [-> ->]]]]; reflexivity.
Qed.

Lemma compare_eq_r (a b x : number) :
  SFcompare a b = Some Eq -> SFcompare x a = SFcompare x b.
Proof.
  intros H. destruct (compare_eq_cases a b H) as [->|[s [t [-> ->]]]];
    [reflexivity|now destruct x].
Qed.

Lemma strict_eq_compare (a b : number) :
  (a === b) = true <-> SFcompare a b = Some Eq.
Proof.
  unfold strict_eq, SFeqb. destruct (SFcompare a b) as [[]|]; split; congruence.
Qed.

Lemma strict_eq_refl (a : number) : isNaN a = false -> (a === a) = true.
Proof. intros H. apply strict_eq_compare. now apply compare_refl. Qed.

Lemma strict_eq_self (a : number) : (a === a) = negb (isNaN a).
Proof.
  destruct (isNaN a) eqn:E.
  - now destruct a.
  - now apply strict_eq_refl.
Qed.

Lemma strict_eq_sym (a b : number) : (a === b) = (b === a).
Proof.
  unfold strict_eq, SFeqb. rewrite (compare_swap a b).
  destruct (SFcompare a b) as [[]|]; reflexivity.
Qed.

Lemma strict_eq_trans (a b c : number) :
  (a === b) = true -> (b === c) = true -> (a === c) = true.
Proof.
  intros H1 H2. apply strict_eq_compare in H1.
  unfold strict_eq, SFeqb in *. now rewrite (compare_eq_l a b c H1).
Qed.

Lemma strict_eq_le (a b : number) : (a === b) = true -> (a <= b) = true.
Proof.
  unfold strict_eq, le, SFeqb, SFleb. destruct (SFcompare a b) as [[]|]; congruence.
Qed.

(** The order is transitive. *)
Lemma le_trans (a b c : number) :
  (a <= b) = true -> (b <= c) = true -> (a <= c) = true.
Proof.
  unfold le, SFleb.
  destruct a as [sa|sa| |sa ma ea], b as [sb|sb| |sb mb eb],
           c as [sc|sc| |sc mc ec]; simpl;
    try discriminate; try reflexivity;
    try (destruct sa; simpl; try discriminate; try reflexivity);
    try (destruct sb; simpl; try discriminate; try reflexivity);
    try (destruct sc; simpl; try discriminate; try reflexivity).
  all: change (Pos.compare_cont Eq) with Pos.compare.
  all: destruct (Z.compare_spec ea eb), (Z.compare_spec eb ec),
         (Z.compare_spec ea ec); try lia; try discriminate; try reflexivity.
  all: destruct (Pos.compare_spec ma mb), (Pos.compare_spec mb mc),
         (Pos.compare_spec ma mc); simpl; try lia; try discriminate;
         try reflexivity.
Qed.

Lemma lt_asym (a b : number) : (a < b) = true -> (b < a) = false.
Proof. intros H. apply le_not_gt. now apply lt_le. Qed.

(** Neither [a < b] nor [b < a], and no NaN: the two compare equal. *)
Lemma not_lt_eq (a b : number) :
  isNaN a = false -> isNaN b = false ->
  (a < b) = false -> (b < a) = false -> SFcompare a b = Some Eq.
Proof.
  intros Ha Hb. unfold lt, SFltb. rewrite (compare_swap a b).
  destruct a as [?|?| |? ? ?], b as [?|?| |? ? ?]; try discriminate;
    destruct (SFcompare _ _) as [[]|] eqn:E; simpl; try easy;
    simpl in E; discriminate.
Qed.

(** [Math.max] and [Math.min] do not depend on the order of their
    arguments, and return one of them. *)
Lemma Math_max_comm (a b : number) : Math_max a b = Math_max b a.
Proof.
  unfold Math_max. rewrite (orb_comm (isNaN b)).
  destruct (isNaN a) eqn:Ha, (isNaN b) eqn:Hb; simpl; try reflexivity.
  destruct (a < b) eqn:E1.
  - now rewrite (lt_asym a b E1).
  - destruct (b < a) eqn:E2; [reflexivity|].
    destruct (compare_eq_cases a b (not_lt_eq a b Ha Hb E1 E2))
      as [->|[s [t [-> ->]]]]; [reflexivity|now destruct s, t].
Qed.

Lemma Math_min_comm (a b : number) : Math_min a b = Math_min b a.
Proof.
  unfold Math_min. rewrite (orb_comm (isNaN b)).
  destruct (isNaN a) eqn:Ha, (isNaN b) eqn:Hb; simpl; try reflexivity.
  destruct (a < b) eqn:E1.
  - now rewrite (lt_asym a b E1).
  - destruct (b < a) eqn:E2; [reflexivity|].
    destruct (compare_eq_cases a b (not_lt_eq a b Ha Hb E1 E2))
      as [->|[s [t [-> ->]]]]; [reflexivity|now destruct s, t].
Qed.

Lemma Math_max_ge_l (a b : number) :
  isNaN a = false -> isNaN b = false -> (a <= Math_max a b) = true.
Proof. intros Ha Hb. rewrite Math_max_comm. now apply Math_max_ge_r. Qed.

Lemma Math_min_le_l (a b : number) :
  isNaN a = false -> isNaN b = false -> (Math_min a b <= a) = true.
Proof. intros Ha Hb. rewrite Math_min_comm. now apply Math_min_le_r. Qed.

Lemma Math_min_not_nan (a b : number) :
  isNaN a = false -> isNaN b = false -> isNaN (Math_min a b) = false.
Proof.
  intros Ha Hb. unfold Math_min. rewrite Ha, Hb. simpl.
  destruct (a < b); [assumption|]. destruct (b < a); [assumption|].
  destruct a as [[]| | |]; assumption.
Qed.

Lemma Math_min_cases (a b : number) :
  isNaN a = false -> isNaN b = false -> Math_min a b = a \/ Math_min a b = b.
Proof.
  intros Ha Hb. unfold Math_min. rewrite Ha, Hb. simpl.
  destruct (a < b); [now left|]. destruct (b < a); [now right|].
  destruct a as [[]| | |]; auto.
Qed.

Lemma Math_max_cases (a b : number) :
  isNaN a = false -> isNaN b = false -> Math_max a b = a \/ Math_max a b = b.
Proof.
  intros Ha Hb. unfold Math_max. rewrite Ha, Hb. simpl.
  destruct (a < b); [now right|]. destruct (b < a); [now left|].
  destruct a as [[]| | |]; auto.
Qed.

Lemma Math_min_nan_r (a : number) : Math_min a NaN = NaN.
Proof. unfold Math_min. now rewrite orb_true_r. Qed.

Lemma Math_max_nan_r (a : number) : Math_max a NaN = NaN.
Proof. unfold Math_max. now rewrite orb_true_r. Qed.

(** The rounding of a magnitude does not depend on the sign it is given. *)
Lemma binary_round_abs (m : positive) (e : Z) :
  SFabs (binary_round prec emax true m e) = SFabs (binary_round prec emax false m e).
Proof.
  unfold binary_round, binary_round_aux.
  destruct (shl_align _ _ _) as [mz ez].
  destruct (shr_fexp _ _ _ _ _) as [mrs' e'].
  destruct (shr_fexp _ _ _ _ _) as [mrs'' e''].
  destruct (shr_m mrs''); [reflexivity| |reflexivity].
  destruct (e'' <=? emax - prec)%Z; reflexivity.
Qed.

Lemma binary_normalize_abs (z e : Z) :
  SFabs (binary_normalize prec emax (- z) e false)
  = SFabs (binary_normalize prec emax z e false).
Proof.
  destruct z; simpl; [reflexivity| |]; [|symmetry]; apply binary_round_abs.
Qed.

(** [|a - b|] is [|b - a|], and [a + b] is [b + a], bit for bit. *)
Lemma abs_sub_comm (a b : number) : Math_abs (a - b) = Math_abs (b - a).
Proof.
  destruct a as [sa|sa| |sa ma ea], b as [sb|sb| |sb mb eb]; simpl;
    try reflexivity; try (destruct sa, sb; reflexivity).
  unfold Math_abs. rewrite (Z.min_comm eb ea).
  rewrite <- binary_normalize_abs. f_equal. f_equal. lia.
Qed.

Lemma add_comm (a b : number) : a + b = b + a.
Proof.
  destruct a as [sa|sa| |sa ma ea], b as [sb|sb| |sb mb eb]; simpl;
    try reflexivity; try (destruct sa, sb; reflexivity).
  now rewrite (Z.min_comm eb ea), Z.add_comm.
Qed.

Lemma neg_involutive (v : number) : - - v = v.
Proof. destruct v as [[]|[]| |[] ? ?]; reflexivity. Qed.

(** Arithmetic with the zeros on finite numbers. *)
Lemma sub_self (a : number) : isFinite a = true -> a - a = #0.
Proof.
  destruct a as [[]| | |s m e]; try discriminate; intros _; try reflexivity.
  unfold sub, SFsub. rewrite Z.min_id.
  rewrite Z.sub_diag. reflexivity.
Qed.

Lemma mul_zero_r (r : number) :
  isFinite r = true -> exists s, r * #0 = S754_zero s.
Proof.
  destruct r as [s|s| |s m e]; try discriminate; intros _; eexists; reflexivity.
Qed.

Lemma add_zero_r (c : number) (s : bool) :
  isFinite c = true -> (c + S754_zero s === c) = true.
Proof.
  destruct c as [[]| | |[] m e]; try discriminate; intros _; destruct s;
    try reflexivity; apply strict_eq_compare, compare_refl; reflexivity.
Qed.

Lemma sub_add_zero (v : number) :
  isFinite v = true -> exists s, v - (v + #0) = S754_zero s.
Proof.
  intros F. destruct v as [[]| | |s m e] eqn:E; try discriminate;
    try (eexists; reflexivity).
  exists false. change (S754_finite s m e + #0) with (S754_finite s m e).
  now apply sub_self.
Qed.

Lemma sub_sub_zero (v : number) :
  isFinite v = true -> exists s, v - (v - #0) = S754_zero s.
Proof.
  intros F. destruct v as [[]| | |s m e] eqn:E; try discriminate;
    try (eexists; reflexivity).
  exists false. change (S754_finite s m e - #0) with (S754_finite s m e).
  now apply sub_self.
Qed.

(** Clipping a number that is already between the bounds returns it (a
    zero may come back with the other sign). *)
Lemma clip_in_range (v lo hi : number) :
  (lo <= v) = true -> (v <= hi) = true ->
  (Math_min (Math_max v lo) hi === v) = true.
Proof.
  intros Hlo Hhi.
  destruct (le_not_nan _ _ Hlo) as [Nlo Nv].
  destruct (le_not_nan _ _ Hhi) as [_ Nhi].
  assert (E1 : SFcompare (Math_max v lo) v = Some Eq).
  { unfold Math_max. rewrite Nv, Nlo. simpl.
    rewrite (le_not_gt _ _ Hlo).
    destruct (lo < v) eqn:L; [now apply compare_refl|].
    pose proof (not_lt_eq v lo Nv Nlo (le_not_gt _ _ Hlo) L) as E.
    destruct v as [[]| | |]; try (now apply compare_refl).
    rewrite compare_swap, E. reflexivity. }
  pose proof (Math_max_not_nan v lo Nv Nlo) as Nm.
  set (m := Math_max v lo) in *.
  assert (Hm : (m <= hi) = true).
  { unfold le, SFleb in *. now rewrite (compare_eq_l _ _ hi E1). }
  apply strict_eq_compare.
  unfold Math_min. rewrite Nm, Nhi. simpl.
  destruct (m < hi) eqn:L; [exact E1|].
  rewrite (le_not_gt _ _ Hm).
  pose proof (not_lt_eq m hi Nm Nhi L (le_not_gt _ _ Hm)) as E.
  assert (E2 : SFcompare hi v = Some Eq).
  { rewrite <- (compare_eq_r _ _ hi E1). rewrite compare_swap, E. reflexivity. }
  destruct m as [[]| | |]; assumption.
Qed.

End OrderFacts.

(** ** Arrays of numbers *)

Module ListFacts.

Import JS JSFacts OrderFacts.

(** A NaN among the arguments, or as the running result, makes the result
    NaN. *)
Lemma fold_min_nan_acc (ds : list number) : fold_left Math_min ds NaN = NaN.
Proof. induction ds as [|d ds IH]; [reflexivity|exact IH]. Qed.

Lemma fold_min_nan (ds : list number) (acc : number) :
  Exists (fun d => isNaN d = true) ds -> fold_left Math_min ds acc = NaN.
Proof.
  intros H. revert acc. induction H as [d ds Hd|d ds _ IH]; intros acc; simpl.
  - destruct d; try discriminate. rewrite Math_min_nan_r. apply fold_min_nan_acc.
  - apply IH.
Qed.

(** Without NaN the result is a lower (upper) bound of the arguments and
    of the start value, and it is one of them. *)
Lemma fold_min_spec (ds : list number) (acc : number) :
  isNaN acc = false -> Forall (fun d => isNaN d = false) ds ->
  let m := fold_left Math_min ds acc in
  isNaN m = false /\ (m <= acc) = true
  /\ Forall (fun d => (m <= d) = true) ds
  /\ (m = acc \/ m ∈ ds).
Proof.
  intros Hacc H. revert acc Hacc.
  induction H as [|d ds Hd _ IH]; intros acc Hacc; simpl.
  - split; [assumption|]. split; [now apply le_refl|].
    split; [constructor|now left].
  - pose proof (Math_min_not_nan acc d Hacc Hd) as Hn.
    destruct (IH (Math_min acc d) Hn) as [Hm [Hle [Hall Hin]]].
    split; [|split; [|split]].
    + exact Hm.
    + eapply le_trans; [exact Hle|now apply Math_min_le_l].
    + constructor; [|exact Hall].
      eapply le_trans; [exact Hle|now apply Math_min_le_r].
    + destruct Hin as [Hin|Hin]; [|right; now apply elem_of_cons; right].
      rewrite Hin.
      destruct (Math_min_cases acc d Hacc Hd) as [E|E]; rewrite E.
      * now left.
      * right. apply elem_of_cons. now left.
Qed.

Lemma fold_max_spec (ds : list number) (acc : number) :
  isNaN acc = false -> Forall (fun d => isNaN d = false) ds ->
  let m := fold_left Math_max ds acc in
  isNaN m = false /\ (acc <= m) = true
  /\ Forall (fun d => (d <= m) = true) ds
  /\ (m = acc \/ m ∈ ds).
Proof.
  intros Hacc H. revert acc Hacc.
  induction H as [|d ds Hd _ IH]; intros acc Hacc; simpl.
  - split; [assumption|]. split; [now apply le_refl|].
    split; [constructor|now left].
  - pose proof (Math_max_not_nan acc d Hacc Hd) as Hn.
    destruct (IH (Math_max acc d) Hn) as [Hm [Hle [Hall Hin]]].
    split; [|split; [|split]].
    + exact Hm.
    + apply (le_trans _ (Math_max acc d)); [now apply Math_max_ge_l|exact Hle].
    + constructor; [|exact Hall].
      apply (le_trans _ (Math_max acc d)); [now apply Math_max_ge_r|exact Hle].
    + destruct Hin as [Hin|Hin]; [|right; now apply elem_of_cons; right].
      rewrite Hin.
      destruct (Math_max_cases acc d Hacc Hd) as [E|E]; rewrite E.
      * now left.
      * right. apply elem_of_cons. now left.
Qed.

(** [indexOf]: the index found is the first one whose element is [===]
    the searched value; nothing is found when no element is. *)
Lemma indexOf_Some (ds : list number) (v : number) (i : nat) :
  indexOf ds v = Some i ->
  exists d, ds !! i = Some d /\ (d === v) = true
    /\ forall j dj, (j < i)%nat -> ds !! j = Some dj -> (dj === v) = false.
Proof.
  revert i. induction ds as [|d ds IH]; intros i; simpl; [discriminate|].
  destruct (d === v) eqn:E.
  - intros [= <-]. exists d. split; [reflexivity|]. split; [exact E|].
    intros j dj Hj. lia.
  - destruct (indexOf ds v) as [k|]; [|discriminate]. intros [= <-].
    destruct (IH k eq_refl) as [d' [Hl [He Hfirst]]].
    exists d'. split; [exact Hl|]. split; [exact He|].
    intros [|j] dj Hj; simpl.
    + now intros [= <-].
    + apply Hfirst. lia.
Qed.

Lemma indexOf_None (ds : list number) (v : number) :
  indexOf ds v = None -> forall d, d ∈ ds -> (d === v) = false.
Proof.
  induction ds as [|d ds IH]; simpl; intros H d' Hin.
  - now apply elem_of_nil in Hin.
  - destruct (d === v) eqn:E; [discriminate|].
    destruct (indexOf ds v); [discriminate|].
    apply elem_of_cons in Hin as [->|Hin]; [exact E|now apply IH].
Qed.

Lemma indexOf_nan (ds : list number) : indexOf ds NaN = None.
Proof.
  induction ds as [|d ds IH]; [reflexivity|]. simpl. rewrite IH.
  unfold strict_eq, SFeqb. now destruct d.
Qed.

Lemma lookup_map {A B : Type} (f : A -> B) (l : list A) (i : nat) :
  map f l !! i = option_map f (l !! i).
Proof.
  revert i. induction l as [|a l IH]; intros [|i]; simpl; try reflexivity. apply IH.
Qed.

Lemma elem_of_map {A B : Type} (f : A -> B) (l : list A) (a : A) :
  a ∈ l -> f a ∈ map f l.
Proof.
  induction 1; simpl; [apply elem_of_cons; now left|apply elem_of_cons; now right].
Qed.

(** On a non-empty array without NaN, [indexOf] finds [Math.min(...ds)]. *)
Lemma min_list_found (ds : list number) :
  ds <> [] -> Forall (fun d => isNaN d = false) ds ->
  exists i, indexOf ds (Math_min_list ds) = Some i.
Proof.
  intros Hne Hall.
  destruct (fold_min_spec ds Infinity eq_refl Hall) as [Hm [Hle [Hlow Hin]]].
  fold (Math_min_list ds) in *.
  destruct (indexOf ds (Math_min_list ds)) as [i|] eqn:E; [now exists i|].
  exfalso. pose proof (indexOf_None _ _ E) as Hnone.
  destruct Hin as [Hin|Hin].
  - destruct ds as [|d ds]; [congruence|].
    assert (Hd : (d === Math_min_list (d :: ds)) = false)
      by (apply Hnone, elem_of_cons; now left).
    apply Forall_inv in Hlow. rewrite Hin in Hlow, Hd.
    destruct d as [|[]| |]; simpl in Hlow, Hd; discriminate.
  - specialize (Hnone _ Hin). rewrite strict_eq_refl in Hnone by assumption.
    discriminate.
Qed.

End ListFacts.

(** ** Integers of magnitude below 2^52 *)

Module IntegerFacts.

Import JS JSFacts DoubleFacts OrderFacts ListFacts.
Local Open Scope Z_scope.

Lemma small_integer_not_nan (v : number) :
  small_integer v = true -> isNaN v = false.
Proof. now destruct v. Qed.

(** Two representations of one integer behave alike in a comparison. *)
Lemma repr_compare_l (u w x : number) (z : Z) :
  repr u z -> repr w z -> SFcompare u x = SFcompare w x.
Proof.
  intros [[Hz ->]|[Hz [s ->]]] [[Hz' ->]|[Hz' [t ->]]]; try lia; reflexivity.
Qed.

Lemma repr_compare_r (u w x : number) (z : Z) :
  repr u z -> repr w z -> SFcompare x u = SFcompare x w.
Proof.
  intros [[Hz ->]|[Hz [s ->]]] [[Hz' ->]|[Hz' [t ->]]]; try lia;
    try reflexivity; now destruct x.
Qed.

(** Comparing represented integers compares the integers. *)
Lemma compare_repr (u v : number) (a b : Z) :
  repr u a -> repr v b -> Z.abs a < 2 ^ 53 -> Z.abs b < 2 ^ 53 ->
  SFcompare u v = Some (a ?= b).
Proof.
  intros Ru Rv Ba Bb.
  rewrite (repr_compare_l u (of_Z a) v a Ru (repr_of_Z a)).
  rewrite (repr_compare_r v (of_Z b) (of_Z a) b Rv (repr_of_Z b)).
  now apply compare_of_Z.
Qed.

Lemma lt_repr (u v : number) (a b : Z) :
  repr u a -> repr v b -> Z.abs a < 2 ^ 53 -> Z.abs b < 2 ^ 53 ->
  (u < v)%js = (a <? b).
Proof.
  intros Ru Rv Ba Bb. unfold lt, SFltb. rewrite (compare_repr u v a b) by assumption.
  unfold Z.ltb. now destruct (a ?= b).
Qed.

Lemma le_repr (u v : number) (a b : Z) :
  repr u a -> repr v b -> Z.abs a < 2 ^ 53 -> Z.abs b < 2 ^ 53 ->
  (u <= v)%js = (a <=? b).
Proof.
  intros Ru Rv Ba Bb. unfold le, SFleb. rewrite (compare_repr u v a b) by assumption.
  unfold Z.leb. now destruct (a ?= b).
Qed.

Lemma repr_not_nan (u : number) (a : Z) :
  repr u a -> Z.abs a < 2 ^ 53 -> isNaN u = false.
Proof.
  intros R B. destruct (repr_cases u a R B) as [[s ->]|[s [q [e ->]]]]; reflexivity.
Qed.

(** [Math.max] and [Math.min] of represented integers. *)
Lemma Math_max_repr (u v : number) (a b : Z) :
  repr u a -> repr v b -> Z.abs a < 2 ^ 53 -> Z.abs b < 2 ^ 53 ->
  repr (Math_max u v) (Z.max a b).
Proof.
  intros Ru Rv Ba Bb. unfold Math_max.
  rewrite (repr_not_nan u a Ru Ba), (repr_not_nan v b Rv Bb). simpl.
  rewrite (lt_repr u v a b), (lt_repr v u b a) by assumption.
  destruct (Z.ltb_spec a b); [now replace (Z.max a b) with b by lia|].
  destruct (Z.ltb_spec b a); [now replace (Z.max a b) with a by lia|].
  assert (a = b) by lia. subst b. replace (Z.max a a) with a by lia.
  destruct u as [[]| | |]; assumption.
Qed.

Lemma Math_min_repr (u v : number) (a b : Z) :
  repr u a -> repr v b -> Z.abs a < 2 ^ 53 -> Z.abs b < 2 ^ 53 ->
  repr (Math_min u v) (Z.min a b).
Proof.
  intros Ru Rv Ba Bb. unfold Math_min.
  rewrite (repr_not_nan u a Ru Ba), (repr_not_nan v b Rv Bb). simpl.
  rewrite (lt_repr u v a b), (lt_repr v u b a) by assumption.
  destruct (Z.ltb_spec a b); [now replace (Z.min a b) with a by lia|].
  destruct (Z.ltb_spec b a); [now replace (Z.min a b) with b by lia|].
  assert (a = b) by lia. subst b. replace (Z.min a a) with a by lia.
  destruct u as [[]| | |]; assumption.
Qed.

(** The smallest and the largest of a list of small integers are among
    them. *)
Lemma min_list_small (vs : list number) (v : number) :
  Forall (fun d => small_integer d = true) vs -> v ∈ vs ->
  (Math_min_list vs <= v)%js = true /\ small_integer (Math_min_list vs) = true.
Proof.
  intros Hall Hin.
  assert (Hnn : Forall (fun d => isNaN d = false) vs).
  { eapply Forall_impl; [exact Hall|]. intros d. apply small_integer_not_nan. }
  destruct (fold_min_spec vs Infinity eq_refl Hnn) as [_ [_ [Hlow Hmin]]].
  fold (Math_min_list vs) in Hlow, Hmin.
  assert (Hmv : (Math_min_list vs <= v)%js = true).
  { eapply List.Forall_forall in Hlow; [exact Hlow|]. now apply list_elem_of_In. }
  split; [exact Hmv|].
  destruct Hmin as [E|E].
  - rewrite E in Hmv.
    assert (Hv : small_integer v = true).
    { eapply List.Forall_forall in Hall; [exact Hall|]. now apply list_elem_of_In. }
    destruct v as [|[]| |]; discriminate.
  - eapply List.Forall_forall in Hall; [exact Hall|]. now apply list_elem_of_In.
Qed.

Lemma max_list_small (vs : list number) (v : number) :
  Forall (fun d => small_integer d = true) vs -> v ∈ vs ->
  (v <= Math_max_list vs)%js = true /\ small_integer (Math_max_list vs) = true.
Proof.
  intros Hall Hin.
  assert (Hnn : Forall (fun d => isNaN d = false) vs).
  { eapply Forall_impl; [exact Hall|]. intros d. apply small_integer_not_nan. }
  destruct (fold_max_spec vs (S754_infinity true) eq_refl Hnn) as [_ [_ [Hup Hmax]]].
  fold (Math_max_list vs) in Hup, Hmax.
  assert (HvM : (v <= Math_max_list vs)%js = true).
  { eapply List.Forall_forall in Hup; [exact Hup|]. now apply list_elem_of_In. }
  split; [exact HvM|].
  destruct Hmax as [E|E].
  - rewrite E in HvM.
    assert (Hv : small_integer v = true).
    { eapply List.Forall_forall in Hall; [exact Hall|]. now apply list_elem_of_In. }
    destruct v as [|[]| |]; discriminate.
  - eapply List.Forall_forall in Hall; [exact Hall|]. now apply list_elem_of_In.
Qed.

(** One axis of [fromPoints]: every coordinate lies between the minimum
    [m] and the far edge [m + (M - m)]. *)
Lemma axis_contains (vs : list number) (v : number) :
  Forall (fun d => small_integer d = true) vs -> v ∈ vs ->
  let m := Math_min_list vs in
  let M := Math_max_list vs in
  (m <= v)%js = true /\ (v <= m + (M - m))%js = true.
Proof.
  intros Hall Hin m M.
  destruct (min_list_small vs v Hall Hin) as [Hmv Sm].
  destruct (max_list_small vs v Hall Hin) as [HvM SM].
  fold m in Hmv, Sm. fold M in HvM, SM.
  destruct (small_integer_repr m Sm) as [a [Ba Ra]].
  destruct (small_integer_repr M SM) as [b [Bb Rb]].
  pose proof (repr_sub M m b a Rb Ra Bb Ba) as Rw.
  assert (Rf : repr (m + (M - m))%js (a + (b - a))).
  { apply repr_add; try assumption; lia. }
  replace (a + (b - a)) with b in Rf by lia.
  split; [exact Hmv|].
  unfold le, SFleb in *. now rewrite (repr_compare_r _ M v b Rf Rb).
Qed.

(** One axis of [merge]: [los] are the near edges and [his] the far edges
    of the rectangles. *)
Lemma merge_axis (los his : list number) (lo hi : number) :
  Forall (fun d => small_integer d = true) los ->
  Forall (fun d => small_integer d = true) his ->
  lo ∈ los -> hi ∈ his -> (lo <= hi)%js = true ->
  let m := Math_min_list los in
  let M := Math_max_list his in
  let x' := Math_min_list [m; M] in
  let far := (x' + (Math_max_list [m; M] - x'))%js in
  (x' <= lo)%js = true /\ (lo <= far)%js = true
  /\ (x' <= hi)%js = true /\ (hi <= far)%js = true.
Proof.
  intros Hlos Hhis Hlo Hhi Hle m M x' far.
  destruct (min_list_small los lo Hlos Hlo) as [Hmlo Sm].
  destruct (max_list_small his hi Hhis Hhi) as [HhiM SM].
  fold m in Hmlo, Sm. fold M in HhiM, SM.
  assert (Hboth : Forall (fun d => small_integer d = true) [m; M])
    by (repeat constructor; assumption).
  destruct (axis_contains [m; M] m Hboth) as [A1 A2];
    [apply list_elem_of_lookup_2 with 0%nat; reflexivity|].
  destruct (axis_contains [m; M] M Hboth) as [A3 A4];
    [apply list_elem_of_lookup_2 with 1%nat; reflexivity|].
  fold x' in A1, A2, A3, A4. fold far in A2, A4.
  pose proof (le_trans _ _ _ A1 Hmlo) as C1.
  pose proof (le_trans _ _ _ HhiM A4) as C4.
  split; [exact C1|]. split; [exact (le_trans _ _ _ Hle C4)|].
  split; [exact (le_trans _ _ _ C1 Hle)|exact C4].
Qed.

(** The one-dimensional check in the words of the specification: the
    interval from [lo1] to [hi1] and the interval from [lo2] to [hi2]
    overlap when each begins before the other ends. *)
Definition intervals_overlap (lo1 hi1 lo2 hi2 : number) : bool :=
  (lo1 < hi2)%js && (lo2 < hi1)%js.

(** On integers the check holds exactly when the later start lies before
    the earlier end, that is, when the two intervals have a common part of
    positive length. *)
Lemma intervals_overlap_integers (x1 w1 x2 w2 : Z) :
  Z.abs x1 < 2 ^ 52 -> Z.abs (x1 + w1) < 2 ^ 52 ->
  Z.abs x2 < 2 ^ 52 -> Z.abs (x2 + w2) < 2 ^ 52 ->
  intervals_overlap (of_Z x1) (of_Z x1 + of_Z w1)%js (of_Z x2) (of_Z x2 + of_Z w2)%js
  = (x1 <? x2 + w2) && (x2 <? x1 + w1).
Proof.
  intros B1 B1' B2 B2'. pose proof pow_52_53 as P.
  assert (P2 : 2 ^ 53 = 2 * 2 ^ 52) by reflexivity.
  pose proof (repr_add _ _ x1 w1 (repr_of_Z x1) (repr_of_Z w1)
                ltac:(lia) ltac:(lia) ltac:(lia)) as R1.
  pose proof (repr_add _ _ x2 w2 (repr_of_Z x2) (repr_of_Z w2)
                ltac:(lia) ltac:(lia) ltac:(lia)) as R2.
  unfold intervals_overlap.
  rewrite (lt_repr _ _ x1 (x2 + w2) (repr_of_Z x1) R2) by lia.
  rewrite (lt_repr _ _ x2 (x1 + w1) (repr_of_Z x2) R1) by lia.
  reflexivity.
Qed.

Lemma axis_overlap (xa Xa xb Xb : Z) :
  xa < Xa -> xb < Xb ->
  (xa <? Xb) && (xb <? Xa) = (0 <? Z.min Xa Xb - Z.max xa xb).
Proof.
  intros Ha Hb.
  destruct (Z.ltb_spec xa Xb), (Z.ltb_spec xb Xa),
    (Z.ltb_spec 0 (Z.min Xa Xb - Z.max xa xb)); simpl; try reflexivity; lia.
Qed.

(** One axis of [intersection] on the grid: the extent is positive exactly
    when the two intervals overlap. *)
Lemma axis_intersection (x1 X1 x2 X2 : number) :
  small_integer x1 = true -> small_integer X1 = true ->
  small_integer x2 = true -> small_integer X2 = true ->
  (x1 < X1)%js = true -> (x2 < X2)%js = true ->
  (#0 < Math_min X1 X2 - Math_max x1 x2)%js = ((x1 < X2)%js && (x2 < X1)%js).
Proof.
  intros S1 S2 S3 S4 L1 L2.
  destruct (small_integer_repr _ S1) as [a [Ba Ra]].
  destruct (small_integer_repr _ S2) as [A [BA RA]].
  destruct (small_integer_repr _ S3) as [b [Bb Rb]].
  destruct (small_integer_repr _ S4) as [B [BB RB]].
  rewrite (lt_repr x1 X1 a A Ra RA) in L1 by lia. apply Z.ltb_lt in L1.
  rewrite (lt_repr x2 X2 b B Rb RB) in L2 by lia. apply Z.ltb_lt in L2.
  rewrite (lt_repr x1 X2 a B Ra RB), (lt_repr x2 X1 b A Rb RA) by lia.
  pose proof (Math_max_repr x1 x2 a b Ra Rb ltac:(lia) ltac:(lia)) as Rmax.
  pose proof (Math_min_repr X1 X2 A B RA RB ltac:(lia) ltac:(lia)) as Rmin.
  pose proof (repr_sub _ _ _ _ Rmin Rmax ltac:(lia) ltac:(lia)) as Rsub.
  rewrite (lt_repr (of_Z 0) _ 0 _ (repr_of_Z 0) Rsub) by lia.
  symmetry. now apply axis_overlap.
Qed.

(** For overlapping intervals the result lies within the first one. *)
Lemma axis_within (x1 X1 x2 X2 : number) :
  small_integer x1 = true -> small_integer X1 = true ->
  small_integer x2 = true -> small_integer X2 = true ->
  (x1 < X2)%js = true -> (x2 < X1)%js = true ->
  (x1 < X1)%js = true -> (x2 < X2)%js = true ->
  let x' := Math_max x1 x2 in
  let far := (x' + (Math_min X1 X2 - x'))%js in
  (x1 <= x')%js = true /\ (x' <= X1)%js = true
  /\ (x1 <= far)%js = true /\ (far <= X1)%js = true.
Proof.
  intros S1 S2 S3 S4 L1 L2 L3 L4 x' far.
  destruct (small_integer_repr _ S1) as [a [Ba Ra]].
  destruct (small_integer_repr _ S2) as [A [BA RA]].
  destruct (small_integer_repr _ S3) as [b [Bb Rb]].
  destruct (small_integer_repr _ S4) as [B [BB RB]].
  rewrite (lt_repr x1 X2 a B Ra RB) in L1 by lia. apply Z.ltb_lt in L1.
  rewrite (lt_repr x2 X1 b A Rb RA) in L2 by lia. apply Z.ltb_lt in L2.
  rewrite (lt_repr x1 X1 a A Ra RA) in L3 by lia. apply Z.ltb_lt in L3.
  rewrite (lt_repr x2 X2 b B Rb RB) in L4 by lia. apply Z.ltb_lt in L4.
  pose proof (Math_max_repr x1 x2 a b Ra Rb ltac:(lia) ltac:(lia)) as Rmax.
  fold x' in Rmax.
  pose proof (Math_min_repr X1 X2 A B RA RB ltac:(lia) ltac:(lia)) as Rmin.
  pose proof (repr_sub _ _ _ _ Rmin Rmax ltac:(lia) ltac:(lia)) as Rsub.
  pose proof (repr_add _ _ _ _ Rmax Rsub ltac:(lia) ltac:(lia) ltac:(lia)) as Rfar.
  fold far in Rfar.
  rewrite (le_repr x1 x' _ _ Ra Rmax), (le_repr x' X1 _ _ Rmax RA),
    (le_repr x1 far _ _ Ra Rfar), (le_repr far X1 _ _ Rfar RA) by lia.
  repeat split; apply Z.leb_le; lia.
Qed.

End IntegerFacts.

(** ** Points *)

Module PointMoreProps.

Import JS JSFacts OrderFacts ListFacts CGPoint.

(** X1.  The two-point functions do not depend on the order of the two
    points: [CGPoint.distance(a, b)] is [CGPoint.distance(b, a)] and
    [CGPoint.center(a, b)] is [CGPoint.center(b, a)], bit for bit and for
    all numbers (NaN, the infinities and the zeros included); hence the
    [length] of a line is the length of the reversed line. *)
Theorem distance_symmetric (a b : CGPointValue) :
  distance a b = distance b a
  /\ center a b = center b a
  /\ Line.length (Line.mk a b) = Line.length (Line.mk b a).
Proof.
  assert (H : distance a b = distance b a).
  { unfold distance. now rewrite (abs_sub_comm (x a)), (abs_sub_comm (y a)). }
  split; [exact H|]. split; [|exact H].
  unfold center. now rewrite (add_comm (x a)), (add_comm (y a)).
Qed.

(** X2.  [CGPoint.closest(...points)(q)].  The result is [undefined]
    exactly when there is no candidate or the distance from some candidate
    to [q] is NaN.  Otherwise it is a candidate whose distance to [q] is
    less than or equal to that of every candidate, and among the
    candidates at that distance it is the first one of the argument
    list. *)
Theorem closest_spec (points : list CGPointValue) (q : CGPointValue) :
  match closest points q with
  | None =>
      points = [] \/ exists p, p ∈ points /\ isNaN (distance p q) = true
  | Some p =>
      exists i, points !! i = Some p
        /\ (forall p', p' ∈ points -> (distance p q <= distance p' q) = true)
        /\ (forall j p', (j < i)%nat -> points !! j = Some p' ->
              (distance p' q === distance p q) = false)
  end.
Proof.
  unfold closest.
  set (f := fun point => distance point q).
  set (ds := map f points).
  destruct (existsb isNaN ds) eqn:Hnan.
  - (* some distance is NaN *)
    apply existsb_exists in Hnan as [d [Hin Hd]].
    assert (Hex : Exists (fun d => isNaN d = true) ds)
      by (apply List.Exists_exists; eauto).
    unfold Math_min_list. rewrite (fold_min_nan ds _ Hex), indexOf_nan.
    right. apply List.in_map_iff in Hin as [p [Hp Hin]].
    exists p. split; [now apply list_elem_of_In|]. subst d. exact Hd.
  - assert (Hall : Forall (fun d => isNaN d = false) ds).
    { apply List.Forall_forall. intros d Hin.
      destruct (isNaN d) eqn:E; [|reflexivity].
      assert (existsb isNaN ds = true) by (apply existsb_exists; eauto).
      congruence. }
    assert (Hcases : points = [] \/ ds <> [])
      by (unfold ds; destruct points; [now left|now right]).
    destruct Hcases as [->|Hne]; [now left|].
    destruct (min_list_found ds Hne Hall) as [i Hi]. rewrite Hi.
    destruct (indexOf_Some _ _ _ Hi) as [d [Hl [He Hfirst]]].
    unfold ds in Hl. rewrite lookup_map in Hl.
    destruct (points !! i) as [p|] eqn:Hp; [|discriminate].
    simpl in Hl. injection Hl as Hd.
    simpl. exists i. split; [exact Hp|].
    destruct (fold_min_spec ds Infinity eq_refl Hall) as [_ [_ [Hlow _]]].
    fold (Math_min_list ds) in Hlow.
    fold (f p). rewrite Hd. split.
    + intros p' Hin. fold (f p').
      eapply le_trans; [now apply strict_eq_le; exact He|].
      eapply List.Forall_forall in Hlow; [exact Hlow|].
      apply List.in_map. now apply list_elem_of_In.
    + intros j p' Hj Hp'. fold (f p').
      assert (Hdj : ds !! j = Some (f p'))
        by (unfold ds; now rewrite lookup_map, Hp').
      specialize (Hfirst j (f p') Hj Hdj).
      apply strict_eq_compare in He.
      unfold strict_eq, SFeqb in *. now rewrite (compare_eq_r _ _ (f p') He).
Qed.

Lemma negate_involutive (p : CGPointValue) : negate (negate p) = p.
Proof. destruct p as [px py]. unfold negate. simpl. now rewrite !neg_involutive. Qed.

(** X3.  [p.negate().negate()] on a live instance returns the same
    instance and leaves the whole store as it was: negating twice restores
    both coordinates exactly, whatever numbers they are. *)
Theorem negate_twice_restores (h : store) (this : ref) (p : CGPointValue) :
  h !! this = Some p ->
  (negate_at this h ≫= fun '(same, h1) => negate_at same h1) = Some (this, h).
Proof.
  intros H. rewrite (PointProps.negate_at_spec h this p H). simpl.
  rewrite (PointProps.negate_at_spec _ this (negate p)) by apply lookup_insert_eq.
  rewrite insert_insert_eq, negate_involutive. now rewrite insert_id.
Qed.

(** A store with the two end points (5, 7) and (2, 3) of a line. *)
Definition end_points : store :=
  <[1%positive := {| x := #5; y := #7 |}]> (<[2%positive := {| x := #2; y := #3 |}]> ∅).

Lemma negate_twice_restores_witness :
  (negate_at 1%positive end_points
     ≫= fun '(same, h1) => negate_at same h1) = Some (1%positive, end_points).
Proof.
  apply (negate_twice_restores end_points 1%positive {| x := #5; y := #7 |}).
  reflexivity.
Defined.

(** X4.  [CGPoint.isEqual] is symmetric and transitive; a point is equal
    to itself exactly when neither coordinate is NaN; the point (0, 0) is
    equal to (-0, -0).  [CGRect.isEqual], which combines it with
    [CGSize.isEqual], is symmetric too, and is [false] as soon as one
    argument is [undefined]. *)
Theorem isEqual_is_a_partial_equivalence (a b c : CGPointValue) :
  isEqual a b = isEqual b a
  /\ (isEqual a b = true -> isEqual b c = true -> isEqual a c = true)
  /\ isEqual a a = negb (isNaN (x a) || isNaN (y a))
  /\ isEqual {| x := #0; y := #0 |} {| x := - #0; y := - #0 |} = true
  /\ (forall r1 r2 : CGRect.CGRect,
        CGRect.isEqual (Some r1) (Some r2) = CGRect.isEqual (Some r2) (Some r1))
  /\ (forall r : option CGRect.CGRect,
        CGRect.isEqual None r = false /\ CGRect.isEqual r None = false).
Proof.
  unfold isEqual. split; [|split; [|split; [|split; [|split]]]].
  - now rewrite (strict_eq_sym (x a)), (strict_eq_sym (y a)).
  - intros H1 H2. apply andb_true_iff in H1 as [X1 Y1].
    apply andb_true_iff in H2 as [X2 Y2].
    now rewrite (strict_eq_trans _ _ _ X1 X2), (strict_eq_trans _ _ _ Y1 Y2).
  - rewrite !strict_eq_self. now destruct (isNaN _), (isNaN _).
  - reflexivity.
  - intros r1 r2. unfold CGRect.isEqual, isEqual, CGSize.isEqual.
    now rewrite (strict_eq_sym (x _)), (strict_eq_sym (y _)),
      (strict_eq_sym (CGSize.width _)), (strict_eq_sym (CGSize.height _)).
  - intros r. split; [reflexivity|now destruct r].
Qed.

End PointMoreProps.

(** ** Lines *)

Module LineMoreProps.

Import JS JSFacts OrderFacts CGPoint.

(** The point [p] moved by [(dx, dy)]. *)
Definition moved (dx dy : number) (p : CGPointValue) : CGPointValue :=
  {| x := x p + dx; y := y p + dy |}.

Lemma shift_point_spec (h : store) (p : ref) (dx dy : number) (a : CGPointValue) :
  h !! p = Some a ->
  CGLine.shift_point p dx dy h = Some (<[p := moved dx dy a]> h).
Proof.
  intros H. unfold CGLine.shift_point. rewrite H. simpl.
  rewrite lookup_insert_eq. simpl. now rewrite insert_insert_eq.
Qed.

(** X5.  A clone of a [CGLine] shares the two end points of the original:
    [line.clone().shift({dx, dy})] moves the end points of [line] itself
    by [(dx, dy)] and touches no other instance.  A line whose [start] and
    [end] are one and the same instance has that point moved twice. *)
Theorem shift_of_a_clone_moves_the_original
    (l : CGLine.CGLine) (dx dy : number) (h : store) (a b : CGPointValue) :
  h !! CGLine.start l = Some a -> h !! CGLine.end_ l = Some b ->
  exists h',
    CGLine.shift dx dy (CGLine.clone l) h = Some (CGLine.clone l, h')
    /\ (CGLine.start l <> CGLine.end_ l ->
          h' !! CGLine.start l = Some (moved dx dy a)
          /\ h' !! CGLine.end_ l = Some (moved dx dy b))
    /\ (CGLine.start l = CGLine.end_ l ->
          h' !! CGLine.start l = Some (moved dx dy (moved dx dy a)))
    /\ (forall r, r <> CGLine.start l -> r <> CGLine.end_ l -> h' !! r = h !! r).
Proof.
  intros Ha Hb. destruct l as [s e]. simpl in *.
  unfold CGLine.shift, CGLine.clone. simpl.
  rewrite (shift_point_spec h s dx dy a Ha). simpl.
  destruct (decide (s = e)) as [->|Hne].
  - rewrite (shift_point_spec _ e dx dy (moved dx dy a)) by apply lookup_insert_eq.
    simpl. eexists. split; [reflexivity|]. split; [congruence|]. split.
    + intros _. apply lookup_insert_eq.
    + intros r Hr _. now rewrite !lookup_insert_ne by congruence.
  - rewrite (shift_point_spec _ e dx dy b)
      by (rewrite lookup_insert_ne by congruence; exact Hb).
    simpl. eexists. split; [reflexivity|]. split; [|split].
    + intros _. split.
      * rewrite lookup_insert_ne by congruence. apply lookup_insert_eq.
      * apply lookup_insert_eq.
    + congruence.
    + intros r Hr1 Hr2. now rewrite !lookup_insert_ne by congruence.
Qed.

Lemma shift_of_a_clone_moves_the_original_witness :
  exists h',
    CGLine.shift #10 #20 (CGLine.clone (CGLine.mk 1 2)) PointMoreProps.end_points
      = Some (CGLine.clone (CGLine.mk 1 2), h')
    /\ h' !! 1%positive = Some {| x := #15; y := #27 |}.
Proof.
  destruct (shift_of_a_clone_moves_the_original (CGLine.mk 1 2) #10 #20
              PointMoreProps.end_points
              {| x := #5; y := #7 |} {| x := #2; y := #3 |})
    as [h' [H1 [H2 _]]]; [reflexivity|reflexivity|].
  exists h'. split; [exact H1|]. apply H2. discriminate.
Defined.

(** X6.  [line.project(point)] is [null] when the line has no extent (its
    [start] and [end] have the same coordinates) and all coordinates are
    finite: the perpendicular through the point degenerates and the
    determinant that [Line.intersection] tests is a zero. *)
Theorem project_on_a_degenerate_line (a p : CGPointValue) :
  isFinite (x a) && isFinite (y a) && isFinite (x p) && isFinite (y p) = true ->
  Line.project p (Line.mk a a) = None.
Proof.
  intros H. apply andb_true_iff in H as [H Fpy]. apply andb_true_iff in H as [H Fpx].
  apply andb_true_iff in H as [Fax Fay].
  unfold Line.project, Line.perpendicularLine, Line.intersection.
  cbn [Line.start Line.end_ x y].
  rewrite (sub_self _ Fax), (sub_self _ Fay).
  destruct (sub_add_zero _ Fpy) as [s1 ->].
  destruct (sub_sub_zero _ Fpx) as [s2 ->].
  now destruct s1, s2.
Qed.

Lemma project_on_a_degenerate_line_witness :
  Line.project {| x := #3; y := #4 |}
    (Line.mk {| x := #1; y := #1 |} {| x := #1; y := #1 |})
  = None.
Proof.
  apply (project_on_a_degenerate_line {| x := #1; y := #1 |} {| x := #3; y := #4 |}).
  reflexivity.
Defined.

End LineMoreProps.

(** ** Sizes *)

Module SizeMoreProps.

Import JS JSFacts OrderFacts.

(** X7.  [shortestSide] and [longestSide]: when the width or the height
    is NaN both are NaN; otherwise each is the width or the height,
    [shortestSide] is less than or equal to both dimensions and
    [longestSide] is greater than or equal to both. *)
Theorem sides_ordered (s : CGSize.CGSizeValue) :
  let w := CGSize.width s in
  let h := CGSize.height s in
  (isNaN w || isNaN h = true ->
     CGSize.shortestSide s = NaN /\ CGSize.longestSide s = NaN)
  /\ (isNaN w || isNaN h = false ->
     (CGSize.shortestSide s = w \/ CGSize.shortestSide s = h)
     /\ (CGSize.longestSide s = w \/ CGSize.longestSide s = h)
     /\ (CGSize.shortestSide s <= w) = true
     /\ (CGSize.shortestSide s <= h) = true
     /\ (w <= CGSize.longestSide s) = true
     /\ (h <= CGSize.longestSide s) = true).
Proof.
  intros w h. unfold CGSize.shortestSide, CGSize.longestSide. fold w h. split.
  - intros H. unfold Math_min, Math_max. now rewrite H.
  - intros H. apply orb_false_iff in H as [Hw Hh].
    split; [now apply Math_min_cases|]. split; [now apply Math_max_cases|].
    split; [now apply Math_min_le_l|]. split; [now apply Math_min_le_r|].
    split; [now apply Math_max_ge_l|now apply Math_max_ge_r].
Qed.

(** X8.  [flip()] twice restores the size, and a flipped size has the same
    [longestSide], the same [shortestSide] and the same [isEmpty] as the
    original, for all numbers. *)
Theorem flip_invariants (s : CGSize.CGSizeValue) :
  CGSize.flip (CGSize.flip s) = s
  /\ CGSize.longestSide (CGSize.flip s) = CGSize.longestSide s
  /\ CGSize.shortestSide (CGSize.flip s) = CGSize.shortestSide s
  /\ CGSize.isEmpty (CGSize.flip s) = CGSize.isEmpty s.
Proof.
  destruct s as [w h]. split; [reflexivity|]. split; [apply Math_max_comm|].
  split; [apply Math_min_comm|apply andb_comm].
Qed.

End SizeMoreProps.

(** ** Rectangles *)

Module RectMoreProps.

Import JS JSFacts DoubleFacts OrderFacts ListFacts IntegerFacts.

Ltac destruct_comparisons :=
  repeat match goal with
         | |- context [SFltb ?u ?v] => destruct (SFltb u v)
         end.

Lemma intersects_comm (a b : CGRect.CGRect) :
  CGRect.intersects a b = CGRect.intersects b a.
Proof. unfold CGRect.intersects, gt, lt. destruct_comparisons; reflexivity. Qed.

Lemma intersection_comm (a b : CGRect.CGRect) :
  CGRect.intersection a b = CGRect.intersection b a.
Proof.
  unfold CGRect.intersection.
  now rewrite (Math_max_comm (CGRect.x a)), (Math_max_comm (CGRect.y a)),
    (Math_min_comm (CGRect.x a + _)), (Math_min_comm (CGRect.y a + _)).
Qed.

(** X9.  The two-rectangle functions do not depend on which rectangle
    comes first: [CGRect.intersects], [CGRect.overlaps] and the
    [intersects] of the flat [Rect] are symmetric, and
    [CGRect.intersection(a, b)] is [CGRect.intersection(b, a)], field by
    field and bit for bit, for all numbers. *)
Theorem intersects_symmetric (a b : CGRect.CGRect) (c d : Rect.Rect) :
  CGRect.intersects a b = CGRect.intersects b a
  /\ CGRect.overlaps a b = CGRect.overlaps b a
  /\ Rect.intersects c d = Rect.intersects d c
  /\ CGRect.intersection a b = CGRect.intersection b a.
Proof.
  split; [apply intersects_comm|].
  split; [|split; [|apply intersection_comm]];
    unfold CGRect.overlaps, CGRect.overlapsHorizontally,
      CGRect.overlapsVertically, Rect.intersects, gt, lt;
    destruct_comparisons; reflexivity.
Qed.

(** X10.  The comparisons of [intersects] are strict: two rectangles of
    which one ends where the other begins ([a.maxX <= b.x], or
    [a.maxY <= b.y]) do not intersect, in either order. *)
Theorem touching_rects_do_not_intersect (a b : CGRect.CGRect) :
  (CGRect.maxX a <= CGRect.x b) = true \/ (CGRect.maxY a <= CGRect.y b) = true ->
  CGRect.intersects a b = false /\ CGRect.intersects b a = false.
Proof.
  intros H. unfold CGRect.intersects, gt, lt.
  destruct H as [H|H]; apply le_not_gt in H; unfold lt in H; rewrite H;
    split; destruct_comparisons; reflexivity.
Qed.

Definition box_0_0_10_10 : CGRect.CGRect := CGRect.create #0 #0 #10 #10.
Definition box_10_0_10_10 : CGRect.CGRect := CGRect.create #10 #0 #10 #10.
Definition box_5_5_10_10 : CGRect.CGRect := CGRect.create #5 #5 #10 #10.
Definition box_50_20_5_5 : CGRect.CGRect := CGRect.create #50 #20 #5 #5.

Lemma touching_rects_do_not_intersect_witness :
  CGRect.intersects box_0_0_10_10 box_10_0_10_10 = false
  /\ CGRect.intersects box_10_0_10_10 box_0_0_10_10 = false.
Proof.
  apply (touching_rects_do_not_intersect box_0_0_10_10 box_10_0_10_10).
  left. vm_compute; reflexivity.
Defined.

(** A rectangle on the pixel grid: its origin and its far corner are
    integers of magnitude below 2^52; [pixel_rect] asks in addition for a
    positive width and a positive height. *)
Definition on_grid (r : CGRect.CGRect) : bool :=
  small_integer (CGRect.x r) && small_integer (CGRect.y r)
  && small_integer (CGRect.maxX r) && small_integer (CGRect.maxY r).

Definition pixel_rect (r : CGRect.CGRect) : bool :=
  on_grid r && (CGRect.x r < CGRect.maxX r) && (CGRect.y r < CGRect.maxY r).

Lemma pixel_rect_inv (xa ya wa ha : number) :
  pixel_rect (CGRect.create xa ya wa ha) = true ->
  (small_integer xa = true /\ small_integer (xa + wa) = true /\ (xa < xa + wa) = true)
  /\ (small_integer ya = true /\ small_integer (ya + ha) = true /\ (ya < ya + ha) = true).
Proof.
  unfold pixel_rect, on_grid, CGRect.create, CGRect.maxX, CGRect.maxY,
    CGRect.width, CGRect.height, CGRect.x, CGRect.y.
  cbn [CGRect.origin CGRect.size CGPoint.x CGPoint.y CGSize.width CGSize.height].
  intros H.
  apply andb_true_iff in H as [H L2]. apply andb_true_iff in H as [H L1].
  apply andb_true_iff in H as [H S4]. apply andb_true_iff in H as [H S3].
  apply andb_true_iff in H as [S1 S2]. auto.
Qed.

(** X11.  For two rectangles on the pixel grid with positive width and
    height, [intersects] says exactly whether their [intersection] has a
    positive width and a positive height (rectangles that do not
    intersect yield a width or a height that is zero or negative). *)
Theorem intersects_iff_intersection_has_area (a b : CGRect.CGRect) :
  pixel_rect a = true -> pixel_rect b = true ->
  CGRect.intersects a b
  = (#0 < CGRect.width (CGRect.intersection a b))
    && (#0 < CGRect.height (CGRect.intersection a b)).
Proof.
  destruct a as [[xa ya] [wa ha]], b as [[xb yb] [wb hb]].
  intros Ha Hb.
  destruct (pixel_rect_inv _ _ _ _ Ha) as [[Sa1 [Sa3 La1]] [Sa2 [Sa4 La2]]].
  destruct (pixel_rect_inv _ _ _ _ Hb) as [[Sb1 [Sb3 Lb1]] [Sb2 [Sb4 Lb2]]].
  unfold CGRect.intersects, CGRect.intersection, CGRect.create,
    CGRect.maxX, CGRect.maxY, CGRect.width, CGRect.height, CGRect.x, CGRect.y, gt.
  cbn [CGRect.origin CGRect.size CGPoint.x CGPoint.y CGSize.width CGSize.height].
  rewrite (axis_intersection _ _ _ _ Sa1 Sa3 Sb1 Sb3 La1 Lb1).
  rewrite (axis_intersection _ _ _ _ Sa2 Sa4 Sb2 Sb4 La2 Lb2).
  unfold lt. destruct_comparisons; reflexivity.
Qed.

Lemma intersects_iff_intersection_has_area_witness :
  CGRect.intersects box_0_0_10_10 box_5_5_10_10
  = (#0 < CGRect.width (CGRect.intersection box_0_0_10_10 box_5_5_10_10))
    && (#0 < CGRect.height (CGRect.intersection box_0_0_10_10 box_5_5_10_10)).
Proof.
  apply (intersects_iff_intersection_has_area box_0_0_10_10 box_5_5_10_10);
    vm_compute; reflexivity.
Defined.

(** C6.  [overlaps(a, b)] is true exactly when the boxes overlap on the X
    axis or on the Y axis, each axis tested on its own as a one-dimensional
    interval check between the near edge and the far edge
    ([x] and [x + width], [y] and [y + height]); [intersects(a, b)] is
    true exactly when they overlap on both axes, so it implies
    [overlaps].  On integer coordinates the axis check holds exactly when
    the later start lies before the earlier end.  The relation is strictly
    looser than [intersects]: [left_box] and [below_box] overlap on the X
    axis only, [left_box] and [beside_box] on the Y axis only; for both
    pairs [overlaps] is [true] and [intersects] is [false]. *)
Theorem overlaps_looser_than_intersects :
  (forall x1 y1 w1 h1 x2 y2 w2 h2 : number,
      let a := CGRect.create x1 y1 w1 h1 in
      let b := CGRect.create x2 y2 w2 h2 in
      let on_x := intervals_overlap x1 (x1 + w1) x2 (x2 + w2) in
      let on_y := intervals_overlap y1 (y1 + h1) y2 (y2 + h2) in
      CGRect.overlapsHorizontally a b = on_x
      /\ CGRect.overlapsVertically a b = on_y
      /\ CGRect.overlaps a b = on_x || on_y
      /\ CGRect.intersects a b = on_x && on_y)
  /\ (forall a b : CGRect.CGRect,
         CGRect.intersects a b = true -> CGRect.overlaps a b = true)
  /\ (forall x1 w1 x2 w2 : Z,
         (Z.abs x1 < 2 ^ 52)%Z -> (Z.abs (x1 + w1) < 2 ^ 52)%Z ->
         (Z.abs x2 < 2 ^ 52)%Z -> (Z.abs (x2 + w2) < 2 ^ 52)%Z ->
         (0 < w1)%Z -> (0 < w2)%Z ->
         intervals_overlap #x1 (#x1 + #w1) #x2 (#x2 + #w2)
         = (Z.max x1 x2 <? Z.min (x1 + w1) (x2 + w2))%Z)
  /\ (CGRect.overlapsHorizontally RectProps.left_box RectProps.below_box = true
      /\ CGRect.overlapsVertically RectProps.left_box RectProps.below_box = false
      /\ CGRect.overlaps RectProps.left_box RectProps.below_box = true
      /\ CGRect.intersects RectProps.left_box RectProps.below_box = false)
  /\ (CGRect.overlapsHorizontally RectProps.left_box RectProps.beside_box = false
      /\ CGRect.overlapsVertically RectProps.left_box RectProps.beside_box = true
      /\ CGRect.overlaps RectProps.left_box RectProps.beside_box = true
      /\ CGRect.intersects RectProps.left_box RectProps.beside_box = false).
Proof.
  assert (E : forall x1 y1 w1 h1 x2 y2 w2 h2 : number,
      let a := CGRect.create x1 y1 w1 h1 in
      let b := CGRect.create x2 y2 w2 h2 in
      let on_x := intervals_overlap x1 (x1 + w1) x2 (x2 + w2) in
      let on_y := intervals_overlap y1 (y1 + h1) y2 (y2 + h2) in
      CGRect.overlapsHorizontally a b = on_x
      /\ CGRect.overlapsVertically a b = on_y
      /\ CGRect.overlaps a b = on_x || on_y
      /\ CGRect.intersects a b = on_x && on_y).
  { intros. unfold on_x, on_y, a, b, intervals_overlap, CGRect.overlaps,
      CGRect.overlapsHorizontally, CGRect.overlapsVertically, CGRect.intersects,
      CGRect.create, CGRect.maxX, CGRect.maxY, CGRect.width, CGRect.height,
      CGRect.x, CGRect.y, gt, lt.
    cbn [CGRect.origin CGRect.size CGPoint.x CGPoint.y CGSize.width CGSize.height].
    repeat split; destruct_comparisons; reflexivity. }
  split; [exact E|]. split; [|split; [|split]].
  - intros [[xa ya] [wa ha]] [[xb yb] [wb hb]] H.
    destruct (E xa ya wa ha xb yb wb hb) as [_ [_ [Ho Hi]]].
    unfold CGRect.create in Ho, Hi. rewrite Ho. rewrite Hi in H.
    apply andb_true_iff in H as [-> _]. reflexivity.
  - intros x1 w1 x2 w2 B1 B1' B2 B2' W1 W2.
    rewrite intervals_overlap_integers by assumption.
    destruct (Z.ltb_spec x1 (x2 + w2)), (Z.ltb_spec x2 (x1 + w1)),
      (Z.ltb_spec (Z.max x1 x2) (Z.min (x1 + w1) (x2 + w2)));
      simpl; try reflexivity; lia.
  - by_evaluation.
  - by_evaluation.
Qed.

(** The six guards of [containsPoint] pass when the point is within the
    four edges. *)
Lemma containsPoint_within (p : CGPoint.CGPointValue) (r : CGRect.CGRect) :
  (CGRect.minX r <= CGPoint.x p) = true -> (CGPoint.x p <= CGRect.maxX r) = true ->
  (CGRect.minY r <= CGPoint.y p) = true -> (CGPoint.y p <= CGRect.maxY r) = true ->
  CGRect.containsPoint p r = true.
Proof.
  intros X1 X2 Y1 Y2.
  pose proof (le_not_gt _ _ X1) as G1. pose proof (le_not_gt _ _ X2) as G2.
  pose proof (le_not_gt _ _ Y1) as G3. pose proof (le_not_gt _ _ Y2) as G4.
  destruct (le_not_nan _ _ X1) as [N1 _]. destruct (le_not_nan _ _ Y1) as [N2 _].
  unfold CGRect.containsPoint, gt, lt, CGRect.minX, CGRect.minY in *.
  now rewrite G1, G2, G3, G4, N1, N2.
Qed.

Lemma intersection_within_first (a b : CGRect.CGRect) :
  pixel_rect a = true -> pixel_rect b = true ->
  CGRect.intersects a b = true ->
  CGRect.containsRect (CGRect.intersection a b) a = true.
Proof.
  destruct a as [[xa ya] [wa ha]], b as [[xb yb] [wb hb]].
  intros Ha Hb.
  destruct (pixel_rect_inv _ _ _ _ Ha) as [[Sa1 [Sa3 La1]] [Sa2 [Sa4 La2]]].
  destruct (pixel_rect_inv _ _ _ _ Hb) as [[Sb1 [Sb3 Lb1]] [Sb2 [Sb4 Lb2]]].
  unfold CGRect.intersects, CGRect.maxX, CGRect.maxY,
    CGRect.width, CGRect.height, CGRect.x, CGRect.y, gt.
  cbn [CGRect.origin CGRect.size CGPoint.x CGPoint.y CGSize.width CGSize.height].
  intros Hi.
  apply andb_true_iff in Hi as [Hi I4]. apply andb_true_iff in Hi as [Hi I3].
  apply andb_true_iff in Hi as [I1 I2].
  destruct (axis_within _ _ _ _ Sa1 Sa3 Sb1 Sb3 I1 I3 La1 Lb1) as [X1 [X2 [X3 X4]]].
  destruct (axis_within _ _ _ _ Sa2 Sa4 Sb2 Sb4 I2 I4 La2 Lb2) as [Y1 [Y2 [Y3 Y4]]].
  unfold CGRect.containsRect, CGRect.cornerPoints. cbn [forallb].
  rewrite !containsPoint_within; try reflexivity; assumption.
Qed.

(** X12.  For two intersecting rectangles on the pixel grid with positive
    width and height, the [intersection] lies within both: each of the
    two rectangles contains it ([containsRect], all four corners). *)
Theorem intersection_lies_within_both (a b : CGRect.CGRect) :
  pixel_rect a = true -> pixel_rect b = true ->
  CGRect.intersects a b = true ->
  CGRect.containsRect (CGRect.intersection a b) a = true
  /\ CGRect.containsRect (CGRect.intersection a b) b = true.
Proof.
  intros Ha Hb Hi. split; [now apply intersection_within_first|].
  rewrite intersection_comm. apply intersection_within_first; try assumption.
  rewrite intersects_comm. exact Hi.
Qed.

Lemma intersection_lies_within_both_witness :
  CGRect.containsRect (CGRect.intersection box_0_0_10_10 box_5_5_10_10)
    box_0_0_10_10 = true
  /\ CGRect.containsRect (CGRect.intersection box_0_0_10_10 box_5_5_10_10)
    box_5_5_10_10 = true.
Proof.
  apply (intersection_lies_within_both box_0_0_10_10 box_5_5_10_10);
    vm_compute; reflexivity.
Defined.

(** A width or height that is not negative: NaN, or at least zero. *)
Definition not_negative (v : number) : Prop :=
  isNaN v = true \/ (#0 <= v) = true.

Lemma max_zero_not_negative (v : number) : not_negative (Math_max v #0).
Proof.
  unfold not_negative. destruct (isNaN v) eqn:Hv.
  - left. unfold Math_max. now rewrite Hv.
  - right. now apply Math_max_ge_r.
Qed.

(** X13.  [pixelAlign()] of both rectangle classes and [inset(factor)] of
    the flat [Rect] never produce a negative width or height: each is NaN
    or at least zero, whatever the rectangle and the factor. *)
Theorem extents_never_negative
    (r : CGRect.CGRect) (f : Rect.Rect) (factor : number) :
  not_negative (CGRect.width (CGRect.pixelAlign r))
  /\ not_negative (CGRect.height (CGRect.pixelAlign r))
  /\ not_negative (Rect.width (Rect.pixelAlign f))
  /\ not_negative (Rect.height (Rect.pixelAlign f))
  /\ not_negative (Rect.width (Rect.inset factor f))
  /\ not_negative (Rect.height (Rect.inset factor f)).
Proof.
  repeat split; simpl; try apply max_zero_not_negative;
    rewrite Math_max_comm; apply max_zero_not_negative.
Qed.

(** X14.  The distance from a rectangle to a point it contains is [+0],
    for both rectangle classes (with [CGPoint.zero] as it is created). *)
Theorem distanceFromPoint_inside (p : CGPoint.CGPointValue) (x y w h : number) :
  CGRect.containsPoint p (CGRect.create x y w h) = true ->
  CGRect.distanceFromPoint p (CGRect.create x y w h) = #0
  /\ Rect.containsPoint p (Rect.mk x y w h) = true
  /\ Rect.distanceFromPoint p (Rect.mk x y w h) = #0.
Proof.
  unfold CGRect.containsPoint, CGRect.distanceFromPoint, Rect.containsPoint,
    Rect.distanceFromPoint, CGRect.minX, CGRect.minY, CGRect.maxX, CGRect.maxY,
    Rect.minX, Rect.minY, Rect.maxX, Rect.maxY, CGRect.x, CGRect.y,
    CGRect.width, CGRect.height. simpl.
  destruct (CGPoint.x p < x); [discriminate|].
  destruct (CGPoint.x p > x + w); [discriminate|].
  destruct (CGPoint.y p < y); [discriminate|].
  destruct (CGPoint.y p > y + h); [discriminate|].
  intros H. repeat split; try exact H; vm_compute; reflexivity.
Qed.

Lemma distanceFromPoint_inside_witness :
  CGRect.distanceFromPoint {| CGPoint.x := #10; CGPoint.y := #25 |}
      (CGRect.create #0 #0 #20 #30) = #0
  /\ Rect.containsPoint {| CGPoint.x := #10; CGPoint.y := #25 |}
      (Rect.mk #0 #0 #20 #30) = true
  /\ Rect.distanceFromPoint {| CGPoint.x := #10; CGPoint.y := #25 |}
      (Rect.mk #0 #0 #20 #30) = #0.
Proof.
  apply (distanceFromPoint_inside {| CGPoint.x := #10; CGPoint.y := #25 |}
           #0 #0 #20 #30).
  vm_compute; reflexivity.
Defined.

(** X15.  [CGRect.fromPoints(...points)] contains every one of its
    arguments when all coordinates are integers of magnitude below
    2^52. *)
Theorem fromPoints_contains_its_points
    (points : list CGPoint.CGPointValue) (p : CGPoint.CGPointValue) :
  Forall (fun q => small_integer (CGPoint.x q) && small_integer (CGPoint.y q) = true)
         points ->
  p ∈ points ->
  CGRect.containsPoint p (CGRect.fromPoints points) = true.
Proof.
  intros Hall Hin.
  assert (Hx : Forall (fun d => small_integer d = true) (map CGPoint.x points)).
  { apply List.Forall_forall. intros d Hd.
    apply List.in_map_iff in Hd as [q [<- Hq]].
    eapply List.Forall_forall in Hall; [|exact Hq].
    now apply andb_true_iff in Hall. }
  assert (Hy : Forall (fun d => small_integer d = true) (map CGPoint.y points)).
  { apply List.Forall_forall. intros d Hd.
    apply List.in_map_iff in Hd as [q [<- Hq]].
    eapply List.Forall_forall in Hall; [|exact Hq].
    now apply andb_true_iff in Hall. }
  destruct (axis_contains _ (CGPoint.x p) Hx (elem_of_map _ _ _ Hin)) as [X1 X2].
  destruct (axis_contains _ (CGPoint.y p) Hy (elem_of_map _ _ _ Hin)) as [Y1 Y2].
  now apply containsPoint_within.
Qed.

Definition corner_points : list CGPoint.CGPointValue :=
  [ {| CGPoint.x := #0; CGPoint.y := #0 |};
    {| CGPoint.x := #10; CGPoint.y := #0 |};
    {| CGPoint.x := #10; CGPoint.y := #20 |};
    {| CGPoint.x := #0; CGPoint.y := #20 |} ].

Lemma fromPoints_contains_its_points_witness :
  CGRect.containsPoint {| CGPoint.x := #10; CGPoint.y := #20 |}
    (CGRect.fromPoints corner_points) = true.
Proof.
  apply (fromPoints_contains_its_points corner_points).
  - repeat (constructor; [vm_compute; reflexivity|]). constructor.
  - apply list_elem_of_lookup_2 with 2%nat. reflexivity.
Defined.

(** Off the integers the far edge [x + (max - x)] can fall short of the
    largest coordinate: the rectangle from (0.2, 0) and (0.9, 0) ends at
    0.8999999999999999 and does not contain (0.9, 0). *)
Definition decimal_points : list CGPoint.CGPointValue :=
  [ {| CGPoint.x := JSText.parseFloat "0.2"; CGPoint.y := #0 |};
    {| CGPoint.x := JSText.parseFloat "0.9"; CGPoint.y := #0 |} ].

Example fromPoints_misses_a_point :
  CGRect.containsPoint {| CGPoint.x := JSText.parseFloat "0.9"; CGPoint.y := #0 |}
    (CGRect.fromPoints decimal_points) = false
  /\ JSText.toString (CGRect.maxX (CGRect.fromPoints decimal_points))
     = "0.8999999999999999"%string.
Proof. by_evaluation. Qed.

(** X16.  [CGRect.merge(...rects)] contains each of its arguments
    ([containsRect], all four corners) when the rectangles are on the
    pixel grid and the argument has a width and a height that are not
    negative. *)
Theorem merge_contains_its_rects (rects : list CGRect.CGRect) (r : CGRect.CGRect) :
  Forall (fun q => on_grid q = true) rects ->
  r ∈ rects ->
  (CGRect.minX r <= CGRect.maxX r) = true ->
  (CGRect.minY r <= CGRect.maxY r) = true ->
  CGRect.containsRect r (CGRect.merge rects) = true.
Proof.
  intros Hall Hin Hx Hy.
  assert (H1 : Forall (fun d => small_integer d = true) (map CGRect.minX rects)
            /\ Forall (fun d => small_integer d = true) (map CGRect.maxX rects)
            /\ Forall (fun d => small_integer d = true) (map CGRect.minY rects)
            /\ Forall (fun d => small_integer d = true) (map CGRect.maxY rects)).
  { repeat split; apply List.Forall_forall; intros d Hd;
      apply List.in_map_iff in Hd as [q [<- Hq]];
      (eapply List.Forall_forall in Hall; [|exact Hq]); unfold on_grid in Hall;
      apply andb_true_iff in Hall as [Hall ?];
      apply andb_true_iff in Hall as [Hall ?];
      apply andb_true_iff in Hall as [? ?]; assumption. }
  destruct H1 as [F1 [F2 [F3 F4]]].
  destruct (merge_axis _ _ _ _ F1 F2 (elem_of_map _ _ _ Hin) (elem_of_map _ _ _ Hin) Hx)
    as [X1 [X2 [X3 X4]]].
  destruct (merge_axis _ _ _ _ F3 F4 (elem_of_map _ _ _ Hin) (elem_of_map _ _ _ Hin) Hy)
    as [Y1 [Y2 [Y3 Y4]]].
  unfold CGRect.containsRect, CGRect.cornerPoints.
  cbn [forallb].
  rewrite !(containsPoint_within _ (CGRect.merge rects)); try reflexivity;
    cbn [CGPoint.x CGPoint.y]; assumption.
Qed.

Lemma merge_contains_its_rects_witness :
  CGRect.containsRect box_50_20_5_5 (CGRect.merge [box_0_0_10_10; box_50_20_5_5])
  = true.
Proof.
  apply (merge_contains_its_rects [box_0_0_10_10; box_50_20_5_5]).
  - repeat (constructor; [vm_compute; reflexivity|]). constructor.
  - apply list_elem_of_lookup_2 with 1%nat. reflexivity.
  - vm_compute; reflexivity.
  - vm_compute; reflexivity.
Defined.

(** X17.  The edges of a rectangle belong to it: a rectangle whose far
    edges are not below its near edges ([minX <= maxX] and
    [minY <= maxY]) contains each of its own four corners, that is,
    [rect.containsRect(rect)] is [true]. *)
Theorem containsRect_reflexive (r : CGRect.CGRect) :
  (CGRect.minX r <= CGRect.maxX r) = true ->
  (CGRect.minY r <= CGRect.maxY r) = true ->
  CGRect.containsRect r r = true.
Proof.
  intros Hx Hy.
  destruct (le_not_nan _ _ Hx) as [Nx NX]. destruct (le_not_nan _ _ Hy) as [Ny NY].
  unfold CGRect.containsRect, CGRect.cornerPoints. cbn [forallb].
  rewrite !containsPoint_within; try reflexivity; cbn [CGPoint.x CGPoint.y];
    try assumption; now apply le_refl.
Qed.

Lemma containsRect_reflexive_witness :
  CGRect.containsRect box_0_0_10_10 box_0_0_10_10 = true.
Proof.
  apply (containsRect_reflexive box_0_0_10_10); vm_compute; reflexivity.
Defined.

(** X18.  A rectangle whose origin has a NaN coordinate contains nothing:
    [containsPoint] is [false] for every point and [containsRect] is
    [false] for every rectangle (itself included); the same holds of
    [containsPoint] on the flat [Rect]. *)
Theorem nan_origin_contains_nothing
    (p : CGPoint.CGPointValue) (q : CGRect.CGRect) (x y w h : number) :
  isNaN x || isNaN y = true ->
  CGRect.containsPoint p (CGRect.create x y w h) = false
  /\ CGRect.containsRect q (CGRect.create x y w h) = false
  /\ Rect.containsPoint p (Rect.mk x y w h) = false.
Proof.
  intros H.
  assert (HC : forall p', CGRect.containsPoint p' (CGRect.create x y w h) = false).
  { intros p'. unfold CGRect.containsPoint, CGRect.create, CGRect.x, CGRect.y.
    cbn [CGRect.origin CGPoint.x CGPoint.y].
    apply orb_true_iff in H as [-> | ->];
      repeat match goal with |- context [if ?c then _ else _] => destruct c end;
      reflexivity. }
  split; [apply HC|]. split.
  - unfold CGRect.containsRect, CGRect.cornerPoints. cbn [forallb].
    now rewrite HC.
  - unfold Rect.containsPoint. cbn [Rect.x Rect.y].
    apply orb_true_iff in H as [-> | ->];
      repeat match goal with |- context [if ?c then _ else _] => destruct c end;
      reflexivity.
Qed.

Lemma nan_origin_contains_nothing_witness :
  CGRect.containsPoint {| CGPoint.x := #5; CGPoint.y := #5 |}
      (CGRect.create NaN #0 #10 #10) = false
  /\ CGRect.containsRect (CGRect.create NaN #0 #10 #10)
      (CGRect.create NaN #0 #10 #10) = false
  /\ Rect.containsPoint {| CGPoint.x := #5; CGPoint.y := #5 |}
      (Rect.mk NaN #0 #10 #10) = false.
Proof.
  apply (nan_origin_contains_nothing {| CGPoint.x := #5; CGPoint.y := #5 |}
           (CGRect.create NaN #0 #10 #10) NaN #0 #10 #10).
  reflexivity.
Defined.

Lemma add_twice_zero (w value : number) :
  (value === #0) = true -> same_value_zero w (w + #2 * value) = true.
Proof.
  destruct value as [sz|sz| |sz mz ez];
    [ | destruct sz; discriminate | discriminate | destruct sz; discriminate ].
  intros _. destruct w as [sw|sw| |sw mw ew]; try reflexivity.
  - destruct sw, sz; reflexivity.
  - apply (InflateProps.same_value_zero_refl (S754_infinity sw)).
  - apply (InflateProps.same_value_zero_refl (S754_finite sw mw ew)).
Qed.

(** X19.  [inflate(value)] of the flat [Rect] moves every edge outward by
    [value]: the new [x] and [y] are the old ones minus [value] and the
    new width and height are the old ones plus [2 * value].  The early
    return for [value === 0] is not observable (a zero may keep its
    sign). *)
Theorem Rect_inflate_fields (value : number) (this : Rect.Rect) :
  let r := Rect.inflate value this in
  same_value_zero (Rect.x r) (Rect.x this - value) = true
  /\ same_value_zero (Rect.y r) (Rect.y this - value) = true
  /\ same_value_zero (Rect.width r) (Rect.width this + #2 * value) = true
  /\ same_value_zero (Rect.height r) (Rect.height this + #2 * value) = true.
Proof.
  unfold Rect.inflate. destruct (value === #0) eqn:E; simpl.
  - split; [now apply InflateProps.sub_zero|].
    split; [now apply InflateProps.sub_zero|].
    split; now apply add_twice_zero.
  - repeat split; apply InflateProps.same_value_zero_refl.
Qed.

End RectMoreProps.

(** ** Numeric ranges *)

Module RangeMoreProps.

Import JS JSFacts OrderFacts ListFacts CFNumericRange.

(** X20.  [new CFNumericRange({ step: NaN, ... })] never yields an
    instance: unless it throws the range error for [max < min], the call
    is still inside the loop of [countDecimals] however long it is allowed
    to run. *)
Theorem constructor_never_returns_on_nan_step
    (fuel : nat) (opts : CFNumericRangeOptions) :
  o_step opts = Some NaN ->
  constructor fuel opts =
    if default #100 (o_max opts) < default #0 (o_min opts)
    then Throws (RangeError "clamp: max cannot be less than min")
    else Unfinished.
Proof.
  intros H. unfold constructor. rewrite H. simpl.
  destruct (_ < _); [reflexivity|].
  unfold countDecimals. simpl. now rewrite RangeProps.countDecimals_nan.
Qed.

Definition options_nan_step : CFNumericRangeOptions :=
  {| o_min := Some #0; o_max := Some #10; o_precision := None;
     o_step := Some NaN; o_value := None |}.

Lemma constructor_never_returns_on_nan_step_witness :
  constructor 1000 options_nan_step = Unfinished.
Proof.
  apply (constructor_never_returns_on_nan_step 1000 options_nan_step). reflexivity.
Defined.

(** The instances reachable from [r0] by calls of the mutating methods
    [setValue], [setStep], [setToMin], [setToMax], [increment],
    [decrement], [clamp] and [reset]. *)
Inductive reached (r0 : CFNumericRange) : CFNumericRange -> Prop :=
  | reached_new : reached r0 r0
  | reached_setValue r v : reached r0 r -> reached r0 (setValue v r)
  | reached_setStep r s : reached r0 r -> reached r0 (setStep s r)
  | reached_setToMin r : reached r0 r -> reached r0 (setToMin r)
  | reached_setToMax r : reached r0 r -> reached r0 (setToMax r)
  | reached_increment r s : reached r0 r -> reached r0 (increment s r)
  | reached_decrement r s : reached r0 r -> reached r0 (decrement s r)
  | reached_clamp r r' approx :
      reached r0 r -> clamp approx r = Returns r' -> reached r0 r'
  | reached_reset r : reached r0 r -> reached r0 (reset r).

Lemma constructor_returns (fuel : nat) (opts : CFNumericRangeOptions)
    (r0 : CFNumericRange) :
  constructor fuel opts = Returns r0 ->
  r0 = {| options := opts;
          min := default #0 (o_min opts);
          max := default #100 (o_max opts);
          precision := o_precision opts;
          step := default #1 (o_step opts);
          stepPrecision := stepPrecision r0;
          value := default (Num #0) (o_value opts) |}.
Proof.
  unfold constructor. destruct (_ < _); [discriminate|].
  destruct (countDecimals _ _); [|discriminate]. now intros [= <-].
Qed.

(** No method changes the options or the step precision. *)
Lemma reached_keeps (r0 r : CFNumericRange) :
  reached r0 r ->
  options r = options r0 /\ stepPrecision r = stepPrecision r0.
Proof.
  induction 1 as [|r v _ IH|r s _ IH|r _ IH|r _ IH|r s _ IH|r s _ IH
                  |r r' approx _ IH Hc|r _ IH];
    try exact IH; try (split; reflexivity).
  - unfold increment. destruct (value r) as [?|[|? ?]]; exact IH.
  - unfold decrement. destruct (value r) as [?|[|? ?]]; exact IH.
  - unfold clamp in Hc. destruct (toFixed _ _ _); try discriminate.
    injection Hc as <-. exact IH.
Qed.

(** X21.  [reset()] gives back the instance as the constructor returned
    it, field for field, after any sequence of calls of [setValue],
    [setStep], [setToMin], [setToMax], [increment], [decrement], [clamp]
    and [reset]. *)
Theorem reset_restores_the_constructed_range
    (fuel : nat) (opts : CFNumericRangeOptions) (r0 r : CFNumericRange) :
  constructor fuel opts = Returns r0 ->
  reached r0 r ->
  reset r = r0.
Proof.
  intros Hc Hr. destruct (reached_keeps r0 r Hr) as [Ho Hp].
  pose proof (constructor_returns fuel opts r0 Hc) as E.
  destruct r0 as [o mn mx pr st sp vl]. simpl in *.
  injection E as -> -> -> -> -> ->.
  unfold reset. rewrite Ho, Hp. reflexivity.
Qed.

Definition options_0_10_value_5 : CFNumericRangeOptions :=
  {| o_min := Some #0; o_max := Some #10; o_precision := None;
     o_step := None; o_value := Some (Num #5) |}.

Definition range_0_10_value_5 : CFNumericRange :=
  {| options := options_0_10_value_5; min := #0; max := #10; precision := None;
     step := #1; stepPrecision := #0; value := Num #5 |}.

Lemma reset_restores_the_constructed_range_witness :
  reset (increment None (setStep #3 (setValue (Str "20") range_0_10_value_5)))
  = range_0_10_value_5.
Proof.
  apply (reset_restores_the_constructed_range 1 options_0_10_value_5).
  - reflexivity.
  - apply reached_increment, reached_setStep, reached_setValue, reached_new.
Defined.

(** X22.  [decrement(step)] is [increment(-step)]: the two calls leave the
    same instance, bit for bit, for every value (the empty string
    included) and every step; with the argument omitted the step is
    [this.step]. *)
Theorem decrement_is_increment_of_the_negated_step
    (s : option number) (this : CFNumericRange) :
  decrement s this = increment (Some (- default (step this) s)) this.
Proof.
  unfold decrement, increment. simpl.
  destruct (value this) as [n|[|c t]]; try reflexivity; now rewrite add_neg.
Qed.

(** X23.  When [isInRange] holds of a value that is not the empty string,
    the number [clamp()] formats is [valueOf()] itself: clipping to
    [min, max] changes nothing ([===]; a zero may change its sign). *)
Theorem clamp_keeps_a_value_in_range (this : CFNumericRange) :
  value this <> Str "" -> isInRange this = true ->
  (clipped this === valueOf this) = true.
Proof.
  intros Hv H. unfold isInRange in H.
  assert (H' : (valueOf this <= max this) && (valueOf this >= min this) = true).
  { destruct (value this) as [n|[|c t]]; try exact H. now elim Hv. }
  apply andb_true_iff in H' as [Hhi Hlo].
  unfold clipped. now apply clip_in_range.
Qed.

Definition range_0_10_value_text : CFNumericRange :=
  {| options := options_0_10_value_5; min := #0; max := #10;
     precision := None; step := #1; stepPrecision := #0; value := Str "7.5" |}.

Lemma clamp_keeps_a_value_in_range_witness :
  (clipped range_0_10_value_text === valueOf range_0_10_value_text) = true.
Proof.
  apply (clamp_keeps_a_value_in_range range_0_10_value_text).
  - discriminate.
  - vm_compute; reflexivity.
Defined.

(** X24.  [CFNumericRange.transform(input, output)] throws the range error
    of the constructor when either tuple is descending ([max < min]); in
    particular it cannot map onto a descending output interval. *)
Theorem transform_rejects_descending_tuples (fuel : nat) (a b c d : number) :
  (b < a) = true \/ (d < c) = true ->
  transform (S fuel) (a, b) (c, d)
  = Throws (RangeError "clamp: max cannot be less than min").
Proof.
  intros H. unfold transform, fromTuple, constructor. simpl.
  destruct (b < a); [reflexivity|].
  destruct H as [H|H]; [discriminate|]. now rewrite H.
Qed.

Lemma transform_rejects_descending_tuples_witness :
  transform 1 (#0, #1) (#100, #0)
  = Throws (RangeError "clamp: max cannot be less than min").
Proof.
  apply (transform_rejects_descending_tuples 0 #0 #1 #100 #0).
  right. reflexivity.
Defined.

(** X25.  For tuples [[a, b]] and [[c, d]] that are not descending, with
    [a] and [c] finite, [transform] returns a function that maps [a] to
    [c] ([===]) provided the ratio [(d - c) / (b - a)] is finite or an
    interval is degenerate ([a === b] or [c === d]); on a degenerate
    interval the function is constant: it returns [c] for every
    argument. *)
Theorem transform_maps_min_to_min (fuel : nat) (a b c d : number) :
  (b < a) = false -> (d < c) = false ->
  isFinite a = true -> isFinite c = true ->
  (a === b) || (c === d) || isFinite ((d - c) / (b - a)) = true ->
  exists f,
    transform (S fuel) (a, b) (c, d) = Returns f
    /\ (f a === c) = true
    /\ ((a === b) || (c === d) = true -> forall v, f v = c).
Proof.
  intros Hab Hcd Fa Fc H. unfold transform, fromTuple, constructor. simpl.
  rewrite Hab, Hcd. eexists. split; [reflexivity|]. simpl. split.
  - destruct ((a === b) || (c === d)) eqn:D.
    + apply strict_eq_compare, compare_refl. now destruct c.
    + simpl in H. rewrite (sub_self a Fa).
      destruct (mul_zero_r _ H) as [s ->]. now apply add_zero_r.
  - intros D v. now rewrite D.
Qed.

Lemma transform_maps_min_to_min_witness :
  exists f,
    transform 1 (#0, #10) (#50, #100) = Returns f
    /\ (f #0 === #50) = true
    /\ ((#0 === #10) || (#50 === #100) = true -> forall v, f v = #50).
Proof.
  apply (transform_maps_min_to_min 0 #0 #10 #50 #100); vm_compute; reflexivity.
Defined.

(** X26.  [withOptions(options)] builds the new range from the options the
    receiver was constructed with, not from its current state: after any
    sequence of calls of the mutating methods the result is what the
    constructor returns on the original options with every own key of
    [options] copied over them (a key that holds [undefined] included); a
    value or step set in the meantime is not carried over. *)
Theorem withOptions_ignores_the_current_state
    (fuel fuel' : nat) (opts : CFNumericRangeOptions) (o : PartialOptions)
    (r0 r : CFNumericRange) :
  constructor fuel opts = Returns r0 ->
  reached r0 r ->
  withOptions fuel' o r = constructor fuel' (spread_options opts o).
Proof.
  intros Hc Hr. destruct (reached_keeps r0 r Hr) as [Ho _].
  unfold withOptions. rewrite Ho.
  now rewrite (constructor_returns fuel opts r0 Hc).
Qed.

(** [{}] and [{ max: undefined }]. *)
Definition no_options : PartialOptions :=
  {| k_min := no_key; k_max := no_key; k_precision := no_key;
     k_step := no_key; k_value := no_key |}.

Definition max_undefined : PartialOptions :=
  {| k_min := no_key; k_max := holds_undefined; k_precision := no_key;
     k_step := no_key; k_value := no_key |}.

Lemma withOptions_ignores_the_current_state_witness :
  withOptions 1 no_options (setValue (Str "7") range_0_10_value_5)
  = Returns range_0_10_value_5.
Proof.
  apply (withOptions_ignores_the_current_state 1 1 options_0_10_value_5 no_options
           range_0_10_value_5).
  - reflexivity.
  - apply reached_setValue, reached_new.
Defined.

(** A key that holds [undefined] overrides: the maximum of the new range
    is the default 100, not the 10 of the receiver. *)
Example withOptions_undefined_key :
  option_map max
    (match withOptions 1 max_undefined range_0_10_value_5 with
     | Returns r => Some r
     | _ => None
     end)
  = Some #100.
Proof. by_evaluation. Qed.

(** The range that the constructor returns for a triple of [fromValues]. *)
Definition range_of_triple (t : number * number * number) : CFNumericRange :=
  let '(min_, max_, value_) := t in
  {| options := {| o_min := Some min_; o_max := Some max_; o_precision := None;
                   o_step := None; o_value := Some (Num value_) |};
     min := min_; max := max_; precision := None; step := #1;
     stepPrecision := #0; value := Num value_ |}.

Lemma construct_all_returns (fuel : nat) (triples : list (number * number * number)) :
  Forall (fun t => (snd (fst t) < fst (fst t)) = false) triples ->
  construct_all (S fuel) triples = Returns (map range_of_triple triples).
Proof.
  induction 1 as [|[[lo hi] v] rest H _ IH]; [reflexivity|].
  simpl in H. cbn [construct_all]. unfold constructor.
  cbn [from_option id o_min o_max o_step o_precision o_value].
  rewrite H, RangeProps.countDecimals_default_step, IH. reflexivity.
Qed.

(** A list in which every element is less than or equal to the next. *)
Fixpoint ascending (l : list number) : bool :=
  match l with
  | a :: rest =>
      match rest with
      | b :: _ => (a <= b) && ascending rest
      | [] => true
      end
  | [] => true
  end.

Lemma ascending_lookup (l : list number) (i : nat) (a b : number) :
  ascending l = true -> l !! i = Some a -> l !! S i = Some b -> (a <= b) = true.
Proof.
  revert i. induction l as [|x l IH]; intros i H Ha Hb; [discriminate|].
  destruct l as [|y l]; [discriminate|].
  cbn [ascending] in H. apply andb_true_iff in H as [Hxy H].
  destruct i as [|i].
  - simpl in Ha, Hb. congruence.
  - apply (IH i H Ha Hb).
Qed.

(** X27.  [CFNumericRange.fromValues({ values, min, max })] on values in
    ascending order between [min] and [max]
    ([min <= values[0] <= values[1] <= ... <= max]) returns one range for
    each value, in order; the range of [values[i]] holds that value,
    reaches from the previous value (or [min]) to the next one (or
    [max]), and brackets its value: [range.min <= values[i] <= range.max]. *)
Theorem fromValues_brackets_each_value
    (fuel : nat) (values : list number) (min_ max_ : number) :
  ascending (min_ :: values ++ [max_]) = true ->
  exists rs,
    fromValues (S fuel) values min_ max_ = Returns rs
    /\ length rs = length values
    /\ forall i r, rs !! i = Some r ->
         exists v, values !! i = Some v
           /\ value r = Num v
           /\ Some (min r) = (min_ :: values) !! i
           /\ Some (max r) = (values ++ [max_]) !! S i
           /\ (min r <= v) = true /\ (v <= max r) = true.
Proof.
  intros Hasc.
  set (chain := min_ :: values ++ [max_]) in *.
  assert (Hv : forall i v, values !! i = Some v -> chain !! S i = Some v).
  { intros i v H. unfold chain. simpl. now apply lookup_app_l_Some. }
  assert (Hlo : forall i v, values !! i = Some v ->
            chain !! i
            = Some (match i with O => min_ | S j => default min_ (values !! j) end)).
  { intros [|j] v H; [reflexivity|]. unfold chain. simpl.
    assert (Hj : (j < length values)%nat) by (apply lookup_lt_Some in H; lia).
    destruct (lookup_lt_is_Some_2 values j Hj) as [a Ha].
    rewrite Ha. simpl. now apply lookup_app_l_Some. }
  assert (Hhi : forall i v, values !! i = Some v ->
            chain !! S (S i) = Some (default max_ (values !! S i))).
  { intros i v H. unfold chain. simpl.
    destruct (values !! S i) as [b|] eqn:Hb; simpl.
    - now apply lookup_app_l_Some.
    - apply lookup_ge_None in Hb. apply lookup_lt_Some in H.
      assert (S i = length values) as -> by lia.
      rewrite lookup_app_r by lia. now rewrite Nat.sub_diag. }
  assert (Hbr : forall i v, values !! i = Some v ->
            (match i with O => min_ | S j => default min_ (values !! j) end <= v) = true
            /\ (v <= default max_ (values !! S i)) = true).
  { intros i v H. split.
    - exact (ascending_lookup chain i _ _ Hasc (Hlo i v H) (Hv i v H)).
    - exact (ascending_lookup chain (S i) _ _ Hasc (Hv i v H) (Hhi i v H)). }
  assert (Hok : Forall (fun t => (snd (fst t) < fst (fst t)) = false)
                       (fromValues_triples values min_ max_)).
  { apply Forall_lookup. intros i t Ht. unfold fromValues_triples in Ht.
    rewrite list_lookup_imap in Ht.
    destruct (values !! i) as [v|] eqn:Hi; [|discriminate].
    simpl in Ht. injection Ht as <-. cbn [fst snd].
    destruct (Hbr i v Hi) as [B1 B2].
    apply le_not_gt. exact (le_trans _ _ _ B1 B2). }
  exists (map range_of_triple (fromValues_triples values min_ max_)).
  split; [unfold fromValues; now apply construct_all_returns|].
  split; [unfold fromValues_triples; now rewrite length_map, length_imap|].
  intros i r Hr. rewrite lookup_map in Hr. unfold fromValues_triples in Hr.
  rewrite list_lookup_imap in Hr.
  destruct (values !! i) as [v|] eqn:Hi; [|discriminate].
  simpl in Hr. injection Hr as <-. exists v. cbn [value min max].
  destruct (Hbr i v Hi) as [B1 B2].
  split; [reflexivity|]. split; [reflexivity|].
  split; [|split; [|split; assumption]].
  - destruct i as [|j]; [reflexivity|]. simpl.
    assert (Hj : (j < length values)%nat) by (apply lookup_lt_Some in Hi; lia).
    destruct (lookup_lt_is_Some_2 values j Hj) as [a Ha]. now rewrite Ha.
  - pose proof (Hhi i v Hi) as E. unfold chain in E. simpl in E. now rewrite E.
Qed.

Definition thumb_values : list number := [ #2; #5; #8 ].

Lemma fromValues_brackets_each_value_witness :
  exists rs,
    fromValues 1 thumb_values #0 #10 = Returns rs
    /\ length rs = length thumb_values
    /\ forall i r, rs !! i = Some r ->
         exists v, thumb_values !! i = Some v
           /\ value r = Num v
           /\ Some (min r) = (#0 :: thumb_values) !! i
           /\ Some (max r) = (thumb_values ++ [ #10 ]) !! S i
           /\ (min r <= v) = true /\ (v <= max r) = true.
Proof.
  apply (fromValues_brackets_each_value 0 thumb_values #0 #10).
  vm_compute; reflexivity.
Defined.

End RangeMoreProps.

(** ** Assertions *)

Module AssertionProps.

Import JS.

(** X28.  [isNumeric] never returns [false]: it is [true] of every value
    of every type (of NaN, of a string, of [undefined]), in the copy of
    [js-assertion] and in the copy of [cf-numeric-range]; so the guard
    [if (!isNumeric(value)) return 0] of [countDecimals] never fires. *)
Theorem isNumeric_is_always_true (value : Assertion.unknown) (n : number) :
  Assertion.isNumeric value = true
  /\ CFNumericRange.isNumeric n = true
  /\ forall fuel, CFNumericRange.countDecimals fuel n
                  = CFNumericRange.countDecimals_loop fuel n #1 #0.
Proof.
  split; [|split; [reflexivity|reflexivity]].
  unfold Assertion.isNumeric.
  destruct value as [m| |]; simpl; [|reflexivity|reflexivity].
  reflexivity.
Qed.

End AssertionProps.
